(* ===== verification/_CoqProject ===== *)
-Q . S2P
Prelude.v
Api.v
Dom.v
QueryString.v
Feed.v
PostCard.v
SearchBar.v
Debounce.v
FeedMachine.v
PostDetail.v
CreatePost.v
Auth.v
Profile.v
Routing.v
Links.v
