(* ===== verification/Prelude.v ===== *)
(** * A verification development for the BlogApp React client (src/blog/src)

    ** The program

    The repository is a single-page React client for a blog service.  All
    of its logic lives in nine files under [src/blog/src]:

    - [contexts/AuthContext.jsx]: the session.  React state [user] and
      [loading], the two [localStorage] slots [access_token] and
      [refresh_token], and the handlers [fetchUserProfile] (run on mount
      when a token is stored), [login], [register], [logout] and
      [updateProfile].  Its context value is read by every other part.
    - [pages/Home.jsx]: the feed.  State [posts], [loading],
      [searchQuery], [filters] and [pagination]; [fetchPosts] (run by an
      effect whenever [searchQuery] or [filters] changes), [loadMore],
      [handleSearch], [handleFilter] and [handlePostDelete].
    - [components/SearchBar.jsx]: the search box.  Its own [searchQuery]
      and [filters]; a 500 ms timer re-armed on every change of the text
      (and of the [onSearch] callback) calls [onSearch]; every change of
      [filters] (and of [onFilter]) calls [onFilter] at once.
    - [components/PostCard.jsx]: one post of the feed, with its own
      [isLiked]/[likesCount]/[loading] state, [handleLike] and
      [handleDelete] (which calls back into Home's [handlePostDelete]).
    - [pages/PostDetail.jsx]: one post with its comments: [fetchPost],
      [handleLike], [handleCommentSubmit], [handleDeletePost].
    - [App.jsx] and [components/Navbar.jsx]: routing guards and the
      navigation entries, both functions of the session.
    - [pages/Profile.jsx], [pages/CreatePost.jsx]: forms that call
      [updateProfile] and [POST /posts/].
    The module [services/api] (an axios instance) is not in the
    repository; the request gateway is modelled from the spec.

    ** How the code is modelled

    Every asynchronous handler [async () => { A; await call; B }] is cut
    at its [await]: the part before it is a function of the component
    state that emits the request, the part after it is a function of the
    state at completion time and of the [outcome] of the call (a resolved
    payload or a rejected axios error).  React state is a Rocq [Record];
    [setX v] is a record update; toasts, requests, navigation and
    storage writes are [Effect]s collected in order by the small
    state-and-log monad [St] of this file.  Values that a closure
    captures at the time of a click (the [posts] array that Home's
    [handlePostDelete] filters, the comment text of PostDetail) are kept
    in the pending request, exactly as the JavaScript closure keeps them.
    JavaScript objects whose identity matters (the [filters] objects
    compared by React with [Object.is]) carry an allocation number.

    ** Files (in dependency order)

    - [Prelude.v] (this file): JavaScript truthiness and [trim] on
      strings (the white space of ECMA-262, Unicode spaces included, on
      the UTF-8 bytes of a string), the [||]-chain used to pick error messages, decimal
      printing of ids, the [St] monad with its laws and the [blog] hint
      and rewrite databases, and generic list lemmas.
    - [Api.v]: the JSON payloads, axios errors, call [outcome]s and the
      [Effect]s (requests, toasts, navigation, console, storage).
    - [Dom.v]: the [node] tree a render returns, with its [links],
      [actions] and [texts], and the avatar shared by cards and comments.
    - [QueryString.v]: object spread, [URLSearchParams] serialization
      and the standard's parser, for the feed URL of [fetchPosts].
    - [Feed.v]: [Module Home], the state and handlers of [Home.jsx].
    - [PostCard.v]: [Module PostCard], the card's like and delete
      handlers, its render [view], and [Section LikeMachine].
    - [SearchBar.v]: [Module SearchBar], its state, handlers and render.
    - [Debounce.v]: [Module Debounce], the 500 ms timer in time.
    - [FeedMachine.v]: Home, SearchBar and the cards' delete composed
      into a concurrent step machine ([World], [step], [run],
      [reachable]).
    - [PostDetail.v]: [Module PostDetail], its handlers, render
      ([page_dom]) and [Section LikeRace].
    - [CreatePost.v]: [Module CreatePost], the form, file readers,
      submit and render.
    - [Auth.v]: [Module Auth], the session provider, sequential
      ([op_step]) and concurrent ([astep]) compositions, and the spec's
      session operations with their transitions ([spec_next]).
    - [Profile.v]: the [ProfileApi]/[ProfileApiLaws] interface of the
      auth context, its instance for [Auth], and the profile page proved
      against the interface.
    - [Routing.v]: [Module Routing] (the routes and guards of [App.jsx])
      and [Module Navbar].
    - [Links.v]: the home page render [home_dom], and every link of the
      rendered pages followed through the routes.

    ** What is proved

    The properties are listed, most important first, in PROJECT.json.
    - Invariants by rule induction: the feed machine's well-formedness
      ([reachable_inv]) and the session's "no user without a token",
      sequentially and with late replies.
    - Termination and liveness: route resolution takes one redirection
      at most and equals the unbounded relation; a feed with posts
      settles after two replies.  And their failures in the code: an
      empty feed, or a search without results, refetches forever.
    - Refinement: the debouncer against its declarative contract, also
      when the search bar unmounts (the pending text is then lost); each
      session operation against the transition the spec prescribes for
      it; the profile page against the auth interface.
    - Functional behaviour and error paths of each handler on every
      branch; what the server reads from the feed request; the bounds on
      the debouncer's timing.
    - Safety of the rendered pages: every link leads to a page, except
      the post card's edit link, which no route matches.
    - Runs that exhibit the races the spec forbids (stale fetch replies
      applied, duplicated pages, reordered like replies, a lost page
      after a delete, an out-of-date image preview, a user shown again
      after logout).

    ** Bounds and fuel

    The only fuel is the redirection count of [Routing.resolve], 2,
    which [resolve_no_loop] and [resolve_equiv] show is enough (one
    would do): a redirection goes to [/] or [/login], whose routes render
    a page for the session that was redirected.  [FeedMachine.settle]
    runs two rounds of mounting (a reply can unmount the search bar and
    the next round remount it); the invariant of [reachable_inv] shows
    that the bar is then mounted exactly when no spinner is shown.
    Every other definition is structural over the events or the data.

    ** Not modelled

    The axios instance [services/api] (not in the repository: a request
    is an effect and its reply an input); the entry point and the
    styling; the Login and Register pages, which [App.jsx] imports but
    the repository does not hold (the context calls they make are
    modelled);
    the browser's date formatting ([DateText]); the [showFilters] cell
    of the search bar, a view parameter that only hides the inputs;
    React Router's case-insensitive matching (every link is lower
    case). *)

From stdpp Require Export base list strings decidable sets.
From Stdlib Require Import DecimalString DecimalNat.
From Stdlib Require Export Ascii.

Declare Scope blog_scope.
Delimit Scope blog_scope with blog.
Open Scope string_scope.

Create HintDb blog discriminated.
Create Rewrite HintDb blog_run.

(** ** JavaScript truthiness of strings *)

(** A string is truthy in JavaScript iff it is not empty. *)
Definition truthy (s : string) : bool := negb (String.eqb s "").

(** [undefined], [null] and [""] are falsy; any other string is truthy. *)
Definition truthy_opt (o : option string) : bool :=
  match o with Some s => truthy s | None => false end.

(** [a || b || ... || dflt] over operands that are strings or
    [undefined]: the first truthy operand, else the last one. *)
Fixpoint js_or (l : list (option string)) (dflt : string) : string :=
  match l with
  | [] => dflt
  | Some s :: r => if truthy s then s else js_or r dflt
  | None :: r => js_or r dflt
  end.

(** [xs?.[0]] on an optional array of strings. *)
Definition first_of (o : option (list string)) : option string :=
  match o with Some (s :: _) => Some s | _ => None end.

(** Template interpolation [`${n}`] of a non-negative integer. *)
Definition string_of_nat (n : nat) : string :=
  NilEmpty.string_of_uint (Nat.to_uint n).

(** The white space that [String.prototype.trim] removes: the
    WhiteSpace and LineTerminator code points of ECMA-262, read as the
    UTF-8 bytes of the string.  One byte: U+0009 to U+000D and U+0020.
    Two bytes: U+00A0 ([C2 A0]).  Three bytes: U+1680 ([E1 9A 80]),
    U+2000 to U+200A ([E2 80 80] to [E2 80 8A]), U+2028 and U+2029
    ([E2 80 A8], [E2 80 A9]), U+202F ([E2 80 AF]), U+205F ([E2 81 9F]),
    U+3000 ([E3 80 80]) and U+FEFF ([EF BB BF]). *)
Definition js_space (c : ascii) : bool :=
  let n := nat_of_ascii c in (Nat.leb 9 n && Nat.leb n 13) || Nat.eqb n 32.

Definition js_space2 (a b : ascii) : bool :=
  Nat.eqb (nat_of_ascii a) 194 && Nat.eqb (nat_of_ascii b) 160.

Definition js_space3 (a b c : ascii) : bool :=
  let x := nat_of_ascii a in let y := nat_of_ascii b in let z := nat_of_ascii c in
  (Nat.eqb x 225 && Nat.eqb y 154 && Nat.eqb z 128) ||
  (Nat.eqb x 226 && Nat.eqb y 128 &&
     ((Nat.leb 128 z && Nat.leb z 138) || Nat.eqb z 168 || Nat.eqb z 169 || Nat.eqb z 175)) ||
  (Nat.eqb x 226 && Nat.eqb y 129 && Nat.eqb z 159) ||
  (Nat.eqb x 227 && Nat.eqb y 128 && Nat.eqb z 128) ||
  (Nat.eqb x 239 && Nat.eqb y 187 && Nat.eqb z 191).

(** The bytes of a string cut into white-space characters (tagged
    [true], with their bytes) and the other bytes (tagged [false], one
    each). *)
Fixpoint js_chars (l : list ascii) : list (bool * list ascii) :=
  match l with
  | [] => []
  | a :: r =>
      if js_space a then (true, [a]) :: js_chars r else
      match r with
      | [] => [(false, [a])]
      | b :: r2 =>
          if js_space2 a b then (true, [a; b]) :: js_chars r2 else
          match r2 with
          | c :: r3 => if js_space3 a b c then (true, [a; b; c]) :: js_chars r3
                       else (false, [a]) :: js_chars r
          | [] => (false, [a]) :: js_chars r
          end
      end
  end.

(** The elements after the longest prefix that satisfies [p]. *)
Fixpoint drop_while {A} (p : A -> bool) (l : list A) : list A :=
  match l with
  | [] => []
  | x :: r => if p x then drop_while p r else l
  end.

(** [s.trim()]: the leading and the trailing white space removed. *)
Definition trim (s : string) : string :=
  let cs := js_chars (String.list_ascii_of_string s) in
  String.string_of_list_ascii
    (List.concat (snd <$> rev (drop_while fst (rev (drop_while fst cs))))).

(** The string is empty or white space only. *)
Definition js_blank (s : string) : bool :=
  forallb fst (js_chars (String.list_ascii_of_string s)).

(** ** A state monad with an effect log *)

Record out (E S A : Type) := Out { o_val : A; o_st : S; o_fx : list E }.
Arguments Out {E S A} _ _ _.
Arguments o_val {E S A} _.
Arguments o_st {E S A} _.
Arguments o_fx {E S A} _.

Definition St (E S A : Type) := S -> out E S A.

Section Monad.
Context {E S : Type}.

Definition ret {A} (a : A) : St E S A := fun s => Out a s [].

Definition bind {A B} (m : St E S A) (k : A -> St E S B) : St E S B :=
  fun s =>
    let o := m s in
    let o' := k (o_val o) (o_st o) in
    Out (o_val o') (o_st o') (o_fx o ++ o_fx o').

Definition get : St E S S := fun s => Out s s [].
Definition modify (f : S -> S) : St E S unit := fun s => Out tt (f s) [].
Definition emit (e : E) : St E S unit := fun s => Out tt s [e].

(** Final state and effects of a computation. *)
Definition exec {A} (m : St E S A) (s : S) : S := o_st (m s).
Definition effects {A} (m : St E S A) (s : S) : list E := o_fx (m s).
End Monad.

Notation "x <- m ;; k" := (bind m (fun x => k))
  (at level 100, m at next level, right associativity) : blog_scope.
Notation "m ;; k" := (bind m (fun _ => k))
  (at level 100, k at level 200, right associativity) : blog_scope.
Open Scope blog_scope.
Open Scope nat_scope.
Open Scope list_scope.

(** String concatenation ([+] on strings, template literals). *)
Infix "^^" := String.append (at level 60, right associativity) : blog_scope.

Section MonadLaws.
Context {E S : Type}.

Lemma bind_ret_l {A B} (a : A) (k : A -> St E S B) s :
  bind (ret a) k s = k a s.
Proof. unfold bind, ret; simpl. by destruct (k a s). Qed.

Lemma bind_ret_r {A} (m : St E S A) s : bind m ret s = m s.
Proof. unfold bind, ret; simpl. destruct (m s); simpl. by rewrite app_nil_r. Qed.

Lemma bind_assoc {A B C} (m : St E S A) (k : A -> St E S B)
      (h : B -> St E S C) s :
  bind (bind m k) h s = bind m (fun a => bind (k a) h) s.
Proof. unfold bind; simpl. by rewrite app_assoc. Qed.

Lemma bind_modify {B} f (k : unit -> St E S B) s :
  bind (modify f) k s = k tt (f s).
Proof. unfold bind, modify; simpl. by destruct (k tt (f s)). Qed.

Lemma bind_emit {B} e (k : unit -> St E S B) s :
  bind (emit e) k s = Out (o_val (k tt s)) (o_st (k tt s)) (e :: o_fx (k tt s)).
Proof. reflexivity. Qed.

Lemma bind_get {B} (k : S -> St E S B) s : bind get k s = k s s.
Proof. unfold bind, get; simpl. by destruct (k s s). Qed.
End MonadLaws.

#[export] Hint Rewrite @bind_ret_l @bind_assoc @bind_modify @bind_get : blog_run.

(** Unfold a monadic handler down to its final [Out]. *)
Ltac run_simpl :=
  repeat (autorewrite with blog_run; cbn [o_val o_st o_fx exec effects ret emit get
                                       modify app]).

(** ** Truthiness lemmas *)

Lemma truthy_true s : truthy s = true <-> s <> "".
Proof.
  unfold truthy. destruct (String.eqb_spec s ""); simpl; naive_solver.
Qed.

Lemma truthy_false s : truthy s = false <-> s = "".
Proof.
  unfold truthy. destruct (String.eqb_spec s ""); simpl; naive_solver.
Qed.

Lemma truthy_empty : truthy "" = false.
Proof. reflexivity. Qed.
#[export] Hint Resolve truthy_empty : blog.

(** The result of an [||]-chain is one of its truthy operands, or the
    default when none is truthy. *)
Lemma js_or_cases l d :
  (js_or l d = d /\ Forall (fun o => truthy_opt o = false) l) \/
  (truthy (js_or l d) = true /\ Some (js_or l d) ∈ l).
Proof.
  induction l as [|[s|] l IH]; simpl.
  - left. auto.
  - destruct (truthy s) eqn:Hs.
    + right. split; [done | set_solver].
    + destruct IH as [[-> HF] | [HT HI]].
      * left. split; [done|]. constructor; auto.
      * right. split; [done | set_solver].
  - destruct IH as [[-> HF] | [HT HI]].
    + left. split; [done|]. constructor; auto.
    + right. split; [done | set_solver].
Qed.

(** ** Decimal printing of identifiers is injective *)

Lemma string_of_nat_inj n m : string_of_nat n = string_of_nat m -> n = m.
Proof.
  unfold string_of_nat. intros H.
  apply (f_equal NilEmpty.uint_of_string) in H.
  rewrite !NilEmpty.usu in H. injection H as H.
  by apply Unsigned.to_uint_inj.
Qed.

(** ** Lists filtered by a boolean test *)

Lemma filter_sublist {A} (f : A -> bool) (l : list A) :
  List.filter f l `sublist_of` l.
Proof.
  induction l as [|x l IH]; simpl; [done|].
  destruct (f x); [by apply sublist_skip | by apply sublist_cons].
Qed.

Lemma NoDup_map_sublist {A B} (g : A -> B) (l1 l2 : list A) :
  l1 `sublist_of` l2 -> NoDup (g <$> l2) -> NoDup (g <$> l1).
Proof.
  intros Hs Hn. eapply sublist_NoDup; [exact Hn|]. by apply fmap_sublist.
Qed.

Lemma filter_all_true {A} (f : A -> bool) (l : list A) :
  Forall (fun x => f x = true) l -> List.filter f l = l.
Proof. induction 1; simpl; [done|]. by rewrite H, IHForall. Qed.

#[export] Hint Resolve filter_sublist NoDup_map_sublist : blog.

(** ** String concatenation

    stdpp makes [String.append] opaque to [simpl]; these equations are its
    two defining clauses. *)

Lemma str_app_nil s : "" ^^ s = s.
Proof. reflexivity. Qed.

Lemma str_app_cons c r s : String c r ^^ s = String c (r ^^ s).
Proof. reflexivity. Qed.

Lemma str_app_assoc (a b c : string) : (a ^^ b) ^^ c = a ^^ b ^^ c.
Proof. induction a; rewrite ?str_app_nil, ?str_app_cons; congruence. Qed.

Lemma str_app_nil_r s : s ^^ "" = s.
Proof. induction s; rewrite ?str_app_nil, ?str_app_cons; congruence. Qed.

#[export] Hint Rewrite str_app_nil str_app_cons : blog_run.

(** Simplify a goal over concatenated strings. *)
Ltac str_simpl := repeat progress (simpl; rewrite ?str_app_nil, ?str_app_cons).

Lemma filter_idem {A} (f : A -> bool) (l : list A) :
  List.filter f (List.filter f l) = List.filter f l.
Proof.
  induction l as [|x l IH]; simpl; [done|].
  destruct (f x) eqn:E; simpl; [rewrite E|]; congruence.
Qed.

(** Deleting the element at [i] keeps every element that differs from it. *)
Lemma elem_of_delete_ne {A} (l : list A) i x y :
  l !! i = Some y -> x ∈ l -> x <> y -> x ∈ delete i l.
Proof.
  revert i. induction l as [|z l IH]; intros i Hi Hx Hne; [set_solver|].
  destruct i as [|i]; simpl in Hi |- *.
  - injection Hi as ->. apply elem_of_cons in Hx as [->|Hx]; [done|exact Hx].
  - apply elem_of_cons in Hx as [->|Hx]; [left|right; by eapply IH].
Qed.

(** ** Trimming *)

Lemma drop_while_nil {A} (p : A -> bool) l : drop_while p l = [] <-> forallb p l = true.
Proof.
  induction l as [|x l IH]; simpl; [done|].
  destruct (p x); simpl; [done|split; done].
Qed.

Lemma forallb_drop_while {A} (p : A -> bool) l : forallb p (drop_while p l) = forallb p l.
Proof. induction l as [|x l IH]; simpl; [done|]. by destruct (p x) eqn:E; simpl; rewrite ?E. Qed.

Lemma Forall_drop_while {A} (P : A -> Prop) p l : Forall P l -> Forall P (drop_while p l).
Proof. induction 1 as [|x l Hx Hl IH]; simpl; [constructor|]. destruct (p x); [done|by constructor]. Qed.

Lemma forallb_rev {A} (f : A -> bool) l : forallb f (rev l) = forallb f l.
Proof.
  induction l as [|x l IH]; simpl; [done|].
  rewrite forallb_app, IH. simpl. by rewrite andb_true_r, andb_comm.
Qed.

Lemma js_chars_nonempty l : Forall (fun t => snd t <> []) (js_chars l).
Proof.
  induction l as [l IH] using (induction_ltof1 _ (@length ascii)); unfold ltof in IH.
  destruct l as [|a r]; simpl; [constructor|].
  destruct (js_space a); [constructor; [done|apply IH; simpl; lia]|].
  destruct r as [|b r2]; [repeat constructor; done|].
  destruct (js_space2 a b); [constructor; [done|apply IH; simpl; lia]|].
  destruct r2 as [|c r3]; [constructor; [done|apply IH; simpl; lia]|].
  destruct (js_space3 a b c); constructor; try done; apply IH; simpl; lia.
Qed.

Lemma concat_snd_nil (ts : list (bool * list ascii)) :
  Forall (fun t => snd t <> []) ts -> List.concat (snd <$> ts) = [] -> ts = [].
Proof. destruct 1 as [|t ts Ht _]; simpl; [done|]. by destruct (snd t). Qed.

(** [!s.trim()] holds exactly when the string is white space only. *)
Lemma trim_truthy s : truthy (trim s) = negb (js_blank s).
Proof.
  unfold trim, js_blank, truthy.
  set (cs := js_chars (String.list_ascii_of_string s)).
  destruct (forallb fst cs) eqn:E.
  - apply drop_while_nil in E. rewrite E. reflexivity.
  - destruct (List.concat _) eqn:R; [|done]. exfalso.
    apply concat_snd_nil in R; [|apply Forall_rev, Forall_drop_while, Forall_rev,
                                    Forall_drop_while, js_chars_nonempty].
    apply (f_equal (@rev _)) in R. rewrite rev_involutive in R.
    apply drop_while_nil in R. rewrite forallb_rev, forallb_drop_while in R. congruence.
Qed.
