(* ===== verification/Api.v ===== *)
(** * Api: the data exchanged with the blog service and the observable effects

    The JSON payloads the components read ([response.data]) as records
    with the fields the code uses, the rejected-call value of axios
    ([error.response?.data]) with the fields the error messages are taken
    from, the [outcome] of an awaited call, and the [Effect]s a handler
    produces: requests, toasts, navigation and console output.  The
    axios instance [services/api] itself is not part of the repository:
    a request is the [Request] effect, and its completion is an [outcome]
    chosen by the environment. *)

From S2P Require Import Prelude.

(** [post.author], [comment.user]: the nested user summary. *)
Record UserSummary := mkUserSummary {
  us_id : nat;
  us_username : string;
  us_profile_picture : option string
}.

(** The [user] object of [AuthContext] ([/profile/], [/login/],
    [/register/] responses). *)
Record User := mkUser {
  u_id : nat;
  u_username : string;
  u_email : string;
  u_bio : string;
  u_profile_picture : option string;
  u_date_joined : string;
  u_posts_count : nat
}.

(** An element of [response.data.results] of [/posts/]. *)
Record Post := mkPost {
  post_id : nat;
  title : string;
  caption : string;
  image : option string;
  author : UserSummary;
  created_at : string;
  likes_count : nat;
  is_liked : bool;
  comments_count : nat
}.

Record Comment := mkComment {
  comment_id : nat;
  comment_user : UserSummary;
  content : string;
  comment_created_at : string
}.

(** [response.data] of [GET /posts/?...] and of [GET pagination.next]. *)
Record Page := mkPage {
  results : list Post;
  page_next : option string;
  page_previous : option string;
  page_count : nat
}.

(** [response.data] of [POST /posts/{id}/like/]. *)
Record LikeResp := mkLikeResp { resp_is_liked : bool; resp_likes_count : nat }.

(** [response.data] of [POST /login/] and [POST /register/]. *)
Record AuthResp := mkAuthResp { resp_user : User; access : string; refresh : string }.

(** [response.data] of [GET /posts/{id}/]: the post and its comments. *)
Record PostWithComments := mkPostWithComments {
  pd_post : Post;
  pd_comments : list Comment
}.

(** [error.response.data]: the fields the handlers read. *)
Record ErrorData := mkErrorData {
  ed_non_field_errors : option (list string);
  ed_detail : option string;
  ed_email : option (list string);
  ed_password : option (list string)
}.

(** An axios rejection: [error.response] is absent on a network error. *)
Record ApiError := mkApiError { err_response : option ErrorData }.

(** [error.response?.data?.f]. *)
Definition data_field {A} (f : ErrorData -> option A) (e : ApiError) : option A :=
  match err_response e with Some d => f d | None => None end.

(** The completion of an awaited call. *)
Inductive outcome (A : Type) :=
| Resolved (a : A)
| Rejected (e : ApiError).
Arguments Resolved {A} _.
Arguments Rejected {A} _.

Inductive Method := GET | POST | PUT | DELETE.

Inductive ToastKind := ToastSuccess | ToastError.

(** What a handler does outside its component's state. *)
Inductive Effect :=
| Request (m : Method) (url : string) (body : list (string * string))
| Toast (k : ToastKind) (msg : string)
| Navigate (path : string)
| ConsoleError.

#[export] Instance UserSummary_eq_dec : EqDecision UserSummary.
Proof. solve_decision. Defined.
#[export] Instance User_eq_dec : EqDecision User.
Proof. solve_decision. Defined.
#[export] Instance Post_eq_dec : EqDecision Post.
Proof. solve_decision. Defined.
#[export] Instance Comment_eq_dec : EqDecision Comment.
Proof. solve_decision. Defined.
#[export] Instance Method_eq_dec : EqDecision Method.
Proof. solve_decision. Defined.
#[export] Instance ToastKind_eq_dec : EqDecision ToastKind.
Proof. solve_decision. Defined.
#[export] Instance Effect_eq_dec : EqDecision Effect.
Proof. solve_decision. Defined.

(** The requests among a list of effects. *)
Definition is_request (e : Effect) : bool :=
  match e with Request _ _ _ => true | _ => false end.

Definition requests (fx : list Effect) : list Effect := List.filter is_request fx.

(** The monad of every handler: component state [S], effects [Effect]. *)
Abbreviation Handler S A := (St Effect S A).

Lemma requests_app fx1 fx2 : requests (fx1 ++ fx2) = requests fx1 ++ requests fx2.
Proof. apply List.filter_app. Qed.

Lemma requests_nil : requests [] = [].
Proof. reflexivity. Qed.

#[export] Hint Rewrite requests_app requests_nil : blog_run.
