(* ===== verification/Dom.v ===== *)
(** * Dom: what a component renders

    The render functions of the components ([PostCard.view],
    [PostDetail.page_dom], [CreatePost.view], [SearchBar.view], and
    [home_dom] of [Links.v]) return a [node]: the elements of the JSX whose presence, text or
    target depends on the state, props or session.  Styling, icons that
    carry no state and static wrappers are left out.  [links] collects
    the targets of every [<Link to>] and [navigate(...)] button, which
    [Links.v] follows through the routes of [App.jsx]. *)

From S2P Require Import Prelude.

Inductive node :=
| Text (s : string)
| DateText (iso : string)          (** a date the browser formats *)
| Img (src alt : string)
| Icon (name : string)
| Link (to : string) (kids : list node)
| Button (action : string) (enabled : bool) (kids : list node)
| NavButton (to : string) (kids : list node)   (** [onClick={() => navigate(to)}] *)
| Field (name value : string)      (** a controlled input or textarea *)
| Group (kids : list node).

(** The targets of the links and of the navigating buttons. *)
Fixpoint links (n : node) : list string :=
  match n with
  | Link to kids => to :: List.flat_map links kids
  | NavButton to kids => to :: List.flat_map links kids
  | Button _ _ kids | Group kids => List.flat_map links kids
  | _ => []
  end.

(** The handlers a user can trigger: the enabled buttons. *)
Fixpoint actions (n : node) : list string :=
  match n with
  | Button a true kids => a :: List.flat_map actions kids
  | Button _ false kids | Link _ kids | NavButton _ kids | Group kids => List.flat_map actions kids
  | _ => []
  end.

(** The texts shown. *)
Fixpoint texts (n : node) : list string :=
  match n with
  | Text s => [s]
  | Link _ kids | Button _ _ kids | NavButton _ kids | Group kids => List.flat_map texts kids
  | _ => []
  end.

(** [cond && <x/>] and [cond ? <x/> : <y/>] in a list of children. *)
Definition when (b : bool) (l : list node) : list node := if b then l else [].

(** The avatar of a user: [profile_picture ? <img .../> : <User/>]. *)
Definition avatar (pic : option string) (alt : string) : node :=
  match pic with
  | Some p => if truthy p then Img ("http://127.0.0.1:8000" ^^ p) alt else Icon "User"
  | None => Icon "User"
  end.

Lemma links_avatar pic alt : links (avatar pic alt) = [].
Proof. unfold avatar. destruct pic as [p|]; [destruct (truthy p)|]; reflexivity. Qed.


