(* ===== verification/QueryString.v ===== *)
(** * QueryString: the URL that [fetchPosts] requests

    [Home.jsx] builds the feed URL as
    [`/posts/?${new URLSearchParams({...params, ...(searchQuery && {search:
    searchQuery}), ...filters})}`].  This file models the three pieces:
    a plain JavaScript object with string values as the list of its own
    properties in insertion order ([Obj]), the object spread [{...a,
    ...b}] ([spread]), and the [application/x-www-form-urlencoded]
    serializer that [URLSearchParams.toString] runs ([serialize]).  A
    Rocq [string] is read as the UTF-8 bytes of the JavaScript string.
    The URL standard's urlencoded parser ([parse]), which the server runs
    on the query after the first [?] ([query_of]), is the reference
    inverse ([parse_serialize]).  [feed_request_params] says what the
    server reads from the request of the home page: the search text, when
    non-empty, then the author and the ordering, each exactly as typed
    even when it contains [&], [=], [+], [%] or [?], in a query that is
    well-formed ([well_formed]: [%] followed by two hex digits, every
    other byte URL-safe).  [feed_query_lookup] gives the value of each
    key for any [params] and filters. *)

From S2P Require Import Prelude.

(** ** Objects and object spread *)

(** A plain object with string-valued properties, in property order.
    (Keys that are array indices would be ordered first by JavaScript;
    the keys of this program, [search], [author], [ordering], are not.) *)
Definition Obj := list (string * string).

Fixpoint obj_get (o : Obj) (k : string) : option string :=
  match o with
  | [] => None
  | (k', v) :: r => if String.eqb k' k then Some v else obj_get r k
  end.

(** [o[k] = v]: overwrite in place when [k] is present, else append. *)
Fixpoint obj_set (o : Obj) (k v : string) : Obj :=
  match o with
  | [] => [(k, v)]
  | (k', v') :: r => if String.eqb k' k then (k', v) :: r else (k', v') :: obj_set r k v
  end.

(** [{...a, ...b}]: the properties of [b], in order, assigned onto a copy
    of [a]. *)
Definition spread (a b : Obj) : Obj :=
  fold_left (fun acc kv => obj_set acc kv.1 kv.2) b a.

Definition keys (o : Obj) : list string := fst <$> o.

(** A JavaScript object never has two properties with the same key. *)
Definition wf_obj (o : Obj) : Prop := NoDup (keys o).

(** ** The urlencoded serializer *)

(** Bytes left as they are: ASCII alphanumerics and [*-._]. *)
Definition unreserved (c : ascii) : bool :=
  let n := nat_of_ascii c in
  ((48 <=? n) && (n <=? 57)) || ((65 <=? n) && (n <=? 90)) ||
  ((97 <=? n) && (n <=? 122)) ||
  (n =? 42) || (n =? 45) || (n =? 46) || (n =? 95).

(** Upper-case hexadecimal digit of [d < 16]. *)
Definition hex_digit (d : nat) : ascii :=
  if d <? 10 then ascii_of_nat (48 + d) else ascii_of_nat (55 + d).

Definition encode_byte (c : ascii) : string :=
  if Ascii.eqb c " " then "+"
  else if unreserved c then String c EmptyString
  else String "%" (String (hex_digit (nat_of_ascii c / 16))
                     (String (hex_digit (nat_of_ascii c mod 16)) EmptyString)).

Fixpoint encode (s : string) : string :=
  match s with
  | EmptyString => EmptyString
  | String c r => encode_byte c ^^ encode r
  end.

Definition encode_pair (kv : string * string) : string :=
  encode kv.1 ^^ "=" ^^ encode kv.2.

(** [name=value] pairs joined by [&]. *)
Fixpoint serialize (o : Obj) : string :=
  match o with
  | [] => EmptyString
  | [kv] => encode_pair kv
  | kv :: r => encode_pair kv ^^ "&" ^^ serialize r
  end.

(** ** The urlencoded parser of the URL standard *)

Definition hex_val (c : ascii) : option nat :=
  let n := nat_of_ascii c in
  if (48 <=? n) && (n <=? 57) then Some (n - 48)
  else if (65 <=? n) && (n <=? 70) then Some (n - 55)
  else if (97 <=? n) && (n <=? 102) then Some (n - 87)
  else None.

(** Percent-decoding: [%XY] with two hex digits is the byte [0xXY]; any
    other byte, [%] included, is kept. *)
Fixpoint pdecode (s : string) : string :=
  match s with
  | EmptyString => EmptyString
  | String c r =>
      if Ascii.eqb c "%" then
        match r with
        | String h1 (String h2 r') =>
            match hex_val h1, hex_val h2 with
            | Some a, Some b => String (ascii_of_nat (16 * a + b)) (pdecode r')
            | _, _ => String c (pdecode r)
            end
        | _ => String c (pdecode r)
        end
      else String c (pdecode r)
  end.

Fixpoint plus_to_space (s : string) : string :=
  match s with
  | EmptyString => EmptyString
  | String c r => String (if Ascii.eqb c "+" then " "%char else c) (plus_to_space r)
  end.

Definition decode (s : string) : string := pdecode (plus_to_space s).

(** [s] cut at every occurrence of [sep]. *)
Fixpoint split_on (sep : ascii) (s : string) : list string :=
  match s with
  | EmptyString => [EmptyString]
  | String c r =>
      if Ascii.eqb c sep then EmptyString :: split_on sep r
      else match split_on sep r with
           | [] => [String c EmptyString]
           | w :: ws => String c w :: ws
           end
  end.

(** [name] before the first [=], [value] after it ([""] without [=]). *)
Definition parse_pair (w : string) : string * string :=
  match split_on "=" w with
  | [] => (EmptyString, EmptyString)
  | [n] => (decode n, EmptyString)
  | n :: rest => (decode n, decode (String.concat "=" rest))
  end.

Definition parse (q : string) : Obj :=
  parse_pair <$> List.filter truthy (split_on "&" q).

(** ** The query object of [fetchPosts] *)

(** [searchQuery && {search: searchQuery}]: spreading [""] adds nothing. *)
Definition search_part (searchQuery : string) : Obj :=
  if truthy searchQuery then [("search", searchQuery)] else [].

(** [{...params, ...(searchQuery && {search: searchQuery}), ...filters}]. *)
Definition feed_query (params : Obj) (searchQuery : string) (filters : Obj) : Obj :=
  spread (spread (spread [] params) (search_part searchQuery)) filters.

(** [`/posts/?${queryParams}`]. *)
Definition feed_url (params : Obj) (searchQuery : string) (filters : Obj) : string :=
  "/posts/?" ^^ serialize (feed_query params searchQuery filters).

(** ** Lemmas on bytes *)

Lemma hex_val_digit d : d < 16 -> hex_val (hex_digit d) = Some d.
Proof. intros Hd. do 16 (destruct d as [|d]; [reflexivity|]). lia. Qed.

Lemma ascii_hex_split c :
  ascii_of_nat (16 * (nat_of_ascii c / 16) + nat_of_ascii c mod 16) = c.
Proof.
  rewrite <- (Nat.div_mod_eq (nat_of_ascii c) 16). apply ascii_nat_embedding.
Qed.

(** The bytes [encode] never leaves in clear: [+], [%], [&], [=]. *)
Definition reserved_out (c : ascii) : bool :=
  Ascii.eqb c "+" || Ascii.eqb c "%" || Ascii.eqb c "&" || Ascii.eqb c "=".

Lemma unreserved_not_reserved c : unreserved c = true -> reserved_out c = false.
Proof.
  unfold unreserved, reserved_out. intros H.
  destruct (Ascii.eqb_spec c "+"), (Ascii.eqb_spec c "%"),
           (Ascii.eqb_spec c "&"), (Ascii.eqb_spec c "="); subst; done.
Qed.

Lemma hex_digit_not_reserved d : d < 16 -> reserved_out (hex_digit d) = false.
Proof. intros Hd. do 16 (destruct d as [|d]; [reflexivity|]). lia. Qed.

Lemma div16_lt c : nat_of_ascii c / 16 < 16.
Proof. pose proof (nat_ascii_bounded c). apply Nat.Div0.div_lt_upper_bound. lia. Qed.

Lemma mod16_lt c : nat_of_ascii c mod 16 < 16.
Proof. apply Nat.mod_upper_bound. lia. Qed.

#[export] Hint Resolve div16_lt mod16_lt : blog.

(** ** Lemmas on strings *)

Lemma plus_to_space_app a b : plus_to_space (a ^^ b) = plus_to_space a ^^ plus_to_space b.
Proof. induction a; str_simpl; congruence. Qed.


(** A string none of whose bytes is [sep]. *)
Fixpoint avoids (sep : ascii) (s : string) : bool :=
  match s with
  | EmptyString => true
  | String c r => negb (Ascii.eqb c sep) && avoids sep r
  end.

Lemma avoids_app sep a b : avoids sep (a ^^ b) = avoids sep a && avoids sep b.
Proof. induction a; simpl; [done|]. rewrite IHa. by destruct (negb _). Qed.

Lemma split_on_avoids sep s : avoids sep s = true -> split_on sep s = [s].
Proof.
  induction s as [|c r IH]; simpl; [done|].
  intros [Hc Hr]%andb_prop. apply negb_true_iff in Hc. rewrite Hc, IH by done. done.
Qed.

Lemma split_on_cut sep a b :
  avoids sep a = true -> split_on sep (a ^^ String sep b) = a :: split_on sep b.
Proof.
  induction a as [|c r IH]; simpl.
  - by rewrite Ascii.eqb_refl.
  - intros [Hc Hr]%andb_prop. apply negb_true_iff in Hc. rewrite Hc, IH by done. done.
Qed.

(** ** Every byte survives encoding and decoding *)

Lemma pdecode_clear c r :
  Ascii.eqb c "%" = false -> pdecode (String c r) = String c (pdecode r).
Proof. intros H. simpl. by rewrite H. Qed.

Lemma decode_encode_byte c r :
  pdecode (plus_to_space (encode_byte c ^^ r)) = String c (pdecode (plus_to_space r)).
Proof.
  unfold encode_byte. destruct (Ascii.eqb_spec c " ") as [->|Hsp]; [reflexivity|].
  destruct (unreserved c) eqn:Hu.
  - pose proof (unreserved_not_reserved c Hu) as Hr. unfold reserved_out in Hr.
    apply orb_false_elim in Hr as [Hr _]. apply orb_false_elim in Hr as [Hr _].
    apply orb_false_elim in Hr as [Hplus Hpct].
    simpl. rewrite Hplus. by apply pdecode_clear.
  - pose proof (hex_digit_not_reserved _ (div16_lt c)) as H1.
    pose proof (hex_digit_not_reserved _ (mod16_lt c)) as H2.
    unfold reserved_out in H1, H2.
    apply orb_false_elim in H1 as [H1 _]. apply orb_false_elim in H1 as [H1 _].
    apply orb_false_elim in H1 as [H1p _].
    apply orb_false_elim in H2 as [H2 _]. apply orb_false_elim in H2 as [H2 _].
    apply orb_false_elim in H2 as [H2p _].
    rewrite !str_app_cons, str_app_nil. cbn [plus_to_space]. rewrite H1p, H2p.
    change (Ascii.eqb "%" "+") with false. cbn [pdecode].
    change (Ascii.eqb "%" "%") with true. cbn iota.
    rewrite !hex_val_digit by auto with blog. by rewrite ascii_hex_split.
Qed.

Lemma decode_encode_app s r :
  pdecode (plus_to_space (encode s ^^ r)) = s ^^ pdecode (plus_to_space r).
Proof.
  induction s as [|c s IH]; [reflexivity|].
  simpl encode. rewrite str_app_cons, str_app_assoc, decode_encode_byte, IH. reflexivity.
Qed.

Lemma decode_encode s : decode (encode s) = s.
Proof.
  unfold decode. pose proof (decode_encode_app s EmptyString) as H.
  rewrite !str_app_nil_r in H. by rewrite H.
Qed.

(** Encoded text contains neither [&] nor [=]. *)
Lemma reserved_out_false c :
  reserved_out c = false ->
  Ascii.eqb c "+" = false /\ Ascii.eqb c "%" = false /\
  Ascii.eqb c "&" = false /\ Ascii.eqb c "=" = false.
Proof. unfold reserved_out. by intros [[[-> ->]%orb_false_elim ->]%orb_false_elim ->]%orb_false_elim. Qed.

Lemma encode_byte_avoids c sep :
  sep = "&"%char \/ sep = "="%char -> avoids sep (encode_byte c) = true.
Proof.
  intros Hs. unfold encode_byte.
  destruct (Ascii.eqb_spec c " "); [by destruct Hs as [->| ->]|].
  destruct (unreserved c) eqn:Hu.
  - destruct (reserved_out_false c (unreserved_not_reserved c Hu)) as (_ & _ & H1 & H2).
    by destruct Hs as [->| ->]; cbn [avoids]; rewrite ?H1, ?H2.
  - destruct (reserved_out_false _ (hex_digit_not_reserved _ (div16_lt c)))
      as (_ & _ & H1 & H2).
    destruct (reserved_out_false _ (hex_digit_not_reserved _ (mod16_lt c)))
      as (_ & _ & H3 & H4).
    by destruct Hs as [->| ->]; cbn [avoids]; rewrite ?H1, ?H2, ?H3, ?H4.
Qed.

Lemma encode_avoids s sep :
  sep = "&"%char \/ sep = "="%char -> avoids sep (encode s) = true.
Proof.
  intros Hs. induction s as [|c s IH]; [done|].
  cbn [encode]. by rewrite avoids_app, encode_byte_avoids, IH.
Qed.

(** ** Round trip: the server parses back the object that was serialized *)

Lemma encode_pair_split kv :
  split_on "=" (encode_pair kv) = [encode kv.1; encode kv.2].
Proof.
  unfold encode_pair. rewrite str_app_cons, str_app_nil.
  rewrite split_on_cut by (apply encode_avoids; auto).
  rewrite split_on_avoids by (apply encode_avoids; auto). done.
Qed.

Lemma encode_pair_avoids_amp kv : avoids "&" (encode_pair kv) = true.
Proof.
  unfold encode_pair. rewrite !avoids_app, !encode_avoids by auto. done.
Qed.

Lemma encode_pair_truthy kv : truthy (encode_pair kv) = true.
Proof.
  apply truthy_true. unfold encode_pair. intros H.
  rewrite str_app_cons, str_app_nil in H.
  destruct (encode kv.1); rewrite ?str_app_nil, ?str_app_cons in H; discriminate.
Qed.

Lemma parse_pair_encode kv : parse_pair (encode_pair kv) = kv.
Proof.
  unfold parse_pair. rewrite encode_pair_split. simpl.
  rewrite !decode_encode. by destruct kv.
Qed.

Lemma serialize_cons2 kv kv' o :
  serialize (kv :: kv' :: o) = encode_pair kv ^^ "&" ^^ serialize (kv' :: o).
Proof. reflexivity. Qed.

Lemma split_serialize o :
  o <> [] -> split_on "&" (serialize o) = encode_pair <$> o.
Proof.
  induction o as [|kv [|kv' o] IH]; intros Hne; [done| |].
  - apply split_on_avoids, encode_pair_avoids_amp.
  - rewrite serialize_cons2, str_app_cons, str_app_nil.
    rewrite split_on_cut by apply encode_pair_avoids_amp.
    rewrite IH by done. done.
Qed.

(** Serializing an object and parsing the query string back gives the
    same properties in the same order. *)
Lemma parse_serialize (o : Obj) : parse (serialize o) = o.
Proof.
  destruct o as [|kv o]; [done|].
  unfold parse. rewrite split_serialize by done.
  rewrite filter_all_true.
  - rewrite <- list_fmap_compose.
    rewrite (list_fmap_ext _ id); [by rewrite list_fmap_id|].
    intros _ x _. apply parse_pair_encode.
  - apply Forall_fmap, Forall_forall. intros x _. apply encode_pair_truthy.
Qed.

(** ** Object spread *)

Lemma obj_get_set o k v k' :
  obj_get (obj_set o k v) k' = if String.eqb k k' then Some v else obj_get o k'.
Proof.
  induction o as [|[k0 v0] o IH]; simpl.
  - by destruct (String.eqb k k').
  - destruct (String.eqb_spec k0 k) as [->|Hne]; simpl.
    + by destruct (String.eqb k k').
    + rewrite IH. destruct (String.eqb_spec k k') as [E|E]; [subst k'|done].
      by destruct (String.eqb_spec k0 k).
Qed.

Lemma elem_keys_obj_set o k v x : x ∈ keys (obj_set o k v) <-> x = k \/ x ∈ keys o.
Proof.
  unfold keys. induction o as [|[k0 v0] o IH]; simpl.
  - set_solver.
  - destruct (String.eqb_spec k0 k) as [->|]; simpl; set_solver.
Qed.

Lemma obj_get_not_in o k : k ∉ keys o -> obj_get o k = None.
Proof.
  unfold keys. induction o as [|[k0 v0] o IH]; simpl; [done|].
  intros Hk. destruct (String.eqb_spec k0 k); set_solver.
Qed.

Lemma wf_obj_set o k v : wf_obj o -> wf_obj (obj_set o k v).
Proof.
  unfold wf_obj. induction o as [|[k0 v0] o IH]; simpl.
  - intros _. constructor; [set_solver | constructor].
  - intros [Hk Hnd]%NoDup_cons. destruct (String.eqb_spec k0 k) as [->|Hne].
    + by constructor.
    + constructor; [|by apply IH]. rewrite elem_keys_obj_set. naive_solver.
Qed.

Lemma spread_cons a kv b : spread a (kv :: b) = spread (obj_set a kv.1 kv.2) b.
Proof. reflexivity. Qed.

Lemma wf_spread a b : wf_obj a -> wf_obj (spread a b).
Proof.
  revert a. induction b as [|kv b IH]; intros a Ha; [done|].
  rewrite spread_cons. by apply IH, wf_obj_set.
Qed.

#[export] Hint Resolve wf_obj_set wf_spread : blog.

(** A later spread overrides an earlier one; keys absent from it keep
    their earlier value. *)
Lemma obj_get_spread a b k :
  wf_obj b ->
  obj_get (spread a b) k = match obj_get b k with Some v => Some v | None => obj_get a k end.
Proof.
  unfold wf_obj. revert a. induction b as [|[k0 v0] b IH]; intros a Hb; [done|].
  apply NoDup_cons in Hb as [Hk0 Hb]. rewrite spread_cons, IH by done. simpl.
  rewrite obj_get_set. destruct (String.eqb_spec k0 k) as [->|]; [|done].
  by rewrite obj_get_not_in.
Qed.

(** C16: the parameters the server reads from the URL of [fetchPosts]: a
    filter property wins, then [search] when the search text is
    non-empty, then the caller's [params]. *)
Theorem feed_query_lookup params searchQuery filters k :
  wf_obj params -> wf_obj filters ->
  obj_get (parse (serialize (feed_query params searchQuery filters))) k =
  match obj_get filters k with
  | Some v => Some v
  | None =>
      if String.eqb "search" k && truthy searchQuery then Some searchQuery
      else obj_get params k
  end.
Proof.
  intros Hp Hf. rewrite parse_serialize. unfold feed_query.
  rewrite obj_get_spread by done. destruct (obj_get filters k); [done|].
  unfold search_part. destruct (truthy searchQuery).
  - rewrite obj_get_spread by (unfold wf_obj; repeat constructor; set_solver).
    cbn [obj_get]. rewrite andb_true_r. destruct (String.eqb "search" k); [done|].
    rewrite obj_get_spread by done. by destruct (obj_get params k).
  - rewrite andb_false_r. cbn [spread fold_left]. rewrite obj_get_spread by done.
    by destruct (obj_get params k).
Qed.

(** ** The URL of [fetchPosts] is well formed *)

(** The bytes a query may carry in clear besides escapes: unreserved
    bytes, [+], [=], [&], and the [/] and [?] of the path. *)
Definition url_char (c : ascii) : bool :=
  unreserved c || Ascii.eqb c "+" || Ascii.eqb c "=" || Ascii.eqb c "&" ||
  Ascii.eqb c "/" || Ascii.eqb c "?".

Definition is_hex (c : ascii) : bool := match hex_val c with Some _ => true | None => false end.

(** Every [%] starts an escape with two hexadecimal digits, and every
    other byte may stand in clear. *)
Fixpoint well_formed (s : string) : bool :=
  match s with
  | EmptyString => true
  | String c r =>
      if Ascii.eqb c "%" then
        match r with
        | String h1 (String h2 r') => is_hex h1 && is_hex h2 && well_formed r'
        | _ => false
        end
      else url_char c && well_formed r
  end.

Lemma hex_digit_is_hex d : d < 16 -> is_hex (hex_digit d) = true.
Proof. intros Hd. unfold is_hex. by rewrite hex_val_digit. Qed.

Lemma unreserved_url_char c : unreserved c = true -> url_char c = true /\ Ascii.eqb c "%" = false.
Proof.
  intros Hu. pose proof (unreserved_not_reserved c Hu) as Hr. unfold reserved_out in Hr.
  unfold url_char. rewrite Hu. split; [done|].
  by apply orb_false_elim in Hr as [[[_ ->]%orb_false_elim _]%orb_false_elim _].
Qed.

Lemma well_formed_encode_byte c b :
  well_formed (encode_byte c ^^ b) = well_formed b.
Proof.
  unfold encode_byte. destruct (Ascii.eqb_spec c " ") as [->|Hsp]; [reflexivity|].
  destruct (unreserved c) eqn:Hu.
  - destruct (unreserved_url_char c Hu) as [Hc Hp]. simpl. by rewrite Hp, Hc.
  - rewrite !str_app_cons, str_app_nil. cbn [well_formed].
    change (Ascii.eqb "%" "%") with true. cbn iota.
    by rewrite !hex_digit_is_hex by auto with blog.
Qed.

Lemma well_formed_encode s b : well_formed (encode s ^^ b) = well_formed b.
Proof.
  induction s as [|c s IH]; [reflexivity|].
  simpl encode. by rewrite str_app_assoc, well_formed_encode_byte, IH.
Qed.

Lemma well_formed_serialize o : well_formed (serialize o) = true.
Proof.
  induction o as [|kv [|kv' o] IH]; [done| |].
  - unfold serialize, encode_pair. rewrite well_formed_encode, str_app_cons, str_app_nil.
    simpl. rewrite <- (str_app_nil_r (encode kv.2)), well_formed_encode. done.
  - change (serialize (kv :: kv' :: o)) with (encode_pair kv ^^ "&" ^^ serialize (kv' :: o)).
    unfold encode_pair. rewrite !str_app_assoc, well_formed_encode, str_app_cons, str_app_nil.
    simpl. rewrite well_formed_encode, str_app_cons, str_app_nil. simpl. exact IH.
Qed.

(** The query the server reads from a URL: what follows its first [?]. *)
Fixpoint query_of (url : string) : string :=
  match url with
  | EmptyString => EmptyString
  | String c r => if Ascii.eqb c "?" then r else query_of r
  end.

Lemma query_of_feed_url params searchQuery filters :
  query_of (feed_url params searchQuery filters) = serialize (feed_query params searchQuery filters).
Proof. reflexivity. Qed.

(** C7: the request [fetchPosts()] of the home page sends (it passes no
    [params]; the search bar's filters are [author] and [ordering]) has a
    well-formed query, from which the server reads the search text when
    it is non-empty, then the author and the ordering, in that order and
    each exactly as typed, whatever characters it contains. *)
Theorem feed_request_params q a o :
  well_formed (query_of (feed_url [] q [("author", a); ("ordering", o)])) = true /\
  parse (query_of (feed_url [] q [("author", a); ("ordering", o)])) =
  (if truthy q then [("search", q)] else []) ++ [("author", a); ("ordering", o)].
Proof.
  rewrite query_of_feed_url. split; [apply well_formed_serialize|].
  rewrite parse_serialize. unfold feed_query, search_part. by destruct (truthy q).
Qed.

Lemma feed_query_lookup_witness :
  wf_obj [("page", "2")] /\ wf_obj [("author", "ann"); ("ordering", "-created_at")] /\
  obj_get (parse (serialize (feed_query [("page", "2")] "a b"
                               [("author", "ann"); ("ordering", "-created_at")]))) "search" =
  Some "a b".
Proof.
  split; [unfold wf_obj; vm_compute; repeat constructor; set_solver|].
  split; [unfold wf_obj; vm_compute; repeat constructor; set_solver|].
  rewrite (feed_query_lookup [("page", "2")] "a b" [("author", "ann"); ("ordering", "-created_at")]);
    [reflexivity| |]; unfold wf_obj; vm_compute; repeat constructor; set_solver.
Defined.
