(* ===== verification/Feed.v ===== *)
(** * Feed: the state and handlers of [pages/Home.jsx]

    [Module Home] holds the component's React state as a record and each
    handler of the file as a [Handler] (the state-and-log monad of the
    prelude), cut at its [await]: [fetchPosts_start]/[fetchPosts_finish],
    [loadMore_start]/[loadMore_finish], and the synchronous
    [handleSearch], [handleFilter], [handlePostDelete].  The effect
    [useEffect(() => fetchPosts(), [searchQuery, filters])] is
    [deps]/[deps_changed]; the render guard of the spinner is [spinner].
    The concurrent composition of these pieces with the search bar and
    the cards is [FeedMachine.v].

    [filters] is a JavaScript object compared by identity ([Object.is])
    both by React's state bail-out and by the effect's dependency list,
    so it is a [JSObj]: an allocation number and its properties. *)

From S2P Require Import Prelude Api QueryString.

(** A JavaScript object with an identity. *)
Record JSObj := mkJSObj { obj_ref : nat; obj_props : Obj }.

(** The [pagination] state: [next], [previous], [count]. *)
Record Pagination := mkPagination {
  pg_next : option string;
  pg_previous : option string;
  pg_count : nat
}.

(** [{ next: response.data.next, previous: ..., count: ... }]. *)
Definition pagination_of (d : Page) : Pagination :=
  mkPagination (page_next d) (page_previous d) (page_count d).

(** [post => post.id !== postId]. *)
Definition keep_other (postId : nat) (p : Post) : bool := negb (post_id p =? postId).

Module Home.

Record state := mkState {
  posts : list Post;
  loading : bool;
  searchQuery : string;
  filters : JSObj;
  pagination : Pagination
}.

Definition set_posts (v : list Post) (s : state) : state :=
  mkState v (loading s) (searchQuery s) (filters s) (pagination s).
Definition set_loading (v : bool) (s : state) : state :=
  mkState (posts s) v (searchQuery s) (filters s) (pagination s).
Definition set_searchQuery (v : string) (s : state) : state :=
  mkState (posts s) (loading s) v (filters s) (pagination s).
Definition set_filters (v : JSObj) (s : state) : state :=
  mkState (posts s) (loading s) (searchQuery s) v (pagination s).
Definition set_pagination (v : Pagination) (s : state) : state :=
  mkState (posts s) (loading s) (searchQuery s) (filters s) v.

(** The state of a freshly mounted [Home]; [filters0] is the [{}]
    allocated by [useState({})]. *)
Definition initial (filters0 : JSObj) : state :=
  mkState [] true "" filters0 (mkPagination None None 0).

(** [fetchPosts(params)] up to its [await]: [setLoading(true)], then the
    request built from the [searchQuery] and [filters] of the render
    whose effect called it.  Returns the requested URL. *)
Definition fetchPosts_start (params : Obj) : Handler state string :=
  modify (set_loading true) ;;
  s <- get ;;
  let url := feed_url params (searchQuery s) (obj_props (filters s)) in
  emit (Request GET url []) ;;
  ret url.

(** The rest of [fetchPosts]: on success [setPosts(results)] and
    [setPagination(...)], on failure a toast; [setLoading(false)] in
    [finally]. *)
Definition fetchPosts_finish (r : outcome Page) : Handler state unit :=
  match r with
  | Resolved d =>
      modify (set_posts (results d)) ;;
      modify (set_pagination (pagination_of d))
  | Rejected _ => emit (Toast ToastError "Failed to fetch posts")
  end ;;
  modify (set_loading false).

(** [loadMore] up to its [await]: nothing when [pagination.next] is
    falsy, else a request for that URL, which is returned. *)
Definition loadMore_start : Handler state (option string) :=
  s <- get ;;
  match pg_next (pagination s) with
  | Some u => if truthy u then emit (Request GET u []) ;; ret (Some u) else ret None
  | None => ret None
  end.

(** The rest of [loadMore]: [setPosts(prev => [...prev, ...results])]
    and [setPagination(...)], or a toast. *)
Definition loadMore_finish (r : outcome Page) : Handler state unit :=
  match r with
  | Resolved d =>
      modify (fun s => set_posts (posts s ++ results d) s) ;;
      modify (set_pagination (pagination_of d))
  | Rejected _ => emit (Toast ToastError "Failed to load more posts")
  end.

(** [handlePostDelete(postId)]: [setPosts(posts.filter(...))], where
    [posts] is the array of the render whose closure is called
    ([snapshot]), not necessarily the current state. *)
Definition handlePostDelete (snapshot : list Post) (postId : nat) : Handler state unit :=
  modify (set_posts (List.filter (keep_other postId) snapshot)).

Definition handleSearch (query : string) : Handler state unit :=
  modify (set_searchQuery query).

Definition handleFilter (newFilters : JSObj) : Handler state unit :=
  modify (set_filters newFilters).

(** The dependency list [[searchQuery, filters]] of the fetch effect,
    compared with [Object.is]: strings by value, objects by identity. *)
Definition deps (s : state) : string * nat := (searchQuery s, obj_ref (filters s)).

Definition deps_changed (before after : state) : bool :=
  let '(q1, r1) := deps before in
  let '(q2, r2) := deps after in
  negb (String.eqb q1 q2 && (r1 =? r2)).

(** [if (loading && posts.length === 0) return <spinner/>]: the search
    bar and the cards are not rendered. *)
Definition spinner (s : state) : bool := loading s && (length (posts s) =? 0).

(** The "Load More" button is rendered: the feed branch, a non-empty
    list, and a truthy [pagination.next]. *)
Definition load_more_visible (s : state) : bool :=
  negb (spinner s) && negb (length (posts s) =? 0) && truthy_opt (pg_next (pagination s)).

(** ** Functional behaviour of the handlers *)

(** [fetchPosts] sets [loading], keeps the rest of the state, and
    issues exactly one request, for the URL built from the current
    search text and filters. *)
Theorem fetchPosts_start_spec params s :
  fetchPosts_start params s =
  Out (feed_url params (searchQuery s) (obj_props (filters s)))
      (set_loading true s)
      [Request GET (feed_url params (searchQuery s) (obj_props (filters s))) []].
Proof. reflexivity. Qed.

(** a successful fetch replaces the list and the cursor together and
    clears [loading]; the query is untouched and nothing else happens. *)
Theorem fetchPosts_finish_ok d s :
  fetchPosts_finish (Resolved d) s =
  Out tt (mkState (results d) false (searchQuery s) (filters s) (pagination_of d)) [].
Proof. reflexivity. Qed.

(** a failed fetch leaves the list and the cursor as they were,
    clears [loading] and shows one error toast. *)
Theorem fetchPosts_finish_error e s :
  fetchPosts_finish (Rejected e) s =
  Out tt (set_loading false s) [Toast ToastError "Failed to fetch posts"].
Proof. reflexivity. Qed.

(** [loadMore] with a falsy [pagination.next] ([null] or [""]) does
    nothing: no request, no state change. *)
Theorem loadMore_start_noop s :
  truthy_opt (pg_next (pagination s)) = false -> loadMore_start s = Out None s [].
Proof.
  unfold loadMore_start, bind, get; simpl.
  destruct (pg_next (pagination s)) as [u|]; simpl; [|done].
  intros ->. reflexivity.
Qed.

(** [loadMore] with a truthy cursor requests exactly that URL and
    changes no state. *)
Theorem loadMore_start_request s u :
  pg_next (pagination s) = Some u -> truthy u = true ->
  loadMore_start s = Out (Some u) s [Request GET u []].
Proof. intros Hn Ht. unfold loadMore_start, bind, get; simpl. by rewrite Hn, Ht. Qed.

(** a successful [loadMore] appends the page after the current list,
    in arrival order, and replaces the cursor; no de-duplication. *)
Theorem loadMore_finish_ok d s :
  loadMore_finish (Resolved d) s =
  Out tt (mkState (posts s ++ results d) (loading s) (searchQuery s) (filters s)
                  (pagination_of d)) [].
Proof. reflexivity. Qed.

(** A failed [loadMore] changes no state and shows one toast. *)
Lemma loadMore_finish_error e s :
  loadMore_finish (Rejected e) s = Out tt s [Toast ToastError "Failed to load more posts"].
Proof. reflexivity. Qed.

End Home.

(** ** Removing a post by id *)

Lemma filter_keep_other_notin (l : list Post) postId :
  postId ∉ (post_id <$> l) -> List.filter (keep_other postId) l = l.
Proof.
  intros Hn. apply filter_all_true, Forall_forall. intros p Hp.
  unfold keep_other. destruct (Nat.eqb_spec (post_id p) postId) as [<-|]; [|done].
  exfalso. apply Hn. by apply list_elem_of_fmap_2.
Qed.

(** With distinct ids, filtering out [post_id p] where [p] is at index
    [i] is removing index [i]. *)
Lemma filter_keep_other_delete (l : list Post) i p :
  NoDup (post_id <$> l) -> l !! i = Some p ->
  List.filter (keep_other (post_id p)) l = take i l ++ drop (S i) l.
Proof.
  revert i. induction l as [|q l IH]; intros i Hnd Hi; [done|].
  rewrite fmap_cons in Hnd. apply NoDup_cons in Hnd as [Hq Hnd].
  destruct i as [|i]; simpl in Hi |- *.
  - injection Hi as ->. unfold keep_other at 1. rewrite Nat.eqb_refl. simpl.
    by apply filter_keep_other_notin.
  - unfold keep_other at 1.
    destruct (Nat.eqb_spec (post_id q) (post_id p)) as [E|]; simpl.
    + exfalso. apply Hq. rewrite E. apply list_elem_of_fmap_2.
      by eapply list_elem_of_lookup_2 with i.
    + by rewrite (IH i Hnd Hi).
Qed.

Section Delete.
Import Home.

(** C30: on a list with distinct ids, [handlePostDelete] applied to the
    current list removes exactly the entry with that id and keeps every
    other entry in its order. *)
Theorem handlePostDelete_removes_one s i p :
  NoDup (post_id <$> posts s) -> posts s !! i = Some p ->
  posts (exec (handlePostDelete (posts s) (post_id p)) s) =
  take i (posts s) ++ drop (S i) (posts s).
Proof. intros Hnd Hi. by apply filter_keep_other_delete. Qed.

(** Deleting an id that is not in the list changes nothing, so a second
    delete of the same id is a no-op. *)
Lemma handlePostDelete_idem snapshot postId s :
  let s1 := exec (handlePostDelete snapshot postId) s in
  exec (handlePostDelete (posts s1) postId) s1 = s1.
Proof.
  simpl. unfold exec, handlePostDelete, modify, set_posts; simpl.
  by rewrite filter_idem.
Qed.
Lemma handlePostDelete_removes_one_witness :
  let s := Home.initial (mkJSObj 0 []) in
  let p n := mkPost n "t" "c" None (mkUserSummary 1 "u" None) "2024-01-01" 0 false 0 in
  let s1 := Home.set_posts [p 1; p 2; p 3] s in
  NoDup (post_id <$> Home.posts s1) /\ Home.posts s1 !! 1 = Some (p 2) /\
  Home.posts (exec (handlePostDelete (Home.posts s1) (post_id (p 2))) s1) = [p 1; p 3].
Proof.
  intros s p s1. assert (Hnd : NoDup (post_id <$> Home.posts s1)).
  { cbn. repeat constructor; set_solver. }
  split; [exact Hnd|split; [reflexivity|]].
  rewrite (handlePostDelete_removes_one s1 1 (p 2) Hnd); reflexivity.
Defined.
End Delete.
