(* ===== verification/PostCard.v ===== *)
(** * PostCard: one post of the feed ([components/PostCard.jsx])

    The card keeps its own [isLiked], [likesCount] and [loading], read
    from the [post] prop once, when it mounts.  [handleLike] is cut at its
    [await] into [handleLike_start] and [handleLike_finish]; the button is
    [disabled={loading}], which [click_enabled] states.  [handleDelete]
    asks [window.confirm] (an input here), sends the [DELETE], and on
    success calls the parent's [onPostDelete] callback: the callback is a
    handler over the parent's state, so the card's continuation is
    generic in that state and [FeedMachine.v] instantiates it with Home's
    [handlePostDelete].

    [Section LikeMachine] composes the two halves of [handleLike] with the
    disabled button into a small machine over click and reply events and
    proves that it never has two like requests in flight. *)

From S2P Require Import Prelude Api Dom.

Module PostCard.

Record state := mkState { isLiked : bool; likesCount : nat; loading : bool }.

Definition set_isLiked (v : bool) (s : state) : state := mkState v (likesCount s) (loading s).
Definition set_likesCount (v : nat) (s : state) : state := mkState (isLiked s) v (loading s).
Definition set_loading (v : bool) (s : state) : state := mkState (isLiked s) (likesCount s) v.

(** [useState(post.is_liked)], [useState(post.likes_count)],
    [useState(false)]. *)
Definition init (post : Post) : state := mkState (is_liked post) (likes_count post) false.

Definition like_url (postId : nat) : string := "/posts/" ^^ string_of_nat postId ^^ "/like/".
Definition post_url (postId : nat) : string := "/posts/" ^^ string_of_nat postId ^^ "/".

(** [handleLike] up to its [await]; returns whether a request was sent. *)
Definition handleLike_start (user : option User) (post : Post) : Handler state bool :=
  match user with
  | None => emit (Toast ToastError "Please login to like posts") ;; ret false
  | Some _ =>
      modify (set_loading true) ;;
      emit (Request POST (like_url (post_id post)) []) ;;
      ret true
  end.

(** The rest of [handleLike]: the server's [is_liked] and [likes_count]
    on success; a toast and a console error on failure; [loading] cleared
    in [finally]. *)
Definition handleLike_finish (r : outcome LikeResp) : Handler state unit :=
  match r with
  | Resolved d =>
      modify (set_isLiked (resp_is_liked d)) ;;
      modify (set_likesCount (resp_likes_count d))
  | Rejected _ =>
      emit (Toast ToastError "Failed to like post") ;;
      emit ConsoleError
  end ;;
  modify (set_loading false).

(** [disabled={loading}]: a click reaches [handleLike] only when the card
    is not loading. *)
Definition click_enabled (s : state) : bool := negb (loading s).

(** [handleDelete] up to its [await]: nothing unless confirmed. *)
Definition handleDelete_start {S} (confirmed : bool) (post : Post) : Handler S bool :=
  if confirmed then emit (Request DELETE (post_url (post_id post)) []) ;; ret true
  else ret false.

(** The rest of [handleDelete]: on success a toast, then
    [onPostDelete && onPostDelete(post.id)]; on failure a toast. *)
Definition handleDelete_finish {S} (onPostDelete : option (nat -> Handler S unit))
    (post : Post) (r : outcome unit) : Handler S unit :=
  match r with
  | Resolved _ =>
      emit (Toast ToastSuccess "Post deleted successfully") ;;
      match onPostDelete with Some f => f (post_id post) | None => ret tt end
  | Rejected _ => emit (Toast ToastError "Failed to delete post")
  end.

(** [const canEdit = user && user.id === post.author.id]. *)
Definition canEdit (user : option User) (post : Post) : bool :=
  match user with Some u => u_id u =? us_id (author post) | None => false end.

(** The paths of the card's links: [`/posts/${post.id}`] and
    [`/posts/${post.id}/edit`]. *)
Definition detail_path (postId : nat) : string := "/posts/" ^^ string_of_nat postId.
Definition edit_path (postId : nat) : string := detail_path postId ^^ "/edit".

(** The card: the author's avatar, name and date; the edit link and the
    delete button when [canEdit]; the link around title, image and
    caption; the like button ([disabled={loading}], the heart filled when
    liked, the count); the comment count; "Read More". *)
Definition view (user : option User) (post : Post) (s : state) : node :=
  let a := author post in
  Group [
    Group ([avatar (us_profile_picture a) (us_username a); Text (us_username a);
            DateText (created_at post)] ++
           when (canEdit user post)
             [Link (edit_path (post_id post)) [Icon "Edit"];
              Button "handleDelete" true [Icon "Trash2"]]);
    Link (detail_path (post_id post))
      ([Text (title post)] ++
       when (truthy_opt (image post))
         [Img (match image post with Some i => i | None => "" end) (title post)] ++
       [Text (caption post)]);
    Group [Button "handleLike" (click_enabled s)
             [Icon (if isLiked s then "Heart filled" else "Heart"); Text (string_of_nat (likesCount s))];
           Link (detail_path (post_id post)) [Icon "MessageCircle"; Text (string_of_nat (comments_count post))]];
    Link (detail_path (post_id post)) [Text "Read More"]].

(** ** The like button as a machine *)

Section LikeMachine.
Context (user : option User) (post : Post).

Inductive like_event := LClick | LReply (r : outcome LikeResp).

(** The card's state and the number of like requests in flight. *)
Record card := mkCard { card_state : state; in_flight : nat }.

Definition like_step (c : card) (e : like_event) : option (card * list Effect) :=
  match e with
  | LClick =>
      if click_enabled (card_state c) then
        let o := handleLike_start user post (card_state c) in
        Some (mkCard (o_st o) (if o_val o then S (in_flight c) else in_flight c), o_fx o)
      else None
  | LReply r =>
      match in_flight c with
      | 0 => None
      | S n => let o := handleLike_finish r (card_state c) in Some (mkCard (o_st o) n, o_fx o)
      end
  end.

(** A sequence of events; [None] when one of them cannot happen (a click
    on a disabled button, a reply with nothing in flight). *)
Fixpoint like_run (c : card) (es : list like_event) : option (card * list Effect) :=
  match es with
  | [] => Some (c, [])
  | e :: es' =>
      match like_step c e with
      | Some (c1, fx1) =>
          match like_run c1 es' with Some (c2, fx2) => Some (c2, fx1 ++ fx2) | None => None end
      | None => None
      end
  end.

(** The invariant: one request in flight exactly while the card is
    loading, none otherwise. *)
Definition like_inv (c : card) : Prop :=
  in_flight c = if loading (card_state c) then 1 else 0.

Lemma like_step_inv c e c' fx : like_inv c -> like_step c e = Some (c', fx) -> like_inv c'.
Proof.
  unfold like_inv. intros Hi. destruct e as [|r]; simpl.
  - unfold click_enabled. destruct (loading (card_state c)) eqn:Hl; [done|]. simpl.
    intros [= <- _]. destruct user; cbn; rewrite Hi, ?Hl; done.
  - rewrite Hi. destruct (loading (card_state c)); [|done].
    intros [= <- _]. by destruct r.
Qed.

Lemma like_run_inv es c c' fx : like_inv c -> like_run c es = Some (c', fx) -> like_inv c'.
Proof.
  revert c fx. induction es as [|e es IH]; intros c fx Hi; simpl; [by intros [= <- _]|].
  destruct (like_step c e) as [[c1 fx1]|] eqn:E1; [|done].
  destruct (like_run c1 es) as [[c2 fx2]|] eqn:E2; [|done].
  intros [= <- _]. eapply IH; [|exact E2]. by eapply like_step_inv.
Qed.

(** C6: whatever the user clicks and in whatever order the replies come,
    a card never has two like requests in flight: the disabled button
    serializes the toggles of one card. *)
Theorem like_serialized es c' fx :
  like_run (mkCard (init post) 0) es = Some (c', fx) ->
  in_flight c' <= 1 /\ (in_flight c' = 1 <-> loading (card_state c') = true).
Proof.
  intros H. apply like_run_inv in H; [|done]. unfold like_inv in H.
  rewrite H. destruct (loading (card_state c')); split; try lia; naive_solver.
Qed.

(** C19: a logged-in click followed by the reply: the card shows the
    server's values on success and exactly its values before the click
    on failure (nothing was changed optimistically), with one request
    and, on failure, a toast and a console error. *)
Theorem like_click_reply s u r :
  loading s = false -> user = Some u ->
  like_run (mkCard s 0) [LClick; LReply r] =
  Some (mkCard (match r with
                | Resolved d => mkState (resp_is_liked d) (resp_likes_count d) false
                | Rejected _ => mkState (isLiked s) (likesCount s) false
                end) 0,
        Request POST (like_url (post_id post)) [] ::
        match r with
        | Resolved _ => []
        | Rejected _ => [Toast ToastError "Failed to like post"; ConsoleError]
        end).
Proof.
  intros Hl Hu. destruct s as [il lc ld]; cbn in Hl; subst ld.
  cbn. rewrite Hu. cbn. by destruct r.
Qed.

(** without a session a click sends nothing and changes nothing. *)
Theorem like_logged_out s :
  loading s = false -> user = None ->
  like_run (mkCard s 0) [LClick] =
  Some (mkCard s 0, [Toast ToastError "Please login to like posts"]).
Proof.
  intros Hl Hu. destruct s as [il lc ld]; cbn in Hl; subst ld.
  cbn. by rewrite Hu.
Qed.

End LikeMachine.

(** ** Concrete runs *)

Definition demo_post : Post :=
  mkPost 5 "t" "c" None (mkUserSummary 2 "cy" None) "2024-01-01" 3 false 0.
Definition demo_user : User := mkUser 9 "dee" "dee@example.org" "" None "2024-01-01" 0.

Lemma like_serialized_witness :
  like_run (Some demo_user) demo_post (mkCard (init demo_post) 0) [LClick] =
    Some (mkCard (mkState false 3 true) 1, [Request POST "/posts/5/like/" []]) /\
  in_flight (mkCard (mkState false 3 true) 1) <= 1 /\
  (in_flight (mkCard (mkState false 3 true) 1) = 1 <->
   loading (card_state (mkCard (mkState false 3 true) 1)) = true).
Proof.
  split; [reflexivity|].
  apply (like_serialized (Some demo_user) demo_post [LClick] _ [Request POST "/posts/5/like/" []]).
  reflexivity.
Defined.

Lemma like_click_reply_witness :
  loading (init demo_post) = false /\
  like_run (Some demo_user) demo_post (mkCard (init demo_post) 0)
           [LClick; LReply (Rejected (mkApiError None))] =
  Some (mkCard (mkState false 3 false) 0,
        [Request POST "/posts/5/like/" []; Toast ToastError "Failed to like post"; ConsoleError]).
Proof.
  split; [reflexivity|].
  apply (like_click_reply (Some demo_user) demo_post (init demo_post) demo_user); reflexivity.
Defined.

Lemma like_logged_out_witness :
  loading (init demo_post) = false /\
  like_run None demo_post (mkCard (init demo_post) 0) [LClick] =
  Some (mkCard (init demo_post) 0, [Toast ToastError "Please login to like posts"]).
Proof.
  split; [reflexivity|]. apply (like_logged_out None demo_post); reflexivity.
Defined.

End PostCard.
