(* ===== verification/SearchBar.v ===== *)
(** * SearchBar: the search box and filters ([components/SearchBar.jsx])

    The component's state is its [searchQuery], its [filters] object
    (with its identity: React compares it with [Object.is]), and whether
    the 500 ms timer of its first effect is armed.  The timer effect
    depends on [[searchQuery, onSearch]]: a change of the text clears the
    pending timer and sets a new one, which later calls
    [onSearch(searchQuery)].  The filter effect depends on
    [[filters, onFilter]] and calls [onFilter(filters)] at once.

    Every mount allocates a new [filters] object ([useState({...})]),
    runs both effects: the timer is armed and [onFilter] receives the new
    object.  Both effects also re-run when Home re-renders (Home passes
    new [onSearch]/[onFilter] closures on every render); the invariant
    [FeedMachine.bar_synced] shows that such a re-run calls back with the
    values Home already holds, which React ignores, so the model leaves it
    out.

    The timed behaviour of the debounce (500 ms, timestamps) is the
    separate component of [Debounce.v]. *)

From S2P Require Import Prelude Api Dom QueryString Feed.

Module SearchBar.

Record state := mkState { searchQuery : string; filters : JSObj; armed : bool }.

(** [{ author: '', ordering: '-created_at' }]. *)
Definition default_filters : Obj := [("author", ""); ("ordering", "-created_at")].

(** A fresh mount with the new [filters] object numbered [ref]; the timer
    effect runs on mount and arms the timer. *)
Definition mount (ref : nat) : state := mkState "" (mkJSObj ref default_filters) true.

(** [onChange={(e) => setSearchQuery(e.target.value)}]: when the text
    changes, the effect's cleanup clears the old timer and a new one is
    set; an identical value is ignored by React. *)
Definition onChange_search (value : string) (s : state) : state :=
  if String.eqb value (searchQuery s) then s else mkState value (filters s) true.

(** [handleFilterChange(key, value)]:
    [setFilters(prev => ({ ...prev, [key]: value }))], a new object
    numbered [ref]. *)
Definition handleFilterChange (ref : nat) (key value : string) (s : state) : state :=
  mkState (searchQuery s) (mkJSObj ref (obj_set (spread [] (obj_props (filters s))) key value))
          (armed s).

(** [clearFilters()]: a new default [filters] object numbered [ref] and
    [setSearchQuery('')]; Home re-renders on the new filters, so the timer
    effect runs again and the timer is armed. *)
Definition clearFilters (ref : nat) (s : state) : state :=
  mkState "" (mkJSObj ref default_filters) true.

(** The "Clear All" button is rendered:
    [searchQuery || filters.author || filters.ordering !== '-created_at']. *)
Definition clear_visible (s : state) : bool :=
  truthy (searchQuery s) || truthy_opt (obj_get (obj_props (filters s)) "author") ||
  negb (match obj_get (obj_props (filters s)) "ordering" with
        | Some o => String.eqb o "-created_at"
        | None => false
        end).

(** The value shown by a controlled input bound to [filters[key]]. *)
Definition filter_value (s : state) (key : string) : string :=
  match obj_get (obj_props (filters s)) key with Some v => v | None => "" end.

(** The bar: the search box, the "Advanced Filters" toggle, "Clear All"
    when [clear_visible], and the author and ordering inputs while the
    panel is open ([showFilters], a cell of its own that only hides the
    inputs). *)
Definition view (showFilters : bool) (s : state) : node :=
  Group ([Field "search" (searchQuery s);
          Button "toggleFilters" true [Text "Advanced Filters"]] ++
         when (clear_visible s) [Button "clearFilters" true [Text "Clear All"]] ++
         when showFilters [Field "author" (filter_value s "author");
                           Field "ordering" (filter_value s "ordering")]).

(** The timer fires: [onSearch(searchQuery)] with the text of the render
    that armed it, which is the current text (every change re-arms). *)
Definition fire (s : state) : state * string :=
  (mkState (searchQuery s) (filters s) false, searchQuery s).

End SearchBar.
