(* ===== verification/FeedMachine.v ===== *)
(** * FeedMachine: the home page as a concurrent step machine

    Home ([Feed.v]), its SearchBar ([SearchBar.v]) and the delete button
    of its PostCards ([PostCard.v]) interact through callbacks
    ([onSearch], [onFilter], [onPostDelete]), through React's effects and
    through requests that complete in any order.  A [World] holds Home's
    state, the search bar's state when it is mounted, the requests in
    flight with what their continuations captured, the next object
    number, and the log of effects.

    An [Event] is a user action (typing, a filter change, "Clear All",
    the debounce timer firing, "Load More", a confirmed or cancelled
    delete) or the completion of the [i]-th request in flight with a
    [Reply].  [step] is a function, so runs compute; events that cannot
    happen in the state (a click on something not rendered, a reply of
    the wrong kind) give [None].

    After a step that changes Home, React commits: [fetch_effect] runs
    [fetchPosts] when [searchQuery] or [filters] changed, and
    [mount_step] mounts or unmounts the search bar according to the
    spinner guard [loading && posts.length === 0].  A mount allocates new
    filters and calls [onFilter], which changes Home's [filters] and so
    triggers one more fetch.  [settle] runs the fetch effect and two
    rounds of [mount_step]: a reply can unmount the bar and the next
    round remount it, and the invariant [inv] of [reachable_inv] shows
    that after these rounds the bar is mounted exactly when the spinner
    is not shown.  [nonempty_feed_settles] shows that a feed with posts
    comes to rest ([idle]) after two replies, while an empty feed never
    does ([empty_feed_refetches_forever]). *)

From S2P Require Import Prelude Api QueryString Feed PostCard SearchBar.

(** What a request's continuation needs. *)
Inductive Pending :=
| PFetch (url : string)
| PMore (url : string)
| PDelete (post : Post) (snapshot : list Post).

Inductive Reply :=
| RPage (r : outcome Page)
| RDeleted (r : outcome unit).

Inductive Event :=
| ETyping (value : string)
| EFilterChange (key value : string)
| EClearFilters
| ETimer
| ELoadMore
| EDeleteClick (postId : nat) (confirmed : bool)
| EReply (i : nat) (r : Reply).

Record World := mkWorld {
  home : Home.state;
  bar : option SearchBar.state;
  inflight : list Pending;
  next_ref : nat;
  log : list Effect
}.

Definition set_bar (b : option SearchBar.state) (w : World) : World :=
  mkWorld (home w) b (inflight w) (next_ref w) (log w).
Definition set_inflight (p : list Pending) (w : World) : World :=
  mkWorld (home w) (bar w) p (next_ref w) (log w).
Definition add_pending (p : Pending) (w : World) : World :=
  mkWorld (home w) (bar w) (inflight w ++ [p]) (next_ref w) (log w).

(** Run a handler on Home's state, appending its effects to the log. *)
Definition on_home {A} (h : Handler Home.state A) (w : World) : A * World :=
  let o := h (home w) in
  (o_val o, mkWorld (o_st o) (bar w) (inflight w) (next_ref w) (log w ++ o_fx o)).

(** [useEffect(() => { fetchPosts() }, [searchQuery, filters])]. *)
Definition fetch_effect (before : Home.state) (w : World) : World :=
  if Home.deps_changed before (home w) then
    let '(url, w1) := on_home (Home.fetchPosts_start []) w in add_pending (PFetch url) w1
  else w.

(** Mount the search bar when Home leaves the spinner, unmount it when
    Home shows the spinner.  Mounting calls [onFilter] with the new
    filters object, i.e. Home's [handleFilter], and Home's fetch effect
    sees the new [filters]. *)
Definition mount_step (w : World) : World :=
  match bar w, Home.spinner (home w) with
  | Some _, true => set_bar None w
  | None, false =>
      let b := SearchBar.mount (next_ref w) in
      let w1 := mkWorld (home w) (Some b) (inflight w) (S (next_ref w)) (log w) in
      fetch_effect (home w) (on_home (Home.handleFilter (SearchBar.filters b)) w1).2
  | _, _ => w
  end.

Definition settle (before : Home.state) (w : World) : World :=
  mount_step (mount_step (fetch_effect before w)).

(** The card of [postId] with a delete button: rendered (no spinner) and
    [canEdit] for the viewer. *)
Definition card_of (viewer : option User) (s : Home.state) (postId : nat) : option Post :=
  if Home.spinner s then None
  else List.find (fun p => (post_id p =? postId) && PostCard.canEdit viewer p) (Home.posts s).

(** The world of a freshly mounted Home: the spinner is shown (loading,
    no posts), so the search bar is not mounted; the mount effect has
    called [fetchPosts()] with the [{}] filters, object number 0. *)
Definition init_world : World :=
  let h := Home.initial (mkJSObj 0 []) in
  let '(url, w) := on_home (Home.fetchPosts_start []) (mkWorld h None [] 1 []) in
  add_pending (PFetch url) w.

Section Machine.
Context (viewer : option User).

(** A change of the filters object inside the search bar: Home's
    [handleFilter] receives it, then React commits. *)
Definition filters_changed (before : Home.state) (b' : SearchBar.state) (w : World) : World :=
  let w1 := mkWorld (home w) (Some b') (inflight w) (S (next_ref w)) (log w) in
  settle before (on_home (Home.handleFilter (SearchBar.filters b')) w1).2.

Definition step (w : World) (e : Event) : option World :=
  let before := home w in
  match e with
  | ETyping v =>
      match bar w with
      | Some b => Some (set_bar (Some (SearchBar.onChange_search v b)) w)
      | None => None
      end
  | EFilterChange k v =>
      match bar w with
      | Some b => Some (filters_changed before (SearchBar.handleFilterChange (next_ref w) k v b) w)
      | None => None
      end
  | EClearFilters =>
      match bar w with
      | Some b =>
          if SearchBar.clear_visible b
          then Some (filters_changed before (SearchBar.clearFilters (next_ref w) b) w)
          else None
      | None => None
      end
  | ETimer =>
      match bar w with
      | Some b =>
          if SearchBar.armed b then
            let '(b', q) := SearchBar.fire b in
            Some (settle before (on_home (Home.handleSearch q) (set_bar (Some b') w)).2)
          else None
      | None => None
      end
  | ELoadMore =>
      if Home.load_more_visible (home w) then
        let '(u, w1) := on_home Home.loadMore_start w in
        Some (match u with Some url => add_pending (PMore url) w1 | None => w1 end)
      else None
  | EDeleteClick postId ok =>
      match card_of viewer (home w) postId with
      | Some p =>
          let '(sent, w1) := on_home (PostCard.handleDelete_start ok p) w in
          Some (if sent then add_pending (PDelete p (Home.posts (home w))) w1 else w1)
      | None => None
      end
  | EReply i r =>
      match inflight w !! i, r with
      | Some (PFetch _), RPage o =>
          Some (settle before (on_home (Home.fetchPosts_finish o)
                                 (set_inflight (delete i (inflight w)) w)).2)
      | Some (PMore _), RPage o =>
          Some (settle before (on_home (Home.loadMore_finish o)
                                 (set_inflight (delete i (inflight w)) w)).2)
      | Some (PDelete p snap), RDeleted o =>
          Some (settle before
                  (on_home (PostCard.handleDelete_finish (Some (Home.handlePostDelete snap)) p o)
                     (set_inflight (delete i (inflight w)) w)).2)
      | _, _ => None
      end
  end.

Fixpoint run (w : World) (es : list Event) : option World :=
  match es with
  | [] => Some w
  | e :: es' => match step w e with Some w' => run w' es' | None => None end
  end.

Inductive reachable : World -> Prop :=
| reach_init : reachable init_world
| reach_step w e w' : reachable w -> step w e = Some w' -> reachable w'.

End Machine.

(** ** The React commit: closed forms and what it preserves *)

(** The world after [fetchPosts()] ran from an effect. *)
Definition fetched (w : World) : World :=
  let url := feed_url [] (Home.searchQuery (home w)) (obj_props (Home.filters (home w))) in
  mkWorld (Home.set_loading true (home w)) (bar w) (inflight w ++ [PFetch url]) (next_ref w)
          (log w ++ [Request GET url []]).

Lemma fetch_effect_eq before w :
  fetch_effect before w = if Home.deps_changed before (home w) then fetched w else w.
Proof. reflexivity. Qed.

(** What the commit never touches: the list, the cursor and the search
    text of Home; requests in flight and the log only grow at the end. *)
Definition same_data (w w' : World) : Prop :=
  Home.posts (home w') = Home.posts (home w) /\
  Home.pagination (home w') = Home.pagination (home w) /\
  Home.searchQuery (home w') = Home.searchQuery (home w) /\
  (exists fx, log w' = log w ++ fx) /\
  (exists l, inflight w' = inflight w ++ l).

Lemma same_data_refl w : same_data w w.
Proof.
  split; [done|split; [done|split; [done|split]]];
    [exists []|exists []]; by rewrite app_nil_r.
Qed.

Lemma same_data_trans w1 w2 w3 : same_data w1 w2 -> same_data w2 w3 -> same_data w1 w3.
Proof.
  intros (H1 & H2 & H3 & [fx1 H4] & [l1 H5]) (G1 & G2 & G3 & [fx2 G4] & [l2 G5]).
  split; [congruence|split; [congruence|split; [congruence|split]]].
  - exists (fx1 ++ fx2). by rewrite G4, H4, app_assoc.
  - exists (l1 ++ l2). by rewrite G5, H5, app_assoc.
Qed.

Lemma same_data_grow w h b r fx l :
  Home.posts h = Home.posts (home w) -> Home.pagination h = Home.pagination (home w) ->
  Home.searchQuery h = Home.searchQuery (home w) ->
  same_data w (mkWorld h b (inflight w ++ l) r (log w ++ fx)).
Proof. intros H1 H2 H3. split; [done|split; [done|split; [done|split]]]; eauto. Qed.

Lemma fetch_effect_same before w : same_data w (fetch_effect before w).
Proof.
  rewrite fetch_effect_eq. destruct (Home.deps_changed _ _); [|apply same_data_refl].
  by apply same_data_grow.
Qed.

Lemma mount_step_same w : same_data w (mount_step w).
Proof.
  unfold mount_step. destruct (bar w), (Home.spinner (home w)); try apply same_data_refl.
  - split; [done|split; [done|split; [done|split]]]; exists []; by rewrite app_nil_r.
  - eapply same_data_trans; [|apply fetch_effect_same]. simpl.
    rewrite <- (app_nil_r (inflight w)) at 1. by apply same_data_grow.
Qed.

Lemma settle_same before w : same_data w (settle before w).
Proof.
  unfold settle. eapply same_data_trans; [apply fetch_effect_same|].
  eapply same_data_trans; apply mount_step_same.
Qed.

#[export] Hint Resolve same_data_refl fetch_effect_same mount_step_same settle_same : blog.

Lemma fetch_effect_bar before w : bar (fetch_effect before w) = bar w.
Proof. rewrite fetch_effect_eq. by destruct (Home.deps_changed _ _). Qed.

(** The search bar is mounted exactly when Home is not showing its
    spinner. *)
Definition settled (w : World) : bool :=
  match bar w with Some _ => negb (Home.spinner (home w)) | None => Home.spinner (home w) end.

Lemma mount_step_settled w : settled w = true -> mount_step w = w.
Proof.
  unfold settled, mount_step. destruct (bar w), (Home.spinner (home w)); done.
Qed.

Lemma settled_mount_step2 w : settled (mount_step (mount_step w)) = true.
Proof.
  destruct (settled w) eqn:Hs.
  { by rewrite !(mount_step_settled w Hs). }
  unfold settled in Hs. unfold mount_step at 2.
  destruct (bar w) eqn:Hb, (Home.spinner (home w)) eqn:Hsp; try done.
  - unfold mount_step, settled. simpl. by rewrite Hsp.
  - set (w2 := fetch_effect _ _).
    assert (Hb2 : bar w2 = Some (SearchBar.mount (next_ref w))) by (unfold w2; rewrite fetch_effect_bar; reflexivity).
    unfold mount_step, settled. rewrite Hb2.
    destruct (Home.spinner (home w2)) eqn:E; simpl; [by rewrite E|by rewrite Hb2, E].
Qed.

(** ** The invariant of the home page *)

(** The search bar and Home agree: Home holds the bar's filters object,
    and, unless a timer is pending, the bar's text. *)
Definition synced (w : World) : Prop :=
  forall b, bar w = Some b ->
    SearchBar.filters b = Home.filters (home w) /\
    (SearchBar.armed b = false -> SearchBar.searchQuery b = Home.searchQuery (home w)).

(** Every filters object in use was allocated before [next_ref]. *)
Definition fresh (w : World) : Prop := obj_ref (Home.filters (home w)) < next_ref w.

(** The spinner flag is set only while a fetch is in flight. *)
Definition loading_pending (w : World) : Prop :=
  Home.loading (home w) = true -> exists u, PFetch u ∈ inflight w.

Definition pre_inv (w : World) : Prop := synced w /\ fresh w /\ loading_pending w.

Definition inv (w : World) : Prop := pre_inv w /\ settled w = true.

(** The part of Home's state the invariant reads besides the list. *)
Definition ctrl (h : Home.state) : bool * string * JSObj :=
  (Home.loading h, Home.searchQuery h, Home.filters h).

Lemma pre_inv_ctrl w h :
  ctrl h = ctrl (home w) -> pre_inv w ->
  pre_inv (mkWorld h (bar w) (inflight w) (next_ref w) (log w)).
Proof.
  unfold ctrl. intros [= Hl Hq Hf] (Hs & Hr & Hp). split; [|split].
  - intros b0 Hb0. simpl in *. rewrite Hf, Hq. by apply Hs.
  - unfold fresh. simpl. by rewrite Hf.
  - unfold loading_pending. simpl. rewrite Hl. apply Hp.
Qed.

Lemma fetched_pre w : pre_inv w -> pre_inv (fetched w).
Proof.
  intros (Hs & Hr & Hp). split; [|split].
  - apply Hs.
  - apply Hr.
  - intros _. eexists. apply list_elem_of_In, in_or_app. right. left. reflexivity.
Qed.

Lemma fetch_effect_pre before w : pre_inv w -> pre_inv (fetch_effect before w).
Proof.
  rewrite fetch_effect_eq. destruct (Home.deps_changed _ _); [apply fetched_pre|done].
Qed.

(** A mount: new filters numbered [next_ref], given to Home. *)
Lemma mounted_pre w :
  pre_inv w ->
  pre_inv (on_home (Home.handleFilter (SearchBar.filters (SearchBar.mount (next_ref w))))
             (mkWorld (home w) (Some (SearchBar.mount (next_ref w))) (inflight w)
                      (S (next_ref w)) (log w))).2.
Proof.
  intros (Hs & Hr & Hp). split; [|split].
  - by intros b [= <-].
  - unfold fresh. simpl. lia.
  - apply Hp.
Qed.

Lemma mount_step_pre w : pre_inv w -> pre_inv (mount_step w).
Proof.
  intros Hw. unfold mount_step.
  destruct (bar w), (Home.spinner (home w)); try exact Hw.
  - destruct Hw as (Hs & Hr & Hp). split; [done|split; [apply Hr|apply Hp]].
  - by apply fetch_effect_pre, mounted_pre.
Qed.

Lemma settle_inv before w : pre_inv w -> inv (settle before w).
Proof.
  intros Hw. split; [|apply settled_mount_step2].
  by apply mount_step_pre, mount_step_pre, fetch_effect_pre.
Qed.

#[export] Hint Resolve fetch_effect_pre mount_step_pre settle_inv : blog.

Lemma loadMore_start_state h : o_st (Home.loadMore_start h) = h.
Proof.
  unfold Home.loadMore_start, bind, get. simpl.
  destruct (pg_next (Home.pagination h)) as [u|]; [|done]. by destruct (truthy u).
Qed.

Lemma handleDelete_start_state {S} ok p (h : S) : o_st (PostCard.handleDelete_start ok p h) = h.
Proof. unfold PostCard.handleDelete_start. by destruct ok. Qed.

Lemma loadMore_finish_ctrl r h : ctrl (o_st (Home.loadMore_finish r h)) = ctrl h.
Proof. by destruct r. Qed.

Lemma delete_finish_ctrl snap p r h :
  ctrl (o_st (PostCard.handleDelete_finish (Some (Home.handlePostDelete snap)) p r h)) = ctrl h.
Proof. by destruct r. Qed.

(** A reply that is not a fetch keeps the pending fetch that justifies
    [loading]. *)
Lemma reply_other_pre w i x h :
  inflight w !! i = Some x -> (forall u, x <> PFetch u) -> ctrl h = ctrl (home w) -> pre_inv w ->
  pre_inv (mkWorld h (bar w) (delete i (inflight w)) (next_ref w) (log w)).
Proof.
  intros Hi Hx Hc (Hs & Hr & Hp).
  assert (Hw' : pre_inv (set_inflight (delete i (inflight w)) w)).
  { split; [apply Hs|split; [apply Hr|]]. intros Hl. destruct (Hp Hl) as [u Hu].
    exists u. eapply elem_of_delete_ne; [exact Hi|exact Hu|]. intros E. apply (Hx u). by rewrite E. }
  by apply (pre_inv_ctrl (set_inflight (delete i (inflight w)) w)).
Qed.

Lemma settled_same_home w b' :
  settled w = true -> (bar w = None <-> b' = None) ->
  settled (mkWorld (home w) b' (inflight w) (next_ref w) (log w)) = true.
Proof. unfold settled. simpl. destruct (bar w), b'; naive_solver. Qed.

(** Adding requests in flight and effects keeps the invariant. *)
Lemma inv_grow w l fx :
  inv w -> (forall x, x ∈ inflight w -> x ∈ l) ->
  inv (mkWorld (home w) (bar w) l (next_ref w) (log w ++ fx)).
Proof.
  intros [(Hs & Hr & Hp) Hst] Hl. split; [split; [apply Hs|split; [apply Hr|]]|apply Hst].
  intros Hld. destruct (Hp Hld) as [u Hu]. exists u. by apply Hl.
Qed.

Lemma incl_app_r_elem {A} (l l' : list A) x : x ∈ l -> x ∈ l ++ l'.
Proof. intros H. apply elem_of_app. by left. Qed.

(** The step function preserves the invariant. *)
Lemma step_inv viewer w e w' : inv w -> step viewer w e = Some w' -> inv w'.
Proof.
  intros [Hw Hst]. destruct Hw as (Hs & Hr & Hp).
  destruct e as [v|k v| | | |postId ok|i r]; cbv beta iota zeta delta [step].
  - (* typing *)
    destruct (bar w) as [b|] eqn:Hb; [|done]. intros [= <-].
    split; [split; [|split; [apply Hr|apply Hp]]|].
    + intros b0 [= <-]. destruct (Hs b Hb) as [Hf Hq]. unfold SearchBar.onChange_search.
      destruct (String.eqb v (SearchBar.searchQuery b)); [by split|split; [apply Hf|done]].
    + apply settled_same_home; [done|]. rewrite Hb. naive_solver.
  - (* filter change *)
    destruct (bar w) as [b|] eqn:Hb; [|done]. intros [= <-]. apply settle_inv.
    destruct (Hs b Hb) as [Hf Hq]. split; [|split].
    + intros b0 [= <-]. split; [done|]. apply Hq.
    + unfold fresh. simpl. lia.
    + apply Hp.
  - (* clear all *)
    destruct (bar w) as [b|] eqn:Hb; [|done]. destruct (SearchBar.clear_visible b); [|done].
    intros [= <-]. apply settle_inv.
    split; [|split].
    + by intros b0 [= <-].
    + unfold fresh. simpl. lia.
    + apply Hp.
  - (* timer *)
    destruct (bar w) as [b|] eqn:Hb; [|done]. destruct (SearchBar.armed b); [|done].
    intros [= <-]. apply settle_inv. destruct (Hs b Hb) as [Hf _]. split; [|split].
    + by intros b0 [= <-].
    + apply Hr.
    + apply Hp.
  - (* load more *)
    destruct (Home.load_more_visible (home w)); [|done].
    unfold on_home. rewrite loadMore_start_state.
    destruct (o_val (Home.loadMore_start (home w))); intros [= <-]. all: apply (inv_grow w); [by split; [split; [|split]|] | try apply incl_app_r_elem; done].
  - (* delete click *)
    destruct (card_of viewer (home w) postId) as [p|]; [|done].
    unfold on_home. rewrite handleDelete_start_state.
    destruct (o_val (PostCard.handleDelete_start ok p (home w))); intros [= <-]. all: apply (inv_grow w); [by split; [split; [|split]|] | try apply incl_app_r_elem; done].
  - (* reply *)
    destruct (inflight w !! i) as [[u|u|p snap]|] eqn:Hi; [| | |done];
      destruct r as [o|o]; try done; intros [= <-]; apply settle_inv.
    + split; [|split].
      * intros b0 Hb0. by destruct o; apply Hs.
      * unfold fresh. simpl. by destruct o.
      * unfold loading_pending. simpl. by destruct o.
    + apply (reply_other_pre w i (PMore u)); [done|done|apply loadMore_finish_ctrl|].
      by split; [|split].
    + apply (reply_other_pre w i (PDelete p snap)); [done|done|apply delete_finish_ctrl|].
      by split; [|split].
Qed.

Lemma init_inv : inv init_world.
Proof.
  split; [split; [|split]|].
  - by intros b.
  - unfold fresh. simpl. lia.
  - intros _. eexists. apply list_elem_of_In. left. reflexivity.
  - reflexivity.
Qed.

(** C1: in every reachable state of the home page the search bar is
    mounted exactly when the spinner is not shown, it agrees with Home on
    the filters object and (when no debounce timer is pending) on the
    search text, object numbers are fresh, and the spinner flag is set
    only while a fetch is in flight. *)
Theorem reachable_inv viewer w : reachable viewer w -> inv w.
Proof. induction 1; [apply init_inv|by eapply step_inv]. Qed.

Lemma reachable_inv_witness : reachable None init_world /\ inv init_world.
Proof. split; [constructor|apply (reachable_inv None); constructor]. Defined.

(** ** What a reply does *)

(** Name the facts [settle] keeps about the world it is applied to. *)
Ltac settle_data Hp Hg Hq fx Hl :=
  match goal with
  | |- context [settle ?b ?x] => destruct (settle_same b x) as (Hp & Hg & Hq & [fx Hl] & _)
  end.

(** C17: a successful fetch reply replaces the list and the cursor with
    the page it carries, whichever query the request was made for and
    whichever newer requests are still in flight: the last reply to
    arrive wins, there is no generation check. *)
Theorem fetch_reply_replaces viewer w i u d w' :
  inflight w !! i = Some (PFetch u) ->
  step viewer w (EReply i (RPage (Resolved d))) = Some w' ->
  Home.posts (home w') = results d /\ Home.pagination (home w') = pagination_of d.
Proof.
  intros Hi. cbv beta iota zeta delta [step]. rewrite Hi. intros [= <-].
  settle_data Hp Hg Hq fx Hl. by rewrite Hp, Hg.
Qed.

(** C18: a failed fetch reply leaves the list, the cursor and the search
    text as they were and shows the error toast. *)
Theorem fetch_reply_error viewer w i u e w' :
  inflight w !! i = Some (PFetch u) ->
  step viewer w (EReply i (RPage (Rejected e))) = Some w' ->
  Home.posts (home w') = Home.posts (home w) /\
  Home.pagination (home w') = Home.pagination (home w) /\
  Home.searchQuery (home w') = Home.searchQuery (home w) /\
  exists fx, log w' = log w ++ Toast ToastError "Failed to fetch posts" :: fx.
Proof.
  intros Hi. cbv beta iota zeta delta [step]. rewrite Hi. intros [= <-].
  settle_data Hp Hg Hq fx Hl. rewrite Hp, Hg, Hq, Hl.
  split; [done|split; [done|split; [done|]]]. exists fx. simpl. by rewrite <- app_assoc.
Qed.

(** ** Runs *)

Lemma run_step viewer w e es w' :
  step viewer w e = Some w' -> run viewer w (e :: es) = run viewer w' es.
Proof. intros H. simpl. by rewrite H. Qed.

Lemma run_app viewer w es1 es2 :
  run viewer w (es1 ++ es2) =
  match run viewer w es1 with Some w' => run viewer w' es2 | None => None end.
Proof.
  revert w. induction es1 as [|e es1 IH]; intros w; [done|]. simpl.
  destruct (step viewer w e); [apply IH|done].
Qed.

(** ** Load More *)

Lemma step_load_more viewer w u :
  Home.load_more_visible (home w) = true -> pg_next (Home.pagination (home w)) = Some u ->
  step viewer w ELoadMore =
  Some (mkWorld (home w) (bar w) (inflight w ++ [PMore u]) (next_ref w) (log w ++ [Request GET u []])).
Proof.
  intros Hv Hn. cbv beta iota zeta delta [step]. rewrite Hv.
  unfold Home.load_more_visible in Hv. rewrite Hn in Hv. simpl in Hv.
  apply andb_prop in Hv as [_ Ht].
  unfold on_home. by rewrite (Home.loadMore_start_request (home w) u Hn Ht).
Qed.

(** The reply to a Load More request appends its page; requests in flight
    after it are those before it, without it, and possibly new ones at the
    end. *)
Lemma step_more_reply viewer w i u d :
  inflight w !! i = Some (PMore u) ->
  exists w', step viewer w (EReply i (RPage (Resolved d))) = Some w' /\
    Home.posts (home w') = Home.posts (home w) ++ results d /\
    exists l, inflight w' = delete i (inflight w) ++ l.
Proof.
  intros Hi. cbv beta iota zeta delta [step]. rewrite Hi. eexists. split; [done|].
  match goal with |- context [settle ?b ?x] => destruct (settle_same b x) as (Hp & _ & _ & _ & [l Hl]) end.
  rewrite Hp, Hl. split; [done|]. by exists l.
Qed.

Lemma lookup_app_two {A} (l : list A) (x : A) : ((l ++ [x]) ++ [x]) !! length l = Some x.
Proof. rewrite <- app_assoc, lookup_app_r by lia. by rewrite Nat.sub_diag. Qed.

Lemma delete_app_two {A} (l : list A) (x : A) : delete (length l) ((l ++ [x]) ++ [x]) = l ++ [x].
Proof. induction l as [|y l IH]; simpl; [done|]. by rewrite IH. Qed.

(** C14: two clicks on "Load More" before the first reply (nothing disables
    the button) request the same cursor twice, and the two replies append
    the same page twice: every post of a non-empty page is then listed
    twice. *)
Theorem load_more_twice_duplicates viewer w d :
  Home.load_more_visible (home w) = true -> results d <> [] ->
  exists w',
    run viewer w [ELoadMore; ELoadMore;
                  EReply (length (inflight w)) (RPage (Resolved d));
                  EReply (length (inflight w)) (RPage (Resolved d))] = Some w' /\
    Home.posts (home w') = Home.posts (home w) ++ results d ++ results d /\
    ~ NoDup (post_id <$> Home.posts (home w')).
Proof.
  intros Hv Hne. destruct (pg_next (Home.pagination (home w))) as [u|] eqn:Hn;
    [|by unfold Home.load_more_visible in Hv; rewrite Hn, andb_false_r in Hv].
  set (w1 := mkWorld (home w) (bar w) (inflight w ++ [PMore u]) (next_ref w)
                     (log w ++ [Request GET u []])).
  set (w2 := mkWorld (home w) (bar w) ((inflight w ++ [PMore u]) ++ [PMore u]) (next_ref w)
                     ((log w ++ [Request GET u []]) ++ [Request GET u []])).
  assert (S1 : step viewer w ELoadMore = Some w1) by apply (step_load_more viewer w u Hv Hn).
  assert (S2 : step viewer w1 ELoadMore = Some w2) by apply (step_load_more viewer w1 u Hv Hn).
  assert (Hi2 : inflight w2 !! length (inflight w) = Some (PMore u)).
  { apply lookup_app_two. }
  destruct (step_more_reply viewer w2 _ u d Hi2) as (w3 & Hs3 & Hp3 & l3 & Hl3).
  assert (Hi3 : inflight w3 !! length (inflight w) = Some (PMore u)).
  { rewrite Hl3. simpl. rewrite delete_app_two, <- app_assoc.
    rewrite lookup_app_r by lia. by rewrite Nat.sub_diag. }
  destruct (step_more_reply viewer w3 _ u d Hi3) as (w4 & Hs4 & Hp4 & _).
  exists w4. split; [|split].
  - by rewrite (run_step _ _ _ _ _ S1), (run_step _ _ _ _ _ S2),
      (run_step _ _ _ _ _ Hs3), (run_step _ _ _ _ _ Hs4).
  - by rewrite Hp4, Hp3, <- app_assoc.
  - rewrite Hp4, Hp3, <- app_assoc, !fmap_app. destruct (results d) as [|p r]; [done|].
    intros Hnd. apply NoDup_app in Hnd as (_ & _ & Hnd). apply NoDup_app in Hnd as (_ & Hdis & _).
    apply (Hdis (post_id p)); rewrite fmap_cons; left.
Qed.

(** ** Delete *)

Lemma card_of_id viewer s postId p : card_of viewer s postId = Some p -> post_id p = postId.
Proof.
  unfold card_of. destruct (Home.spinner s); [done|]. intros Hf.
  apply List.find_some in Hf as [_ Hf]. apply andb_prop in Hf as [Hf _].
  by apply Nat.eqb_eq.
Qed.

Lemma step_delete_click viewer w postId p :
  card_of viewer (home w) postId = Some p ->
  step viewer w (EDeleteClick postId true) =
  Some (mkWorld (home w) (bar w) (inflight w ++ [PDelete p (Home.posts (home w))]) (next_ref w)
                (log w ++ [Request DELETE (PostCard.post_url (post_id p)) []])).
Proof. intros Hc. cbv beta iota zeta delta [step]. by rewrite Hc. Qed.

(** The reply to a delete filters the list its closure captured. *)
Lemma step_delete_reply viewer w i p snap :
  inflight w !! i = Some (PDelete p snap) ->
  exists w', step viewer w (EReply i (RDeleted (Resolved tt))) = Some w' /\
    Home.posts (home w') = List.filter (keep_other (post_id p)) snap.
Proof.
  intros Hi. cbv beta iota zeta delta [step]. rewrite Hi. eexists. split; [done|].
  settle_data Hp Hg Hq fx Hl. by rewrite Hp.
Qed.

(** C15: a confirmed delete whose reply arrives after a "Load More" reply
    drops the page that was loaded in between: Home's [handlePostDelete]
    filters the [posts] array of the render in which the delete button
    was clicked, not the current list. *)
Theorem delete_loses_loaded_page viewer w postId p d :
  card_of viewer (home w) postId = Some p -> Home.load_more_visible (home w) = true ->
  exists w',
    run viewer w [EDeleteClick postId true; ELoadMore;
                  EReply (S (length (inflight w))) (RPage (Resolved d));
                  EReply (length (inflight w)) (RDeleted (Resolved tt))] = Some w' /\
    Home.posts (home w') = List.filter (keep_other postId) (Home.posts (home w)) /\
    (forall q, q ∈ results d -> q ∉ Home.posts (home w) -> q ∉ Home.posts (home w')).
Proof.
  intros Hc Hv. pose proof (card_of_id _ _ _ _ Hc) as Hid.
  destruct (pg_next (Home.pagination (home w))) as [u|] eqn:Hn;
    [|by unfold Home.load_more_visible in Hv; rewrite Hn, andb_false_r in Hv].
  set (w1 := mkWorld (home w) (bar w) (inflight w ++ [PDelete p (Home.posts (home w))])
                     (next_ref w) (log w ++ [Request DELETE (PostCard.post_url (post_id p)) []])).
  assert (S1 : step viewer w (EDeleteClick postId true) = Some w1)
    by apply (step_delete_click viewer w postId p Hc).
  set (w2 := mkWorld (home w) (bar w) (inflight w1 ++ [PMore u]) (next_ref w)
                     (log w1 ++ [Request GET u []])).
  assert (S2 : step viewer w1 ELoadMore = Some w2) by apply (step_load_more viewer w1 u Hv Hn).
  assert (Hi2 : inflight w2 !! S (length (inflight w)) = Some (PMore u)).
  { simpl. rewrite <- app_assoc, lookup_app_r by lia.
    by replace (S (length (inflight w)) - length (inflight w)) with 1 by lia. }
  destruct (step_more_reply viewer w2 _ u d Hi2) as (w3 & S3 & _ & l3 & Hl3).
  assert (Hi3 : inflight w3 !! length (inflight w) = Some (PDelete p (Home.posts (home w)))).
  { rewrite Hl3. simpl. rewrite <- app_assoc.
    replace (delete (S (length (inflight w))) (inflight w ++ [PDelete p (Home.posts (home w))] ++ [PMore u]))
      with (inflight w ++ [PDelete p (Home.posts (home w))]).
    - rewrite <- app_assoc, lookup_app_r by lia. by rewrite Nat.sub_diag.
    - clear. induction (inflight w); simpl; [done|by rewrite IHl]. }
  destruct (step_delete_reply viewer w3 _ p _ Hi3) as (w4 & S4 & Hp4).
  exists w4. split; [|split].
  - by rewrite (run_step _ _ _ _ _ S1), (run_step _ _ _ _ _ S2),
      (run_step _ _ _ _ _ S3), (run_step _ _ _ _ _ S4).
  - by rewrite Hp4, Hid.
  - intros q _ Hq. rewrite Hp4. intros Hin. apply Hq.
    apply list_elem_of_In in Hin. apply List.filter_In in Hin as [Hin _].
    by apply list_elem_of_In.
Qed.

(** ** An empty feed is refetched forever *)

Definition empty_page : Page := mkPage [] None None 0.

(** The spinner is up because a fetch is in flight, the list is empty
    and the search bar is unmounted. *)
Definition looping (w : World) : Prop :=
  Home.posts (home w) = [] /\ Home.loading (home w) = true /\ bar w = None /\
  (exists u, inflight w = [PFetch u]) /\ fresh w.

Lemma requests_length_app fx1 fx2 :
  length (requests (fx1 ++ fx2)) = length (requests fx1) + length (requests fx2).
Proof. by rewrite requests_app, length_app. Qed.

(** One round: the empty reply clears the spinner, the search bar
    mounts and hands Home a new filters object, the fetch effect requests
    the feed again, the spinner comes back and the bar unmounts. *)
Lemma loop_step viewer w :
  looping w ->
  exists w', step viewer w (EReply 0 (RPage (Resolved empty_page))) = Some w' /\
    looping w' /\ Home.searchQuery (home w') = Home.searchQuery (home w) /\
    length (requests (log w')) = S (length (requests (log w))).
Proof.
  destruct w as [[ps ld q f pg] b inf r lg].
  intros (Hp & Hl & Hb & [u Hu] & Hf). simpl in *. subst.
  unfold fresh in Hf. simpl in Hf.
  assert (Hne : (obj_ref f =? r) = false) by (apply Nat.eqb_neq; lia).
  eexists. split.
  - cbv beta iota zeta delta [step]. simpl. reflexivity.
  - unfold settle, mount_step, fetch_effect, Home.deps_changed, Home.deps. simpl.
    rewrite String.eqb_refl, Nat.eqb_refl. simpl.
    rewrite ?String.eqb_refl, Hne. simpl.
    split; [unfold looping; simpl; split; [done|split; [done|split; [done|split; [by eexists|]]]]|].
    + unfold fresh. simpl. lia.
    + split; [done|]. rewrite !requests_length_app. simpl. lia.
Qed.

Lemma loop_run viewer n w :
  looping w ->
  exists w', run viewer w (repeat (EReply 0 (RPage (Resolved empty_page))) n) = Some w' /\
    looping w' /\ Home.searchQuery (home w') = Home.searchQuery (home w) /\
    length (requests (log w')) = n + length (requests (log w)).
Proof.
  revert w. induction n as [|n IH]; intros w Hw; [by exists w|].
  destruct (loop_step viewer w Hw) as (w1 & S1 & Hw1 & Hq1 & Hr1).
  destruct (IH w1 Hw1) as (w2 & R2 & Hw2 & Hq2 & Hr2).
  exists w2. split; [|split; [done|split; [congruence|lia]]].
  simpl repeat. by rewrite (run_step _ _ _ _ _ S1).
Qed.

(** C2: when the service has no post to show, every reply to the feed
    request triggers a new one: after [n] empty replies, [n + 1]
    requests have been sent and one is still in flight, the spinner is
    up and the search bar unmounted, for every [n]. The page never
    becomes idle. *)
Theorem empty_feed_refetches_forever viewer n :
  exists w, run viewer init_world (repeat (EReply 0 (RPage (Resolved empty_page))) n) = Some w /\
    looping w /\ length (requests (log w)) = S n.
Proof.
  destruct (loop_run viewer n init_world) as (w & R & Hw & _ & Hr).
  - split; [done|split; [done|split; [done|split; [by eexists|]]]]. unfold fresh. simpl. lia.
  - exists w. split; [done|split; [done|]]. rewrite Hr. simpl. lia.
Qed.

(** ** Concrete executions *)

(** ** A feed with posts comes to rest *)

(** Nothing in flight, no spinner flag, the search bar mounted. *)
Definition idle (w : World) : Prop :=
  inflight w = [] /\ Home.loading (home w) = false /\ bar w <> None.

(** C34: a feed that has posts comes to rest: the first reply mounts the
    search bar, whose new filters object makes Home fetch the same query
    a second time; after that reply nothing is in flight and the page
    shows the second reply's posts.  Two requests are made for one
    opening of the page. *)
Theorem nonempty_feed_settles viewer d1 d2 :
  results d1 <> [] -> results d2 <> [] ->
  exists w,
    run viewer init_world [EReply 0 (RPage (Resolved d1)); EReply 0 (RPage (Resolved d2))] = Some w /\
    idle w /\ Home.posts (home w) = results d2 /\
    requests (log w) = [Request GET "/posts/?" []; Request GET "/posts/?author=&ordering=-created_at" []].
Proof.
  destruct d1 as [[|p1 r1] n1 v1 c1], d2 as [[|p2 r2] n2 v2 c2]; simpl; intros H1 H2; try done.
  eexists. split; [reflexivity|]. split; [|split]; [split; [done|split; done]|done|reflexivity].
Qed.

Definition sample_author : UserSummary := mkUserSummary 7 "ann" None.
Definition sample_user : User := mkUser 7 "ann" "ann@example.org" "" None "2024-01-01" 1.
Definition sample_post (n : nat) : Post :=
  mkPost n "title" "caption" None sample_author "2024-01-01" 0 false 0.
Definition first_page : Page := mkPage [sample_post 1] (Some "/posts/?page=2") None 2.
Definition second_page : Page := mkPage [sample_post 2] None (Some "/posts/?page=1") 2.
Definition page_of (n : nat) : Page := mkPage [sample_post n] None None 1.

Definition reply_page (i : nat) (d : Page) : Event := EReply i (RPage (Resolved d)).

(** The first feed reply, then the reply to the fetch that the search
    bar's mount triggers: the page is shown with its "Load More" button. *)
Definition opening : list Event := [reply_page 0 first_page; reply_page 0 first_page].

Definition world_of (viewer : option User) (es : list Event) : World :=
  match run viewer init_world es with Some w => w | None => init_world end.

(** C9: a search without results followed by another search falls into
    the refetch loop: the second search shows the spinner, which
    unmounts the search bar (the text typed in it is lost), and from then
    on every empty reply triggers a new request, for every [n]. *)
Theorem search_without_results_loops n :
  exists w,
    run None init_world (opening ++ [ETyping "zz"; ETimer; reply_page 0 empty_page;
                                     ETyping "zzz"; ETimer] ++
                         repeat (reply_page 0 empty_page) n) = Some w /\
    looping w /\ Home.searchQuery (home w) = "zzz" /\
    length (requests (log w)) = 4 + n.
Proof.
  set (pre := opening ++ [ETyping "zz"; ETimer; reply_page 0 empty_page; ETyping "zzz"; ETimer]).
  assert (Hpre : run None init_world pre = Some (world_of None pre)) by (vm_compute; reflexivity).
  assert (Hl : looping (world_of None pre)).
  { vm_compute. split; [done|split; [done|split; [done|split; [by eexists|lia]]]]. }
  destruct (loop_run None n _ Hl) as (w & Hr & Hw & Hq & Hn).
  assert (H4 : length (requests (log (world_of None pre))) = 4) by (vm_compute; reflexivity).
  assert (Hz : Home.searchQuery (home (world_of None pre)) = "zzz") by (vm_compute; reflexivity).
  exists w. rewrite app_assoc. fold pre. rewrite run_app, Hpre.
  split; [done|split; [done|]]. rewrite Hq, Hn, H4, Hz. split; [done|lia].
Qed.

(** ** Witnesses: the theorems with hypotheses applied to concrete worlds *)

Lemma fetch_reply_replaces_witness :
  inflight init_world !! 0 = Some (PFetch "/posts/?") /\
  step None init_world (reply_page 0 first_page) = Some (world_of None [reply_page 0 first_page]) /\
  Home.posts (home (world_of None [reply_page 0 first_page])) = results first_page /\
  Home.pagination (home (world_of None [reply_page 0 first_page])) = pagination_of first_page.
Proof.
  assert (H1 : inflight init_world !! 0 = Some (PFetch "/posts/?")) by reflexivity.
  assert (H2 : step None init_world (reply_page 0 first_page) =
               Some (world_of None [reply_page 0 first_page])) by (vm_compute; reflexivity).
  split; [exact H1|split; [exact H2|]].
  exact (fetch_reply_replaces None init_world 0 "/posts/?" first_page _ H1 H2).
Defined.

Definition network_error : ApiError := mkApiError None.

Lemma fetch_reply_error_witness :
  inflight init_world !! 0 = Some (PFetch "/posts/?") /\
  step None init_world (EReply 0 (RPage (Rejected network_error))) =
    Some (world_of None [EReply 0 (RPage (Rejected network_error))]) /\
  Home.posts (home (world_of None [EReply 0 (RPage (Rejected network_error))])) =
    Home.posts (home init_world).
Proof.
  assert (H1 : inflight init_world !! 0 = Some (PFetch "/posts/?")) by reflexivity.
  assert (H2 : step None init_world (EReply 0 (RPage (Rejected network_error))) =
               Some (world_of None [EReply 0 (RPage (Rejected network_error))]))
    by (vm_compute; reflexivity).
  split; [exact H1|split; [exact H2|]].
  exact (proj1 (fetch_reply_error None init_world 0 "/posts/?" network_error _ H1 H2)).
Defined.

Lemma load_more_twice_duplicates_witness :
  Home.load_more_visible (home (world_of None opening)) = true /\
  results second_page <> [] /\
  exists w',
    run None (world_of None opening)
        [ELoadMore; ELoadMore;
         EReply (length (inflight (world_of None opening))) (RPage (Resolved second_page));
         EReply (length (inflight (world_of None opening))) (RPage (Resolved second_page))]
      = Some w' /\
    Home.posts (home w') =
      Home.posts (home (world_of None opening)) ++ results second_page ++ results second_page /\
    ~ NoDup (post_id <$> Home.posts (home w')).
Proof.
  assert (H1 : Home.load_more_visible (home (world_of None opening)) = true)
    by (vm_compute; reflexivity).
  assert (H2 : results second_page <> []) by discriminate.
  split; [exact H1|split; [exact H2|]].
  exact (load_more_twice_duplicates None (world_of None opening) second_page H1 H2).
Defined.

Lemma delete_loses_loaded_page_witness :
  card_of (Some sample_user) (home (world_of (Some sample_user) opening)) 1 = Some (sample_post 1) /\
  Home.load_more_visible (home (world_of (Some sample_user) opening)) = true /\
  exists w',
    run (Some sample_user) (world_of (Some sample_user) opening)
        [EDeleteClick 1 true; ELoadMore;
         EReply (S (length (inflight (world_of (Some sample_user) opening))))
                (RPage (Resolved second_page));
         EReply (length (inflight (world_of (Some sample_user) opening)))
                (RDeleted (Resolved tt))] = Some w' /\
    Home.posts (home w') =
      List.filter (keep_other 1) (Home.posts (home (world_of (Some sample_user) opening))) /\
    (forall q, q ∈ results second_page ->
       q ∉ Home.posts (home (world_of (Some sample_user) opening)) ->
       q ∉ Home.posts (home w')).
Proof.
  assert (H1 : card_of (Some sample_user) (home (world_of (Some sample_user) opening)) 1 =
               Some (sample_post 1)) by (vm_compute; reflexivity).
  assert (H2 : Home.load_more_visible (home (world_of (Some sample_user) opening)) = true)
    by (vm_compute; reflexivity).
  split; [exact H1|split; [exact H2|]].
  exact (delete_loses_loaded_page (Some sample_user) _ 1 (sample_post 1) second_page H1 H2).
Defined.

Lemma nonempty_feed_settles_witness :
  results first_page <> [] /\ results (page_of 3) <> [] /\
  exists w,
    run None init_world [EReply 0 (RPage (Resolved first_page)); EReply 0 (RPage (Resolved (page_of 3)))]
      = Some w /\
    idle w /\ Home.posts (home w) = results (page_of 3) /\
    requests (log w) = [Request GET "/posts/?" []; Request GET "/posts/?author=&ordering=-created_at" []].
Proof.
  split; [done|split; [done|]].
  apply (nonempty_feed_settles None first_page (page_of 3)); done.
Defined.
