(* ===== verification/PostDetail.v ===== *)
(** * PostDetail: one post with its comments ([pages/PostDetail.jsx])

    [Module PostDetail] holds the page's seven [useState] cells and its
    four handlers, each cut at its [await]: [fetchPost] (run by the
    effect on [[id]]), [handleLike], [handleCommentSubmit] and
    [handleDeletePost].  The route parameter [id] is the string of the
    URL.  [console.log(response.data)] in [fetchPost] is debugging output
    and is left out.

    Unlike the card of the feed, the like button of this page is never
    disabled: [Section LikeRace] lets the user click while a like request
    is in flight and lets the replies come in any order; the page then
    shows whichever reply came last, not the state of the last request.
    The comment form sends the text of the submitting render and clears
    the field when the reply comes, whatever was typed meanwhile. *)

From S2P Require Import Prelude Api Dom.

Module PostDetail.

Record state := mkState {
  post : option Post;
  comments : list Comment;
  newComment : string;
  loading : bool;
  commentLoading : bool;
  isLiked : bool;
  likesCount : nat
}.

Definition set_post (v : option Post) (s : state) : state :=
  mkState v (comments s) (newComment s) (loading s) (commentLoading s) (isLiked s) (likesCount s).
Definition set_comments (v : list Comment) (s : state) : state :=
  mkState (post s) v (newComment s) (loading s) (commentLoading s) (isLiked s) (likesCount s).
Definition set_newComment (v : string) (s : state) : state :=
  mkState (post s) (comments s) v (loading s) (commentLoading s) (isLiked s) (likesCount s).
Definition set_loading (v : bool) (s : state) : state :=
  mkState (post s) (comments s) (newComment s) v (commentLoading s) (isLiked s) (likesCount s).
Definition set_commentLoading (v : bool) (s : state) : state :=
  mkState (post s) (comments s) (newComment s) (loading s) v (isLiked s) (likesCount s).
Definition set_isLiked (v : bool) (s : state) : state :=
  mkState (post s) (comments s) (newComment s) (loading s) (commentLoading s) v (likesCount s).
Definition set_likesCount (v : nat) (s : state) : state :=
  mkState (post s) (comments s) (newComment s) (loading s) (commentLoading s) (isLiked s) v.

(** [useState(null)], [([])], [('')], [(true)], [(false)], [(false)], [(0)]. *)
Definition initial : state := mkState None [] "" true false false 0.

Definition post_url (id : string) : string := "/posts/" ^^ id ^^ "/".
Definition like_url (id : string) : string := "/posts/" ^^ id ^^ "/like/".
Definition comment_url (id : string) : string := "/posts/" ^^ id ^^ "/comment/".

(** [fetchPost] up to its [await]. *)
Definition fetchPost_start (id : string) : Handler state unit :=
  emit (Request GET (post_url id) []).

(** The rest of [fetchPost]: the post, its comments and its like state on
    success; a toast and [navigate('/')] on failure; [setLoading(false)]
    in [finally]. *)
Definition fetchPost_finish (r : outcome PostWithComments) : Handler state unit :=
  match r with
  | Resolved d =>
      modify (set_post (Some (pd_post d))) ;;
      modify (set_comments (pd_comments d)) ;;
      modify (set_isLiked (is_liked (pd_post d))) ;;
      modify (set_likesCount (likes_count (pd_post d)))
  | Rejected _ => emit (Toast ToastError "Failed to fetch post") ;; emit (Navigate "/")
  end ;;
  modify (set_loading false).

(** [handleLike] up to its [await]: no guard but the session. *)
Definition handleLike_start (user : option User) (id : string) : Handler state bool :=
  match user with
  | None => emit (Toast ToastError "Please login to like posts") ;; ret false
  | Some _ => emit (Request POST (like_url id) []) ;; ret true
  end.

Definition handleLike_finish (r : outcome LikeResp) : Handler state unit :=
  match r with
  | Resolved d => modify (set_isLiked (resp_is_liked d)) ;; modify (set_likesCount (resp_likes_count d))
  | Rejected _ => emit (Toast ToastError "Failed to like post")
  end.

(** [handleCommentSubmit] up to its [await]: the session, then
    [if (!newComment.trim()) return], then the request with the text of
    this render.  Returns whether a request was sent. *)
Definition handleCommentSubmit_start (user : option User) (id : string) : Handler state bool :=
  match user with
  | None => emit (Toast ToastError "Please login to comment") ;; ret false
  | Some _ =>
      s <- get ;;
      if negb (truthy (trim (newComment s))) then ret false
      else
        modify (set_commentLoading true) ;;
        emit (Request POST (comment_url id) [("content", newComment s)]) ;;
        ret true
  end.

(** The rest of [handleCommentSubmit]: [setComments([response.data,
    ...comments])] with the [comments] of the submitting render
    ([snapshot]), the field cleared and a toast; a toast on failure;
    [setCommentLoading(false)] in [finally]. *)
Definition handleCommentSubmit_finish (snapshot : list Comment) (r : outcome Comment)
    : Handler state unit :=
  match r with
  | Resolved c =>
      modify (set_comments (c :: snapshot)) ;;
      modify (set_newComment "") ;;
      emit (Toast ToastSuccess "Comment added successfully!")
  | Rejected _ => emit (Toast ToastError "Failed to add comment")
  end ;;
  modify (set_commentLoading false).

(** [onChange={(e) => setNewComment(e.target.value)}]. *)
Definition onChange_comment (value : string) : Handler state unit := modify (set_newComment value).

(** [handleDeletePost] up to its [await]: nothing unless confirmed. *)
Definition handleDeletePost_start (confirmed : bool) (id : string) : Handler state bool :=
  if confirmed then emit (Request DELETE (post_url id) []) ;; ret true else ret false.

Definition handleDeletePost_finish (r : outcome unit) : Handler state unit :=
  match r with
  | Resolved _ => emit (Toast ToastSuccess "Post deleted successfully") ;; emit (Navigate "/")
  | Rejected _ => emit (Toast ToastError "Failed to delete post")
  end.

(** What the page renders: the spinner, "Post not found", or the post. *)
Inductive view := VSpinner | VNotFound | VPost (p : Post).

Definition render (s : state) : view :=
  if loading s then VSpinner else match post s with None => VNotFound | Some p => VPost p end.

(** [disabled={commentLoading || !newComment.trim()}]. *)
Definition submit_enabled (s : state) : bool :=
  negb (commentLoading s || negb (truthy (trim (newComment s)))).

(** [likesCount === 1 ? 'Like' : 'Likes'] and the same for comments. *)
Definition likes_label (s : state) : string := if likesCount s =? 1 then "Like" else "Likes".
Definition comments_label (s : state) : string :=
  if length (comments s) =? 1 then "Comment" else "Comments".

(** [const canEdit = user && user.id === post.author.id]. *)
Definition canEdit (user : option User) (p : Post) : bool :=
  match user with Some u => u_id u =? us_id (author p) | None => false end.

(** One comment of the list. *)
Definition comment_dom (c : Comment) : node :=
  let a := comment_user c in
  Group [avatar (us_profile_picture a) (us_username a); Text (us_username a);
         DateText (comment_created_at c); Text (content c)].

(** The page: the spinner, "Post not found" with a link home, or the
    post with its like button and counts, then the comment form for a
    signed-in user (a login prompt otherwise) and the comments.  The Edit
    button of the header has no [onClick]. *)
Definition page_dom (user : option User) (s : state) : node :=
  match render s with
  | VSpinner => Group [Icon "spinner"]
  | VNotFound => Group [Text "Post not found"; Link "/" [Text "Back to Home"]]
  | VPost p =>
      let a := author p in
      let n := length (comments s) in
      Group [
        NavButton "/" [Text "Back to Posts"];
        Group ([avatar (us_profile_picture a) (us_username a); Text (us_username a);
                DateText (created_at p)] ++
               when (canEdit user p)
                 [Button "" true [Icon "Edit"]; Button "handleDeletePost" true [Icon "Trash2"]]);
        Text (title p);
        Group (when (truthy_opt (image p)) [Img (match image p with Some i => i | None => "" end) (title p)]);
        Text (caption p);
        Button "handleLike" true
          [Icon (if isLiked s then "Heart filled" else "Heart");
           Text (string_of_nat (likesCount s)); Text (likes_label s)];
        Group [Text (string_of_nat n); Text (comments_label s)];
        Text ("Comments (" ^^ string_of_nat n ^^ ")");
        match user with
        | Some u =>
            Group [avatar (u_profile_picture u) (u_username u);
                   Field "newComment" (newComment s);
                   Text (string_of_nat (String.length (newComment s)) ^^ "/1000 characters");
                   Button "handleCommentSubmit" (submit_enabled s)
                     [Text (if commentLoading s then "Posting..." else "Post Comment")]]
        | None =>
            Group [Text "Please login to join the conversation"; Link "/login" [Text "Login to Comment"]]
        end;
        Group (if 0 <? n then comment_dom <$> comments s
               else [Text "No comments yet. Be the first to share your thoughts!"])]
  end.

(** ** The comment form *)

(** C22: the comment handler sends a request exactly when a user is signed
    in and the text has a character that is not white space (JavaScript's
    white space, Unicode spaces included), and the
    request carries the text as typed; otherwise it changes no state and
    sends nothing. *)
Theorem comment_submit_guard user id s :
  let o := handleCommentSubmit_start user id s in
  o_val o = match user with
            | Some _ => negb (js_blank (newComment s))
            | None => false
            end /\
  (o_val o = false -> o_st o = s /\ requests (o_fx o) = []) /\
  (o_val o = true ->
   o_st o = set_commentLoading true s /\
   o_fx o = [Request POST (comment_url id) [("content", newComment s)]]).
Proof.
  destruct user as [u|]; cbn; [|done].
  unfold bind, get, ret, modify, emit; simpl. rewrite trim_truthy.
  by destruct (js_blank (newComment s)).
Qed.

(** C23: a comment that the service accepts is put before the comments the
    page showed, the field is cleared and one success toast shown; one
    that it rejects leaves the page exactly as before the submission. *)
Theorem comment_submit_reply u id s r :
  truthy (trim (newComment s)) = true -> commentLoading s = false ->
  let s1 := exec (handleCommentSubmit_start (Some u) id) s in
  handleCommentSubmit_finish (comments s) r s1 =
  match r with
  | Resolved c =>
      Out tt (mkState (post s) (c :: comments s) "" (loading s) false (isLiked s) (likesCount s))
          [Toast ToastSuccess "Comment added successfully!"]
  | Rejected _ => Out tt s [Toast ToastError "Failed to add comment"]
  end.
Proof.
  intros Ht Hc. destruct s as [p cs nc l cl il lc]; simpl in *; subst cl.
  unfold exec, handleCommentSubmit_start, bind, get; simpl. rewrite Ht. by destruct r.
Qed.

(** what the user types while the comment is being posted is lost: the
    reply clears the field, although the text that was sent is not the
    text in it. *)
Theorem comment_typed_meanwhile_lost u id s more c :
  truthy (trim (newComment s)) = true ->
  let s1 := exec (handleCommentSubmit_start (Some u) id) s in
  let s2 := exec (onChange_comment more) s1 in
  newComment (exec (handleCommentSubmit_finish (comments s) (Resolved c)) s2) = "" /\
  effects (handleCommentSubmit_start (Some u) id) s =
    [Request POST (comment_url id) [("content", newComment s)]].
Proof.
  intros Ht. unfold exec, effects, handleCommentSubmit_start, bind, get; simpl.
  rewrite Ht. done.
Qed.

(** ** The like button, clicked again before the reply *)

Section LikeRace.
Context (user : option User) (id : string).

Inductive like_event := DClick | DReply (i : nat) (r : outcome LikeResp).

(** The page, the numbers of the like requests in flight (in the order
    they were sent), the number of requests sent, and the effects. *)
Record page := mkPage {
  page_state : state;
  page_pending : list nat;
  page_sent : nat;
  page_log : list Effect
}.

(** A click needs the button, which is rendered with the post; a reply
    answers the [i]-th request in flight. *)
Definition like_step (pg : page) (e : like_event) : option page :=
  let s := page_state pg in
  match e with
  | DClick =>
      match render s with
      | VPost _ =>
          let o := handleLike_start user id s in
          Some (mkPage (o_st o)
                  (if o_val o then page_pending pg ++ [page_sent pg] else page_pending pg)
                  (if o_val o then S (page_sent pg) else page_sent pg) (page_log pg ++ o_fx o))
      | _ => None
      end
  | DReply i r =>
      match page_pending pg !! i with
      | Some _ =>
          let o := handleLike_finish r s in
          Some (mkPage (o_st o) (delete i (page_pending pg)) (page_sent pg) (page_log pg ++ o_fx o))
      | None => None
      end
  end.

Fixpoint like_run (pg : page) (es : list like_event) : option page :=
  match es with
  | [] => Some pg
  | e :: es' => match like_step pg e with Some pg' => like_run pg' es' | None => None end
  end.

(** The service toggles the like of the session and answers with the new
    state. *)
Definition server_toggle (d : LikeResp) : LikeResp :=
  if resp_is_liked d then mkLikeResp false (pred (resp_likes_count d))
  else mkLikeResp true (S (resp_likes_count d)).

(** C13: two clicks in a row on an unliked post both reach the service,
    which ends unliked; when its replies come back in the other order the
    page shows the post liked, with one like more than the service has. *)
Theorem like_replies_reordered u s p :
  user = Some u -> render s = VPost p -> isLiked s = false ->
  let d0 := mkLikeResp false (likesCount s) in
  let d1 := server_toggle d0 in
  let d2 := server_toggle d1 in
  exists pg,
    like_run (mkPage s [] 0 []) [DClick; DClick; DReply 1 (Resolved d2); DReply 0 (Resolved d1)]
      = Some pg /\
    page_log pg = [Request POST (like_url id) []; Request POST (like_url id) []] /\
    d2 = d0 /\
    isLiked (page_state pg) = true /\ likesCount (page_state pg) = S (likesCount s).
Proof.
  intros Hu Hr Hl. destruct s as [po cs nc lo cl il lc]; unfold render in Hr; simpl in *.
  destruct lo; [discriminate|]. destruct po as [q|]; [|discriminate]. subst il.
  cbn. rewrite Hu. cbn. eexists. split; [reflexivity|done].
Qed.

End LikeRace.

(** ** Concrete runs *)

Definition demo_author : UserSummary := mkUserSummary 2 "cy" None.
Definition demo_user : User := mkUser 9 "dee" "dee@example.org" "" None "2024-01-01" 0.
Definition demo_post : Post := mkPost 5 "t" "c" None demo_author "2024-01-01" 3 false 1.
Definition demo_comment : Comment := mkComment 1 demo_author "hi" "2024-01-02".

(** The page of post 5 once fetched, with "nice" in the comment field. *)
Definition shown : state := mkState (Some demo_post) [demo_comment] "nice" false false false 3.

Lemma comment_submit_reply_witness :
  truthy (trim (newComment shown)) = true /\ commentLoading shown = false /\
  handleCommentSubmit_finish (comments shown) (Rejected (mkApiError None))
    (exec (handleCommentSubmit_start (Some demo_user) "5") shown) =
  Out tt shown [Toast ToastError "Failed to add comment"].
Proof.
  split; [reflexivity|split; [reflexivity|]].
  apply (comment_submit_reply demo_user "5" shown (Rejected (mkApiError None))); reflexivity.
Defined.

Lemma comment_typed_meanwhile_lost_witness :
  truthy (trim (newComment shown)) = true /\
  newComment (exec (handleCommentSubmit_finish (comments shown) (Resolved demo_comment))
                (exec (onChange_comment "nice, and") (exec (handleCommentSubmit_start (Some demo_user) "5") shown)))
    = "" /\
  effects (handleCommentSubmit_start (Some demo_user) "5") shown =
    [Request POST (comment_url "5") [("content", "nice")]].
Proof.
  split; [reflexivity|].
  apply (comment_typed_meanwhile_lost demo_user "5" shown "nice, and" demo_comment). reflexivity.
Defined.

Lemma like_replies_reordered_witness :
  Some demo_user = Some demo_user /\ render shown = VPost demo_post /\ isLiked shown = false /\
  exists pg,
    like_run (Some demo_user) "5" (mkPage shown [] 0 [])
      [DClick; DClick; DReply 1 (Resolved (mkLikeResp false 3));
       DReply 0 (Resolved (mkLikeResp true 4))] = Some pg /\
    page_log pg = [Request POST (like_url "5") []; Request POST (like_url "5") []] /\
    mkLikeResp false 3 = mkLikeResp false 3 /\
    isLiked (page_state pg) = true /\ likesCount (page_state pg) = 4.
Proof.
  split; [reflexivity|split; [reflexivity|split; [reflexivity|]]].
  apply (like_replies_reordered (Some demo_user) "5" demo_user shown demo_post); reflexivity.
Defined.

(** A comment of non-breaking spaces (U+00A0, the bytes [C2 A0]) is
    white space for [trim]: the handler sends nothing. *)
Definition nbsp : string := String (ascii_of_nat 194) (String (ascii_of_nat 160) EmptyString).

Example nbsp_comment_refused :
  js_blank (nbsp ^^ " " ^^ nbsp) = true /\
  o_val (handleCommentSubmit_start (Some demo_user) "5"
           (exec (onChange_comment (nbsp ^^ " " ^^ nbsp)) initial)) = false.
Proof. split; vm_compute; reflexivity. Qed.

End PostDetail.
