(* ===== verification/CreatePost.v ===== *)
(** * CreatePost: the post composer ([pages/CreatePost.jsx])

    [Module CreatePost] holds the form ([formData] with [title], [caption]
    and [image]), the image preview and [loading], plus the [FileReader]s
    started by [handleChange] that have not finished: each one, when it
    finishes, runs [setImagePreview(reader.result)].  [handleSubmit] is
    cut at its [await].  A chosen file is a [File] with its name and the
    [data:] URL a reader produces for it.

    [preview_out_of_date] shows that the preview can show a file that is
    not the one the form will send. *)

From S2P Require Import Prelude Api Dom.

Module CreatePost.

Record File := mkFile { file_name : string; data_url : string }.

#[export] Instance File_eq_dec : EqDecision File.
Proof. solve_decision. Defined.

Record form := mkForm { title : string; caption : string; image : option File }.

Record state := mkState {
  formData : form;
  imagePreview : option string;
  loading : bool;
  readers : list File
}.

(** [useState({ title: '', caption: '', image: null })], [(null)], [(false)]. *)
Definition initial : state := mkState (mkForm "" "" None) None false [].

(** [setFormData({ ...formData, [name]: value })] for a text input; the
    form only has inputs named [title] and [caption], and no other
    property of [formData] is ever read. *)
Definition set_field (name value : string) (f : form) : form :=
  if String.eqb name "title" then mkForm value (caption f) (image f)
  else if String.eqb name "caption" then mkForm (title f) value (image f)
  else f.

(** [handleChange(e)] for a text input named [name]. *)
Definition handleChange_text (name value : string) : Handler state unit :=
  modify (fun s => mkState (set_field name value (formData s)) (imagePreview s) (loading s) (readers s)).

(** [handleChange(e)] for the file input: [file] is [e.target.files[0]];
    the form takes it, and a reader is started for it, or the preview is
    cleared when there is none. *)
Definition handleChange_image (file : option File) : Handler state unit :=
  modify (fun s =>
    let f := formData s in
    let s1 := mkState (mkForm (title f) (caption f) file) (imagePreview s) (loading s) (readers s) in
    match file with
    | Some fl => mkState (formData s1) (imagePreview s1) (loading s1) (readers s1 ++ [fl])
    | None => mkState (formData s1) None (loading s1) (readers s1)
    end).

(** The [i]-th reader in flight finishes: [reader.onloadend] sets the
    preview to its result, whatever the form holds now. *)
Definition reader_done (i : nat) : Handler state bool :=
  s <- get ;;
  match readers s !! i with
  | Some fl =>
      modify (fun s => mkState (formData s) (Some (data_url fl)) (loading s) (delete i (readers s))) ;;
      ret true
  | None => ret false
  end.

(** The [FormData] of [handleSubmit]: [title], [caption], and [image]
    when one is chosen (a file part, written here by its name). *)
Definition submit_body (f : form) : list (string * string) :=
  [("title", title f); ("caption", caption f)] ++
  match image f with Some fl => [("image", file_name fl)] | None => [] end.

(** [handleSubmit] up to its [await]: [setLoading(true)] and the
    multipart [POST /posts/]. *)
Definition handleSubmit_start : Handler state unit :=
  modify (fun s => mkState (formData s) (imagePreview s) true (readers s)) ;;
  s <- get ;;
  emit (Request POST "/posts/" (submit_body (formData s))).

Definition create_message (e : ApiError) : string :=
  js_or [data_field ed_detail e] "Failed to create post".

(** The rest of [handleSubmit]: a toast and [navigate('/')] on success,
    the service's [detail] or a default message on failure, and
    [setLoading(false)] in [finally]. *)
Definition handleSubmit_finish (r : outcome unit) : Handler state unit :=
  match r with
  | Resolved _ => emit (Toast ToastSuccess "Post created successfully!") ;; emit (Navigate "/")
  | Rejected e => emit (Toast ToastError (create_message e))
  end ;;
  modify (fun s => mkState (formData s) (imagePreview s) false (readers s)).

(** [disabled={loading || !formData.title.trim() || !formData.caption.trim()}]. *)
Definition submit_enabled (s : state) : bool :=
  negb (loading s || negb (truthy (trim (title (formData s))))
                  || negb (truthy (trim (caption (formData s))))).

(** The form: title, file input, the preview when there is one, caption
    with its character count, the submit button and "Cancel". *)
Definition view (s : state) : node :=
  let f := formData s in
  Group [
    Text "Create New Post";
    Field "title" (title f);
    Field "image" "";
    Group (match imagePreview s with
           | Some u => when (truthy u) [Img u "Preview"]
           | None => []
           end);
    Field "caption" (caption f);
    Text (string_of_nat (String.length (caption f)) ^^ "/2000 characters");
    Button "handleSubmit" (submit_enabled s)
      [Text (if loading s then "Publishing..." else "Publish Post")];
    NavButton "/" [Text "Cancel"]].

(** ** The image preview *)

(** The preview shows the chosen file, or nothing when none is chosen. *)
Definition preview_ok (s : state) : Prop :=
  imagePreview s = data_url <$> image (formData s).

(** C25: when each reader finishes before the next change of the form, the
    preview always shows the file that the form holds. *)
Theorem preview_sequential s file :
  readers s = [] -> preview_ok s ->
  let s1 := exec (handleChange_image file) s in
  let s2 := match file with Some _ => exec (reader_done 0) s1 | None => s1 end in
  preview_ok s2 /\ readers s2 = [] /\ image (formData s2) = file.
Proof.
  intros Hr Hp. destruct s as [[t c im] pv l rs]; simpl in *; subst rs.
  destruct file as [fl|]; unfold exec, reader_done, bind, get, modify; simpl; done.
Qed.

(** A text change keeps the preview right. *)
Lemma preview_text name value s :
  preview_ok s -> preview_ok (exec (handleChange_text name value) s).
Proof.
  unfold preview_ok, exec, handleChange_text, modify, set_field; simpl.
  destruct (String.eqb name "title"); [done|]. by destruct (String.eqb name "caption").
Qed.

(** C24: choosing a second file, or clearing the choice, while the reader of
    the first one is still working lets that reader overwrite the
    preview: the page then previews a file the form will not send. *)
Theorem preview_out_of_date s a b :
  readers s = [] ->
  (let s1 := exec (handleChange_image (Some a)) s in
   let s2 := exec (handleChange_image (Some b)) s1 in
   let s3 := exec (reader_done 1) s2 in
   let s4 := exec (reader_done 0) s3 in
   imagePreview s4 = Some (data_url a) /\ image (formData s4) = Some b /\ readers s4 = []) /\
  (let s1 := exec (handleChange_image (Some a)) s in
   let s2 := exec (handleChange_image None) s1 in
   let s3 := exec (reader_done 0) s2 in
   imagePreview s3 = Some (data_url a) /\ image (formData s3) = None /\ readers s3 = []).
Proof.
  intros Hr. destruct s as [[t c im] pv l rs]; simpl in *; subst rs.
  split; unfold exec, reader_done, bind, get, modify; simpl; done.
Qed.

(** ** Submitting *)

(** C26: submitting sends one multipart request with the title, the caption
    and the chosen image; on success the page shows a toast and goes
    home, on failure it shows the service's [detail] or a default
    message; either way [loading] ends false and the form is kept. *)
Theorem submit_run s r :
  let o1 := handleSubmit_start s in
  let o2 := handleSubmit_finish r (o_st o1) in
  o_fx o1 = [Request POST "/posts/" (submit_body (formData s))] /\
  loading (o_st o1) = true /\
  o_st o2 = mkState (formData s) (imagePreview s) false (readers s) /\
  o_fx o2 = match r with
            | Resolved _ => [Toast ToastSuccess "Post created successfully!"; Navigate "/"]
            | Rejected e => [Toast ToastError (create_message e)]
            end /\
  (forall e, r = Rejected e -> truthy (create_message e) = true).
Proof.
  split; [reflexivity|split; [reflexivity|]]. destruct r as [u|e]; simpl.
  - split; [reflexivity|split; [reflexivity|done]].
  - split; [reflexivity|split; [reflexivity|]]. intros e' [= <-].
    unfold create_message. destruct (js_or_cases [data_field ed_detail e] "Failed to create post")
      as [[-> _]|[H _]]; done.
Qed.

(** The submit button is enabled exactly when nothing is being sent and
    both the title and the caption have a character that is not white
    space. *)
Lemma submit_enabled_iff s :
  submit_enabled s = true <->
  loading s = false /\
  js_blank (title (formData s)) = false /\ js_blank (caption (formData s)) = false.
Proof.
  unfold submit_enabled. rewrite !trim_truthy, !negb_involutive.
  destruct (loading s), (js_blank (title _)), (js_blank (caption _)); simpl; naive_solver.
Qed.

(** ** Concrete runs *)

Definition photo_a : File := mkFile "a.png" "data:image/png;base64,QQ==".
Definition photo_b : File := mkFile "b.png" "data:image/png;base64,Qg==".

Lemma preview_sequential_witness :
  readers initial = [] /\ preview_ok initial /\
  preview_ok (exec (reader_done 0) (exec (handleChange_image (Some photo_a)) initial)) /\
  readers (exec (reader_done 0) (exec (handleChange_image (Some photo_a)) initial)) = [] /\
  image (formData (exec (reader_done 0) (exec (handleChange_image (Some photo_a)) initial))) =
    Some photo_a.
Proof.
  split; [reflexivity|split; [reflexivity|]].
  apply (preview_sequential initial (Some photo_a)); reflexivity.
Defined.

Lemma preview_out_of_date_witness :
  readers initial = [] /\
  imagePreview (exec (reader_done 0) (exec (reader_done 1)
    (exec (handleChange_image (Some photo_b)) (exec (handleChange_image (Some photo_a)) initial))))
    = Some (data_url photo_a).
Proof.
  split; [reflexivity|].
  apply (preview_out_of_date initial photo_a photo_b). reflexivity.
Defined.

End CreatePost.
