(* ===== verification/Auth.v ===== *)
(** * Auth: the session of [contexts/AuthContext.jsx]

    [Module Auth] holds the provider's React state ([user], [loading])
    and the two [localStorage] slots it reads and writes, and every
    handler of the file cut at its [await]: the mount effect
    ([mount_start], [fetchUserProfile_start]/[_finish]), [login],
    [register], [logout] and [updateProfile].  Error messages are the
    [||]-chains of the code over the fields of [error.response?.data].

    [Section Sequential] composes each operation with its reply when the
    reply arrives before the next user action ([op_step]); there the
    session never shows a user without a stored token, and every step is
    the transition the spec prescribes for that operation ([spec_next]).
    [Section Concurrent] lets replies arrive late ([astep]); a logout
    while a profile update is in flight ends with the user shown again
    and no token stored. *)

From S2P Require Import Prelude Api.

Module Auth.

(** The two slots of [localStorage] the provider uses. *)
Record storage := mkStorage { access_token : option string; refresh_token : option string }.

Inductive key := AccessToken | RefreshToken.

Record state := mkState { user : option User; loading : bool; store : storage }.

Definition set_user (v : option User) (s : state) : state := mkState v (loading s) (store s).
Definition set_loading (v : bool) (s : state) : state := mkState (user s) v (store s).

Definition write_slot (k : key) (v : option string) (st : storage) : storage :=
  match k with
  | AccessToken => mkStorage v (refresh_token st)
  | RefreshToken => mkStorage (access_token st) v
  end.

Definition read_slot (k : key) (st : storage) : option string :=
  match k with AccessToken => access_token st | RefreshToken => refresh_token st end.

(** [localStorage.setItem], [removeItem], [getItem]. *)
Definition setItem (k : key) (v : string) : Handler state unit :=
  modify (fun s => mkState (user s) (loading s) (write_slot k (Some v) (store s))).
Definition removeItem (k : key) : Handler state unit :=
  modify (fun s => mkState (user s) (loading s) (write_slot k None (store s))).
Definition getItem (k : key) : Handler state (option string) :=
  s <- get ;; ret (read_slot k (store s)).

(** [useState(null)], [useState(true)], with what the browser kept. *)
Definition initial (persisted : storage) : state := mkState None true persisted.

Definition fetchUserProfile_start : Handler state unit := emit (Request GET "/profile/" []).

(** The rest of [fetchUserProfile]: the user on success, both tokens
    removed on failure, [setLoading(false)] in [finally]. *)
Definition fetchUserProfile_finish (r : outcome User) : Handler state unit :=
  match r with
  | Resolved u => modify (set_user (Some u))
  | Rejected _ => removeItem AccessToken ;; removeItem RefreshToken
  end ;;
  modify (set_loading false).

(** The mount effect: [fetchUserProfile()] when a token is stored
    (truthy), else [setLoading(false)]; returns whether a request left. *)
Definition mount_start : Handler state bool :=
  token <- getItem AccessToken ;;
  if truthy_opt token then fetchUserProfile_start ;; ret true
  else modify (set_loading false) ;; ret false.

(** [{ success: true }] or [{ success: false, error: message }]. *)
Inductive result := Success | Failure (message : string).

Definition login_message (e : ApiError) : string :=
  js_or [first_of (data_field ed_non_field_errors e); data_field ed_detail e] "Login failed".

Definition register_message (e : ApiError) : string :=
  js_or [first_of (data_field ed_email e); first_of (data_field ed_password e);
         first_of (data_field ed_non_field_errors e)] "Registration failed".

Definition update_message (e : ApiError) : string :=
  js_or [data_field ed_detail e] "Update failed".

Definition login_start (email password : string) : Handler state unit :=
  emit (Request POST "/login/" [("email", email); ("password", password)]).

(** The success branch shared by [login] and [register]: both tokens,
    then the user, then the toast. *)
Definition store_session (d : AuthResp) (msg : string) : Handler state result :=
  setItem AccessToken (access d) ;;
  setItem RefreshToken (refresh d) ;;
  modify (set_user (Some (resp_user d))) ;;
  emit (Toast ToastSuccess msg) ;;
  ret Success.

Definition login_finish (r : outcome AuthResp) : Handler state result :=
  match r with
  | Resolved d => store_session d "Login successful!"
  | Rejected e => emit (Toast ToastError (login_message e)) ;; ret (Failure (login_message e))
  end.

Definition register_start (userData : list (string * string)) : Handler state unit :=
  emit (Request POST "/register/" userData).

Definition register_finish (r : outcome AuthResp) : Handler state result :=
  match r with
  | Resolved d => store_session d "Registration successful!"
  | Rejected e =>
      emit (Toast ToastError (register_message e)) ;; ret (Failure (register_message e))
  end.

(** [logout()]: both tokens removed, [setUser(null)], a toast. *)
Definition logout : Handler state unit :=
  removeItem AccessToken ;;
  removeItem RefreshToken ;;
  modify (set_user None) ;;
  emit (Toast ToastSuccess "Logged out successfully!").

Definition updateProfile_start (profileData : list (string * string)) : Handler state unit :=
  emit (Request PUT "/profile/" profileData).

Definition updateProfile_finish (r : outcome User) : Handler state result :=
  match r with
  | Resolved u =>
      modify (set_user (Some u)) ;;
      emit (Toast ToastSuccess "Profile updated successfully!") ;;
      ret Success
  | Rejected e => emit (Toast ToastError (update_message e)) ;; ret (Failure (update_message e))
  end.

(** The context value [{ user, loading, ... }] that every consumer reads. *)
Record context_value := mkContextValue { cv_user : option User; cv_loading : bool }.

Definition value (s : state) : context_value := mkContextValue (user s) (loading s).

(** ** The mount effect *)

(** C20: restoring with a stored token that the service rejects ends
    logged out with both slots cleared and the spinner gone; exactly one
    request was made and nothing else happened. *)
Theorem restore_rejected t rt e :
  truthy t = true ->
  let s0 := initial (mkStorage (Some t) rt) in
  effects mount_start s0 = [Request GET "/profile/" []] /\
  fetchUserProfile_finish (Rejected e) (exec mount_start s0) =
  Out tt (mkState None false (mkStorage None None)) [].
Proof. intros Ht. simpl. unfold exec, effects, mount_start, bind, getItem, get; simpl. by rewrite Ht. Qed.

(** Restoring with a token the service accepts shows its user. *)
Lemma restore_accepted t rt u :
  truthy t = true ->
  exec (fetchUserProfile_finish (Resolved u)) (exec mount_start (initial (mkStorage (Some t) rt))) =
  mkState (Some u) false (mkStorage (Some t) rt).
Proof. intros Ht. unfold exec, mount_start, bind, getItem, get; simpl. by rewrite Ht. Qed.

(** Without a truthy token no request is made and the session starts
    logged out. *)
Lemma restore_absent st :
  truthy_opt (access_token st) = false ->
  mount_start (initial st) = Out false (mkState None false st) [].
Proof. intros Ht. unfold mount_start, bind, getItem, get; simpl. by rewrite Ht. Qed.

(** ** Failures *)

(** C21: a failed login, registration or profile update changes neither
    the user nor the storage, reports a non-empty message and shows it in
    exactly one error toast. *)
Theorem auth_failures_keep_state e s :
  (exists m, truthy m = true /\ login_finish (Rejected e) s = Out (Failure m) s [Toast ToastError m]) /\
  (exists m, truthy m = true /\ register_finish (Rejected e) s = Out (Failure m) s [Toast ToastError m]) /\
  (exists m, truthy m = true /\ updateProfile_finish (Rejected e) s = Out (Failure m) s [Toast ToastError m]).
Proof.
  assert (Hm : forall l d, truthy d = true -> truthy (js_or l d) = true).
  { intros l d Hd. destruct (js_or_cases l d) as [[-> _]|[H _]]; done. }
  split; [exists (login_message e)|split; [exists (register_message e)|exists (update_message e)]];
    (split; [apply Hm; reflexivity|reflexivity]).
Qed.

(** [logout] empties both slots and the user whatever the state, and
    a second [logout] changes nothing more. *)
Theorem logout_clears s :
  exec logout s = mkState None (loading s) (mkStorage None None) /\
  exec logout (exec logout s) = exec logout s.
Proof. split; reflexivity. Qed.

(** ** The session when every reply comes before the next action *)

(** The statuses of the spec's session state machine, and the status a
    state of the provider shows. *)
Inductive status := Unauthenticated | Restoring | Authenticated | Expired.

Definition status_of (s : state) : status :=
  if loading s then Restoring
  else match user s with Some _ => Authenticated | None => Unauthenticated end.

(** A user action together with the reply to its request. *)
Inductive op :=
| OProfile (r : outcome User)
| OLogin (email password : string) (r : outcome AuthResp)
| ORegister (userData : list (string * string)) (r : outcome AuthResp)
| OLogout
| OUpdate (profileData : list (string * string)) (r : outcome User).

Definition has_user (s : state) : bool := match user s with Some _ => true | None => false end.

(** The guards are the screens that offer each action: nothing but the
    spinner while [loading] ([App.jsx]); Login and Register only without
    a user (the routes redirect otherwise); the Navbar's logout and the
    Profile page only with one. *)
Definition op_step (s : state) (o : op) : option state :=
  match o with
  | OProfile r => if loading s then Some (exec (fetchUserProfile_finish r) s) else None
  | OLogin em pw r =>
      if negb (loading s) && negb (has_user s)
      then Some (exec (login_start em pw ;; login_finish r) s) else None
  | ORegister d r =>
      if negb (loading s) && negb (has_user s)
      then Some (exec (register_start d ;; register_finish r) s) else None
  | OLogout => if negb (loading s) && has_user s then Some (exec logout s) else None
  | OUpdate d r =>
      if negb (loading s) && has_user s
      then Some (exec (updateProfile_start d ;; updateProfile_finish r) s) else None
  end.

Fixpoint op_run (s : state) (os : list op) : option state :=
  match os with
  | [] => Some s
  | o :: os' => match op_step s o with Some s' => op_run s' os' | None => None end
  end.

(** The operations of the spec's session store (section 4.1), each with
    the status it starts from and the status it ends in: [restore]'s
    validation ends authenticated on success and unauthenticated on
    failure; [login] and [register] start unauthenticated and end
    authenticated exactly on success; [logout] ends unauthenticated from
    any status; [updateIdentity] stays authenticated.  [None]: the spec
    does not offer the operation in that status.  The transition to
    [Expired] is made by the request gateway (section 4.2), which the
    repository does not hold, so no operation here leads to it. *)
Definition spec_next (st : status) (o : op) : option status :=
  match o, st with
  | OProfile (Resolved _), Restoring => Some Authenticated
  | OProfile (Rejected _), Restoring => Some Unauthenticated
  | OLogin _ _ (Resolved _), Unauthenticated | ORegister _ (Resolved _), Unauthenticated =>
      Some Authenticated
  | OLogin _ _ (Rejected _), Unauthenticated | ORegister _ (Rejected _), Unauthenticated =>
      Some Unauthenticated
  | OLogout, _ => Some Unauthenticated
  | OUpdate _ _, Authenticated => Some Authenticated
  | _, _ => None
  end.

(** The provider after its mount effect. *)
Definition boot (persisted : storage) : state := exec mount_start (initial persisted).

(** The session never shows a user without a stored access token, and
    while restoring it shows none and holds a token. *)
Definition session_inv (s : state) : Prop :=
  (user s <> None -> access_token (store s) <> None) /\
  (loading s = true -> user s = None /\ access_token (store s) <> None).

Lemma boot_inv persisted : session_inv (boot persisted).
Proof.
  unfold boot, exec, mount_start, bind, getItem, get; simpl.
  destruct (access_token persisted) as [t|] eqn:Ht; simpl; [destruct (truthy t)|];
    split; simpl; try done; intros _; split; [done|by rewrite Ht].
Qed.

Lemma op_step_inv s o s' : session_inv s -> op_step s o = Some s' -> session_inv s'.
Proof.
  intros [Hu Hl] H.
  destruct o as [r|em pw r|d r| |d r]; unfold op_step, has_user in H;
    destruct (loading s) eqn:E; destruct (user s) as [u|] eqn:Eu; simpl in H;
    try discriminate H; inversion H; clear H; subst;
    unfold exec, bind; simpl; try (destruct r; simpl).
  all: split; simpl; try done.
  all: try (intros _; apply Hl; done).
  all: try (intros _; apply Hu; by rewrite Eu).
  all: try (rewrite E; done).
  all: try (intros _; destruct (Hl eq_refl); congruence).
  all: try (intros _; by destruct (Hl E)).
  all: intros _; apply Hu; congruence.
Qed.

(** C4: when every reply arrives before the next action, no sequence of
    restores, logins, registrations, logouts and profile updates ever
    shows a user without a stored access token. *)
Theorem sequential_session_inv persisted os s :
  op_run (boot persisted) os = Some s -> session_inv s.
Proof.
  generalize (boot_inv persisted). generalize (boot persisted).
  induction os as [|o os IH]; intros s0 H0; simpl; [by intros [= <-]|].
  destruct (op_step s0 o) as [s1|] eqn:E; [|done].
  apply IH. by eapply op_step_inv.
Qed.

(** C11: each sequential operation, with its reply, makes the transition
    the spec prescribes for that operation and that reply: a restore ends
    authenticated when the profile comes back and unauthenticated when it
    is refused, a login or registration ends authenticated exactly when it
    succeeds, a logout ends unauthenticated, a profile update stays
    authenticated whatever its reply.  The states are those of the
    session invariant, which every sequential run keeps. *)
Theorem op_step_refines s o s' :
  session_inv s -> op_step s o = Some s' -> spec_next (status_of s) o = Some (status_of s').
Proof.
  intros [_ Hl] H. unfold status_of.
  destruct o as [r|em pw r|d r| |d r]; unfold op_step, has_user in H;
    destruct (loading s) eqn:E; destruct (user s) as [u|] eqn:Eu; simpl in H;
    try discriminate H; inversion H; clear H; subst;
    unfold exec, bind; simpl; try (destruct r; simpl);
    rewrite ?E, ?Eu; try reflexivity.
  all: by destruct (Hl eq_refl).
Qed.

(** ** Replies that come late *)

Section Concurrent.

(** The requests of the provider that wait for a reply. *)
Inductive pend := PProfile | PLogin | PRegister | PUpdate.

#[global] Instance pend_eq_dec : EqDecision pend.
Proof. solve_decision. Defined.

Inductive areply := RUser (r : outcome User) | RAuth (r : outcome AuthResp).

(** A user action that starts a request, [logout], or the reply to the
    [i]-th pending request. *)
Inductive aevent :=
| EStartLogin (email password : string)
| EStartRegister (userData : list (string * string))
| EStartUpdate (profileData : list (string * string))
| ELogout
| EReply (i : nat) (r : areply).

Record world := mkWorld { sess : state; pending : list pend; wlog : list Effect }.

(** The continuation of a pending request for a reply of its type. *)
Definition deliver (p : pend) (r : areply) : option (Handler state unit) :=
  match p, r with
  | PProfile, RUser r => Some (fetchUserProfile_finish r)
  | PLogin, RAuth r => Some (login_finish r ;; ret tt)
  | PRegister, RAuth r => Some (register_finish r ;; ret tt)
  | PUpdate, RUser r => Some (updateProfile_finish r ;; ret tt)
  | _, _ => None
  end.

Definition run_h {A} (h : Handler state A) (w : world) (ps : list pend) : world :=
  let o := h (sess w) in mkWorld (o_st o) ps (wlog w ++ o_fx o).

(** The same guards as [op_step]; nothing stops an action while a request
    of the provider is in flight, since the provider has no such guard. *)
Definition astep (w : world) (e : aevent) : option world :=
  let s := sess w in
  match e with
  | EStartLogin em pw =>
      if negb (loading s) && negb (has_user s)
      then Some (run_h (login_start em pw) w (pending w ++ [PLogin])) else None
  | EStartRegister d =>
      if negb (loading s) && negb (has_user s)
      then Some (run_h (register_start d) w (pending w ++ [PRegister])) else None
  | EStartUpdate d =>
      if negb (loading s) && has_user s
      then Some (run_h (updateProfile_start d) w (pending w ++ [PUpdate])) else None
  | ELogout => if negb (loading s) && has_user s then Some (run_h logout w (pending w)) else None
  | EReply i r =>
      match pending w !! i with
      | Some p =>
          match deliver p r with
          | Some h => Some (run_h h w (delete i (pending w)))
          | None => None
          end
      | None => None
      end
  end.

Fixpoint arun (w : world) (es : list aevent) : option world :=
  match es with
  | [] => Some w
  | e :: es' => match astep w e with Some w' => arun w' es' | None => None end
  end.

(** The provider after its mount effect, with the profile request pending
    when one was sent. *)
Definition aboot (persisted : storage) : world :=
  let o := mount_start (initial persisted) in
  mkWorld (o_st o) (if o_val o then [PProfile] else []) (o_fx o).

(** The shape of the pending requests: while restoring, only the profile
    request; otherwise no profile request. *)
Definition pending_ok (w : world) : Prop :=
  (loading (sess w) = true -> pending w = [PProfile]) /\
  (loading (sess w) = false -> PProfile ∉ pending w).

(** The late profile-update reply: the one step that can show a user
    while no token is stored. *)
Definition late_update (w : world) (e : aevent) : Prop :=
  exists i u', e = EReply i (RUser (Resolved u')) /\ pending w !! i = Some PUpdate /\
               access_token (store (sess w)) = None.

Lemma deliver_not_profile p r h s :
  p <> PProfile -> deliver p r = Some h ->
  loading (exec h s) = loading s /\
  ((exec h s = s /\ forall u', r <> RUser (Resolved u')) \/
   (p <> PUpdate /\ user (exec h s) <> None /\ access_token (store (exec h s)) <> None) \/
   (p = PUpdate /\ exists u', r = RUser (Resolved u') /\ exec h s = set_user (Some u') s)).
Proof.
  intros Hp. destruct p, r as [[]|[]]; simpl; intros [= <-]; try done;
    unfold exec, bind; simpl; (split; [done|]).
  all: first [left; split; [done|intros ? [=]]
             |right; left; done
             |right; right; split; [done|eexists; done]].
Qed.

Lemma astep_pending_ok w e w' :
  pending_ok w -> astep w e = Some w' -> pending_ok w'.
Proof.
  intros [Hl Hn]. destruct e as [em pw|d|d| |i r]; simpl; unfold has_user.
  all: try (intros H; destruct (loading (sess w)) eqn:E; simpl in H; [discriminate|];
            destruct (user (sess w)); simpl in H; inversion H; clear H; subst;
            split; simpl; rewrite ?E; try done;
            first [intros _ [Hin|Hin]%elem_of_app;
                   [by apply Hn|by apply list_elem_of_singleton in Hin]
                  |intros _; by apply Hn]).
  destruct (pending w !! i) as [p|] eqn:Ei; [|done].
  destruct (deliver p r) as [h|] eqn:Eh; [|done]. intros [= <-].
  destruct (decide (p = PProfile)) as [->|Hp].
  - destruct (loading (sess w)) eqn:E.
    + rewrite (Hl eq_refl) in Ei |- *. apply list_lookup_singleton_Some in Ei as [-> _].
      destruct r as [[]|]; simpl in Eh; inversion Eh; subst; split; simpl; unfold exec, bind;
        simpl; [done|set_solver|done|set_solver].
    + exfalso. apply (Hn eq_refl). by eapply list_elem_of_lookup_2.
  - destruct (deliver_not_profile p r h (sess w) Hp Eh) as [HL _]. unfold run_h. split; simpl.
    + unfold exec in HL. rewrite HL. intros E. rewrite (Hl E) in Ei.
      apply list_lookup_singleton_Some in Ei as [_ ?]. congruence.
    + unfold exec in HL. rewrite HL. intros E Hin. apply (Hn E).
      by eapply list_elem_of_delete_inv.
Qed.

Lemma reply_not_loading w i p :
  pending_ok w -> pending w !! i = Some p -> p <> PProfile -> loading (sess w) = false.
Proof.
  intros [Hl _] Ei Hp. destruct (loading (sess w)) eqn:E; [|done].
  rewrite (Hl eq_refl) in Ei. apply list_lookup_singleton_Some in Ei as [_ ?]. congruence.
Qed.

(** C3: with replies arriving in any order, every step keeps the session
    from showing a user without a stored token, except exactly one: the
    reply of a profile update that arrives after a logout emptied the
    storage. *)
Theorem astep_session_inv w e w' :
  session_inv (sess w) -> pending_ok w -> astep w e = Some w' ->
  session_inv (sess w') <-> ~ late_update w e.
Proof.
  intros [Hu Hl] Hok H. destruct e as [em pw|d|d| |i r]; unfold astep, has_user in H.
  1-4: destruct (loading (sess w)) eqn:E; simpl in H; [discriminate|];
    destruct (user (sess w)) eqn:Eu; simpl in H; inversion H; clear H; subst;
    (split; [intros _ (?&?&?&?); discriminate|intros _]);
    split; unfold run_h; simpl; try done; by rewrite ?E, ?Eu.
  destruct (pending w !! i) as [p|] eqn:Ei; [|done].
  destruct (deliver p r) as [h|] eqn:Eh; [|done]. injection H as <-. unfold run_h; simpl.
  destruct (decide (p = PProfile)) as [->|Hp].
  - split; [intros _ (?&?&[=]&Hi&_); congruence|intros _].
    destruct (loading (sess w)) eqn:E;
      [|exfalso; apply (proj2 Hok E); by eapply list_elem_of_lookup_2].
    destruct (Hl eq_refl) as [Hn Ht].
    destruct r as [[]|]; simpl in Eh; inversion Eh; subst; unfold exec, bind; split; simpl;
      rewrite ?Hn; done.
  - pose proof (reply_not_loading w i p Hok Ei Hp) as E.
    destruct (deliver_not_profile p r h (sess w) Hp Eh)
      as [HL [[Hs Hr]|[(Hpu & Hu' & Ht')|(-> & u' & -> & Hs)]]]; unfold exec in *.
    + rewrite Hs. split; [intros _ (?&u'&[= ->]&_); by apply (Hr u')|done].
    + split; [intros _ (?&?&?&?&?); congruence|intros _; split; [done|congruence]].
    + rewrite Hs. split.
      * intros [Hu2 _] (j&u2&[=]&_&Ht). subst. by apply Hu2.
      * intros Hnl. split; simpl; [|by rewrite E]. intros _ Ht. apply Hnl. by exists i, u'.
Qed.

(** C10: the race.  A signed-in user saves the profile form and, before the
    reply, logs out from the Navbar: the reply then shows the user again
    with both tokens gone, and the toasts say "Logged out" and then
    "Profile updated". *)
Theorem logout_update_race w u d u' :
  loading (sess w) = false -> user (sess w) = Some u ->
  arun w [EStartUpdate d; ELogout; EReply (length (pending w)) (RUser (Resolved u'))] =
  Some (mkWorld (mkState (Some u') false (mkStorage None None)) (pending w)
          (wlog w ++ [Request PUT "/profile/" d; Toast ToastSuccess "Logged out successfully!";
                      Toast ToastSuccess "Profile updated successfully!"])) /\
  ~ session_inv (mkState (Some u') false (mkStorage None None)).
Proof.
  intros Hl Hu. split; [|intros [H _]; by apply H].
  destruct w as [[su sl sst] ps lg]; simpl in *; subst.
  unfold arun, astep, has_user, run_h; simpl.
  rewrite lookup_app_r, Nat.sub_diag by done; simpl.
  rewrite delete_middle, app_nil_r, <- !app_assoc. reflexivity.
Qed.

End Concurrent.

(** ** Concrete runs *)

Definition demo_user : User := mkUser 3 "bo" "bo@example.org" "" None "2024-01-01" 0.

(** The provider restored from a stored token, then signed in. *)
Definition signed_in : world :=
  mkWorld (mkState (Some demo_user) false (mkStorage (Some "t") (Some "r"))) [] [].

Lemma restore_rejected_witness :
  truthy "t" = true /\
  let s0 := initial (mkStorage (Some "t") None) in
  effects mount_start s0 = [Request GET "/profile/" []] /\
  fetchUserProfile_finish (Rejected (mkApiError None)) (exec mount_start s0) =
  Out tt (mkState None false (mkStorage None None)) [].
Proof. split; [reflexivity|]. apply (restore_rejected "t" None). reflexivity. Defined.

Lemma sequential_session_inv_witness :
  op_run (boot (mkStorage (Some "t") None)) [OProfile (Resolved demo_user); OLogout] =
    Some (mkState None false (mkStorage None None)) /\
  session_inv (mkState None false (mkStorage None None)).
Proof.
  split; [vm_compute; reflexivity|].
  apply (sequential_session_inv (mkStorage (Some "t") None) [OProfile (Resolved demo_user); OLogout]).
  vm_compute. reflexivity.
Defined.

Lemma op_step_refines_witness :
  spec_next (status_of (boot (mkStorage (Some "t") None))) (OProfile (Resolved demo_user)) =
  Some (status_of (exec (fetchUserProfile_finish (Resolved demo_user))
                        (boot (mkStorage (Some "t") None)))).
Proof.
  apply (op_step_refines _ (OProfile (Resolved demo_user))); [apply boot_inv|vm_compute; reflexivity].
Defined.

Lemma astep_session_inv_witness :
  session_inv (sess (run_h (updateProfile_finish (Resolved demo_user) ;; ret tt)
                           (run_h logout signed_in [PUpdate]) [])) <->
  ~ late_update (run_h logout signed_in [PUpdate]) (EReply 0 (RUser (Resolved demo_user))).
Proof.
  apply (astep_session_inv _ _ (run_h (updateProfile_finish (Resolved demo_user) ;; ret tt)
                                      (run_h logout signed_in [PUpdate]) [])).
  - split; simpl; [done|intros [=]].
  - split; simpl; [intros [=]|intros _; set_solver].
  - vm_compute. reflexivity.
Defined.

Lemma logout_update_race_witness :
  loading (sess signed_in) = false /\ user (sess signed_in) = Some demo_user /\
  arun signed_in [EStartUpdate []; ELogout; EReply 0 (RUser (Resolved demo_user))] =
  Some (mkWorld (mkState (Some demo_user) false (mkStorage None None)) []
          ([] ++ [Request PUT "/profile/" []; Toast ToastSuccess "Logged out successfully!";
                  Toast ToastSuccess "Profile updated successfully!"])).
Proof.
  split; [reflexivity|split; [reflexivity|]].
  apply (logout_update_race signed_in demo_user [] demo_user); reflexivity.
Defined.

End Auth.
