(* ===== verification/Profile.v ===== *)
(** * Profile: the profile page ([pages/Profile.jsx]) and what it needs
    of the session

    The page reads [user] and calls [updateProfile] of the auth context.
    [ProfileApi] states what it uses of the context and [ProfileApiLaws]
    what it relies on: [updateProfile] sends one [PUT /profile/] with the
    form, and its result says [success] exactly when the user was
    replaced by the service's answer.  [Module Profile] models the page
    over any such context, and its theorems are proved from the laws
    only; the instance for [Auth] discharges them from the handlers of
    [AuthContext.jsx]. *)

From S2P Require Import Prelude Api Auth.

(** What the page uses of the auth context. *)
Class ProfileApi (S : Type) := {
  api_user : S -> option User;
  api_updateProfile_start : list (string * string) -> Handler S unit;
  api_updateProfile_finish : outcome User -> Handler S Auth.result
}.

(** What the page relies on. *)
Class ProfileApiLaws (S : Type) `{!ProfileApi S} := {
  api_start_spec d s : api_updateProfile_start d s = Out tt s [Request PUT "/profile/" d];
  api_finish_ok u s :
    o_val (api_updateProfile_finish (Resolved u) s) = Auth.Success /\
    api_user (o_st (api_updateProfile_finish (Resolved u) s)) = Some u;
  api_finish_err e s :
    exists m, o_val (api_updateProfile_finish (Rejected e) s) = Auth.Failure m /\
              o_st (api_updateProfile_finish (Rejected e) s) = s
}.

#[export] Instance auth_profile_api : ProfileApi Auth.state := {
  api_user := Auth.user;
  api_updateProfile_start := Auth.updateProfile_start;
  api_updateProfile_finish := Auth.updateProfile_finish
}.

#[export] Instance auth_profile_laws : ProfileApiLaws Auth.state.
Proof.
  split.
  - reflexivity.
  - intros u s. split; reflexivity.
  - intros e s. eexists. split; reflexivity.
Qed.

Module Profile.

Record form := mkForm { username : string; bio : string }.

Record state := mkState { isEditing : bool; formData : form; loading : bool }.

(** [{ username: user?.username || '', bio: user?.bio || '' }]. *)
Definition form_of (user : option User) : form :=
  match user with
  | Some u => mkForm (u_username u) (u_bio u)
  | None => mkForm "" ""
  end.

Definition initial (user : option User) : state := mkState false (form_of user) false.

(** [setFormData({ ...formData, [name]: value })]: the inputs are named
    [username] and [bio]. *)
Definition handleChange (name value : string) (s : state) : state :=
  let f := formData s in
  let f' := if String.eqb name "username" then mkForm value (bio f)
            else if String.eqb name "bio" then mkForm (username f) value
            else f in
  mkState (isEditing s) f' (loading s).

(** The [Edit Profile] button: [setIsEditing(true)]. *)
Definition startEditing (s : state) : state := mkState true (formData s) (loading s).

(** [handleCancel()]: the form reset from the current user, editing off. *)
Definition handleCancel (user : option User) (s : state) : state :=
  mkState false (form_of user) (loading s).

(** The object [updateProfile(formData)] sends. *)
Definition profile_body (f : form) : list (string * string) :=
  [("username", username f); ("bio", bio f)].

Section Page.
Context {Sv : Type} `{!ProfileApi Sv}.

(** The context and the page together. *)
Record world := mkWorld { provider : Sv; page : state }.

Definition on_provider {A} (h : Handler Sv A) : Handler world A :=
  fun w => let o := h (provider w) in Out (o_val o) (mkWorld (o_st o) (page w)) (o_fx o).

Definition on_page (f : state -> state) : Handler world unit :=
  modify (fun w => mkWorld (provider w) (f (page w))).

(** [handleSubmit] up to the [await] inside [updateProfile]. *)
Definition handleSubmit_start : Handler world unit :=
  on_page (fun s => mkState (isEditing s) (formData s) true) ;;
  w <- get ;;
  on_provider (api_updateProfile_start (profile_body (formData (page w)))).

(** The rest: [updateProfile] finishes, then [if (result.success)
    setIsEditing(false)] and [setLoading(false)]. *)
Definition handleSubmit_finish (r : outcome User) : Handler world unit :=
  res <- on_provider (api_updateProfile_finish r) ;;
  match res with
  | Auth.Success => on_page (fun s => mkState false (formData s) (loading s))
  | Auth.Failure _ => ret tt
  end ;;
  on_page (fun s => mkState (isEditing s) (formData s) false).

(** [if (!user) return null]; then the form or the details. *)
Inductive view := VNothing | VForm (f : form) | VDetails (u : User).

Definition render (w : world) : view :=
  match api_user (provider w) with
  | None => VNothing
  | Some u => if isEditing (page w) then VForm (formData (page w)) else VDetails u
  end.

(** [user.bio || 'No bio available'] and [user.posts_count || 0]. *)
Definition bio_text (u : User) : string := js_or [Some (u_bio u)] "No bio available".
Definition posts_text (u : User) : nat := u_posts_count u.

End Page.

Section Laws.
Context {Sv : Type} `{!ProfileApi Sv} `{!ProfileApiLaws Sv}.

Lemma submit_start_run (w : world) :
  handleSubmit_start w =
  Out tt (mkWorld (provider w) (mkState (isEditing (page w)) (formData (page w)) true))
      [Request PUT "/profile/" (profile_body (formData (page w)))].
Proof.
  unfold handleSubmit_start, on_page, on_provider, bind, get, modify; simpl.
  by rewrite api_start_spec.
Qed.

(** C27: against any auth context that keeps the laws: saving the profile
    sends the form's [username] and [bio] in one request; when the
    service accepts, the page leaves the form and shows the returned
    user; when it rejects, the page stays as it was with the typed form
    kept and the session untouched; either way the button is enabled
    again. *)
Theorem profile_submit (w : world) r :
  let w1 := exec handleSubmit_start w in
  let w2 := exec (handleSubmit_finish r) w1 in
  effects handleSubmit_start w = [Request PUT "/profile/" (profile_body (formData (page w)))] /\
  loading (page w1) = true /\
  loading (page w2) = false /\ formData (page w2) = formData (page w) /\
  match r with
  | Resolved u => isEditing (page w2) = false /\ render w2 = VDetails u
  | Rejected _ => isEditing (page w2) = isEditing (page w) /\ provider w2 = provider w
  end.
Proof.
  unfold exec, effects. rewrite submit_start_run. simpl.
  split; [done|split; [done|]].
  unfold handleSubmit_finish, on_page, on_provider, bind, modify, ret, render; simpl.
  destruct r as [u|e].
  - destruct (api_finish_ok u (provider w)) as [-> Hu]. simpl. by rewrite Hu.
  - destruct (api_finish_err e (provider w)) as (m & -> & Hs). simpl. by rewrite Hs.
Qed.

End Laws.

(** ** The page over the provider of [AuthContext.jsx] *)

Definition demo_user : User := mkUser 4 "eve" "eve@example.org" "hi" None "2024-01-01" 2.

Definition editing_eve : world :=
  mkWorld (Auth.mkState (Some demo_user) false (Auth.mkStorage (Some "t") (Some "r")))
          (mkState true (mkForm "eve2" "hello") false).

Lemma profile_submit_witness :
  let w1 := exec handleSubmit_start editing_eve in
  let w2 := exec (handleSubmit_finish (Resolved (mkUser 4 "eve2" "eve@example.org" "hello" None "2024-01-01" 2))) w1 in
  effects handleSubmit_start editing_eve =
    [Request PUT "/profile/" [("username", "eve2"); ("bio", "hello")]] /\
  loading (page w1) = true /\
  loading (page w2) = false /\ formData (page w2) = formData (page editing_eve) /\
  isEditing (page w2) = false /\
  render w2 = VDetails (mkUser 4 "eve2" "eve@example.org" "hello" None "2024-01-01" 2).
Proof.
  exact (profile_submit editing_eve
           (Resolved (mkUser 4 "eve2" "eve@example.org" "hello" None "2024-01-01" 2))).
Defined.

End Profile.
