(* ===== verification/Routing.v ===== *)
(** * Routing: the routes of [App.jsx] and the links of [Navbar.jsx]

    [App] shows a spinner while the session is [loading]; otherwise the
    [Navbar] and the [<Routes>] of the current path.  Four routes are
    guarded by the session: [/login] and [/register] redirect a signed-in
    user to [/], [/profile] and [/create-post] redirect everybody else to
    [/login].  A [<Navigate>] replaces the location, so the routes are
    matched again; [resolve] follows redirections with a fuel of two,
    which [resolve_no_loop] shows is always enough; [resolve_equiv] shows
    that it computes exactly the unbounded relational semantics
    [resolves] of the routes.

    Paths are matched by their non-empty segments, so a trailing or a
    doubled slash does not matter, as in React Router; its matching is
    also case-insensitive, which is not modelled (every link of the
    application is lower case).

    [Module Navbar] holds the menu state, the links for a session, and
    [handleLogout], which calls the provider's [logout] of [Auth.v]. *)

From S2P Require Import Prelude Api QueryString Auth.

Module Routing.

Inductive page := PHome | PLogin | PRegister | PProfile | PCreatePost | PPostDetail (id : string).

#[export] Instance page_eq_dec : EqDecision page.
Proof. solve_decision. Defined.

(** The element of a route: a page, or a [<Navigate to=...>]. *)
Inductive element := Render (p : page) | Redirect (to : string).

(** The non-empty segments of a path. *)
Definition segments (path : string) : list string :=
  List.filter truthy (split_on "/" path).

(** [<Routes>]: the element of the route the path matches, [None] when
    no route matches (the [<main>] is then empty). *)
Definition route (user : option User) (path : string) : option element :=
  let signed_in := match user with Some _ => true | None => false end in
  match segments path with
  | [] => Some (Render PHome)
  | [seg] =>
      if String.eqb seg "login" then
        Some (if signed_in then Redirect "/" else Render PLogin)
      else if String.eqb seg "register" then
        Some (if signed_in then Redirect "/" else Render PRegister)
      else if String.eqb seg "profile" then
        Some (if signed_in then Render PProfile else Redirect "/login")
      else if String.eqb seg "create-post" then
        Some (if signed_in then Render PCreatePost else Redirect "/login")
      else None
  | [seg; id] => if String.eqb seg "posts" then Some (Render (PPostDetail id)) else None
  | _ => None
  end.

(** What the application shows. *)
Inductive screen := SSpinner | SPage (p : page) | SBlank | SLoop.

(** Match, follow [<Navigate>] at most [fuel] times. *)
Fixpoint follow (fuel : nat) (user : option User) (path : string) : screen :=
  match route user path with
  | None => SBlank
  | Some (Render p) => SPage p
  | Some (Redirect to) => match fuel with 0 => SLoop | S f => follow f user to end
  end.

(** [App]: [if (loading) return <spinner/>], else the routes. *)
Definition resolve (user : option User) (loading : bool) (path : string) : screen :=
  if loading then SSpinner else follow 2 user path.

(** ** Redirections *)

(** A route redirects a signed-in user to [/] and anybody else to
    [/login], nowhere else. *)
Lemma route_redirect user path to :
  route user path = Some (Redirect to) ->
  (to = "/" /\ user <> None) \/ (to = "/login" /\ user = None).
Proof.
  unfold route. destruct (segments path) as [|seg [|id [|]]]; [done| |by destruct String.eqb|done].
  repeat (destruct String.eqb; [destruct user; intros [= <-]; auto|]). done.
Qed.

(** A route renders a guarded page only for the session it is meant for. *)
Lemma route_render user path p :
  route user path = Some (Render p) ->
  (p = PProfile \/ p = PCreatePost -> user <> None) /\
  (p = PLogin \/ p = PRegister -> user = None).
Proof.
  unfold route. destruct (segments path) as [|seg [|id [|]]]; [intros [= <-]; naive_solver| | |done].
  - repeat (destruct String.eqb; [destruct user; intros [= <-]; naive_solver|]). done.
  - destruct String.eqb; [intros [= <-]; naive_solver|done].
Qed.



(** C28: once the session is known, the profile page and the composer are
    shown only to a signed-in user and the login and registration pages
    only to a visitor, whatever path was asked for. *)
Theorem resolve_guards user path p :
  resolve user false path = SPage p ->
  (p = PProfile \/ p = PCreatePost -> user <> None) /\
  (p = PLogin \/ p = PRegister -> user = None).
Proof.
  unfold resolve. simpl.
  destruct (route user path) as [[q|to]|] eqn:E; [intros [= <-]; by eapply route_render| |done].
  destruct (route user to) as [[q|to']|] eqn:E2; [intros [= <-]; by eapply route_render| |done].
  destruct (route user to') as [[q|to'']|] eqn:E3; [intros [= <-]; by eapply route_render|done|done].
Qed.

(** ** Redirections without a bound *)

(** What React Router does, as a relation: a [<Navigate>] replaces the
    location and the routes are matched again, as often as needed. *)
Inductive resolves (user : option User) : string -> screen -> Prop :=
| rs_blank path : route user path = None -> resolves user path SBlank
| rs_page path p : route user path = Some (Render p) -> resolves user path (SPage p)
| rs_redirect path to sc :
    route user path = Some (Redirect to) -> resolves user to sc -> resolves user path sc.

(** The targets of the redirections render at once. *)
Lemma route_redirect_target user path to :
  route user path = Some (Redirect to) ->
  exists p, route user to = Some (Render p) /\ follow 0 user to = SPage p.
Proof.
  intros E. destruct (route_redirect _ _ _ E) as [[-> Hu]|[-> ->]].
  - exists PHome. by destruct user.
  - by exists PLogin.
Qed.

(** C8: following the redirections of the routes takes one redirection
    at most: with a fuel of one, [follow] never runs out, whatever the
    session and the path; so [App]'s resolution never loops either. *)
Theorem resolve_no_loop user loading path :
  follow 1 user path <> SLoop /\ resolve user loading path <> SLoop.
Proof.
  assert (H : forall fuel, follow (S fuel) user path <> SLoop).
  { intros fuel. simpl. destruct (route user path) as [[p|to]|] eqn:E; [done| |done].
    destruct (route_redirect_target _ _ _ E) as (p & Ht & _).
    destruct fuel; simpl; by rewrite Ht. }
  split; [apply H|]. unfold resolve. destruct loading; [done|apply H].
Qed.

(** C33: the bounded resolution of [App] is the unbounded semantics of the
    router: once the session is known, [resolve] gives a screen exactly
    when following the routes and their redirections gives it. *)
Theorem resolve_equiv user path sc :
  resolve user false path = sc <-> resolves user path sc.
Proof.
  unfold resolve. simpl. split.
  - destruct (route user path) as [[p|to]|] eqn:E; intros <-.
    + by constructor.
    + destruct (route_redirect_target _ _ _ E) as (p & Ht & Hf).
      apply (rs_redirect _ _ to); [done|]. simpl. rewrite Ht. by constructor.
    + by constructor.
  - destruct 1 as [path E|path p E|path to sc E Hr]; rewrite E; [done|done|].
    destruct (route_redirect_target _ _ _ E) as (p & Ht & _).
    inversion Hr as [? E2|? q E2|? to' ? E2]; subst; rewrite Ht in E2; try discriminate.
    injection E2 as ->. simpl. by rewrite Ht.
Qed.

End Routing.

Module Navbar.
Import Routing.

Record state := mkState { isMobileMenuOpen : bool }.

(** [navItems]: Home, and Create Post and Profile for a signed-in user. *)
Definition navItems (user : option User) : list (string * string) :=
  [("/", "Home")] ++
  match user with
  | Some _ => [("/create-post", "Create Post"); ("/profile", "Profile")]
  | None => []
  end.

(** The links of the right-hand side: Login and Register without a user
    (a signed-in user gets the Logout button instead). *)
Definition authLinks (user : option User) : list string :=
  match user with Some _ => [] | None => ["/login"; "/register"] end.

(** Every target the bar offers, desktop and mobile. *)
Definition links (user : option User) : list string := (fst <$> navItems user) ++ authLinks user.

(** [location.pathname === to]: the highlighted item. *)
Definition active (pathname to : string) : bool := String.eqb pathname to.

(** The menu button: [setIsMobileMenuOpen(!isMobileMenuOpen)]. *)
Definition toggleMenu (s : state) : state := mkState (negb (isMobileMenuOpen s)).

(** [handleLogout()]: the provider's [logout()], [navigate('/')], and
    [setIsMobileMenuOpen(false)]. *)
Definition handleLogout (a : Auth.state) (s : state) : Auth.state * state * list Effect :=
  let o := Auth.logout a in
  (o_st o, mkState false, o_fx o ++ [Navigate "/"]).

(** C29: every link the bar offers, to a visitor or to a signed-in user,
    leads straight to a page: no redirection, no empty route. *)
Theorem navbar_links_render user to :
  to ∈ links user -> exists p, route user to = Some (Render p).
Proof.
  unfold links, navItems, authLinks. destruct user; simpl;
    rewrite ?elem_of_app, ?elem_of_cons, ?elem_of_nil; intros H;
    repeat destruct H as [->|H]; try done; eexists; reflexivity.
Qed.

(** logging out from the bar empties the session and both token
    slots, closes the menu and goes home, where the visitor is shown the
    home page and offered only Home, Login and Register. *)
Theorem navbar_logout a s :
  Auth.loading a = false ->
  let '(a', s', fx) := handleLogout a s in
  Auth.user a' = None /\ Auth.store a' = Auth.mkStorage None None /\
  isMobileMenuOpen s' = false /\
  fx = [Toast ToastSuccess "Logged out successfully!"; Navigate "/"] /\
  resolve (Auth.user a') (Auth.loading a') "/" = SPage PHome /\
  links (Auth.user a') = ["/"; "/login"; "/register"].
Proof. intros Hl. unfold handleLogout. cbn. by rewrite Hl. Qed.

(** ** Concrete runs *)

Definition demo_user : User := mkUser 4 "eve" "eve@example.org" "" None "2024-01-01" 0.

Lemma resolve_guards_witness :
  resolve None false "/profile/" = SPage PLogin /\
  (PLogin = PProfile \/ PLogin = PCreatePost -> None <> @None User) /\
  (PLogin = PLogin \/ PLogin = PRegister -> None = @None User).
Proof. split; [reflexivity|]. apply (resolve_guards None "/profile/" PLogin). reflexivity. Defined.

Lemma navbar_links_render_witness :
  "/profile" ∈ links (Some demo_user) /\
  exists p, route (Some demo_user) "/profile" = Some (Render p).
Proof.
  assert (H : "/profile" ∈ links (Some demo_user)) by (simpl; set_solver).
  split; [exact H|]. exact (navbar_links_render (Some demo_user) "/profile" H).
Defined.

Lemma navbar_logout_witness :
  let a := Auth.mkState (Some demo_user) false (Auth.mkStorage (Some "t") (Some "r")) in
  Auth.loading a = false /\
  let '(a', s', fx) := handleLogout a (mkState true) in
  Auth.user a' = None /\ Auth.store a' = Auth.mkStorage None None /\
  isMobileMenuOpen s' = false /\
  fx = [Toast ToastSuccess "Logged out successfully!"; Navigate "/"] /\
  resolve (Auth.user a') (Auth.loading a') "/" = SPage PHome /\
  links (Auth.user a') = ["/"; "/login"; "/register"].
Proof. intros a. split; [reflexivity|]. apply (navbar_logout a (mkState true)). reflexivity. Defined.

End Navbar.
