(* ===== verification/Links.v ===== *)
(** * Links: the rendered pages and the routes they lead to

    [home_dom] is the render of [pages/Home.jsx] around the search bar
    and the cards ([SearchBar.view], [PostCard.view]).  The theorems
    follow every link and navigating button of the rendered pages through
    [Routing.route]: all of them lead to a page, except the edit link of
    a post card, [/posts/:id/edit], which no route of [App.jsx] matches. *)

From S2P Require Import Prelude Api Dom QueryString Feed PostCard SearchBar PostDetail.
From S2P Require Import CreatePost Auth Routing.
From Stdlib Require Import DecimalString DecimalNat.
Import Routing.Routing.

(** The home page: the header with "Create Post" for a signed-in user, the
    search bar, then the cards and "Load More" when [pagination.next] is
    truthy, or the empty state with "Create Your First Post".  Each card
    has its own state, [card]. *)
Definition home_dom (user : option User) (s : Home.state) (bar : node)
    (card : Post -> PostCard.state) : node :=
  let signed_in := match user with Some _ => true | None => false end in
  Group ([Text "Welcome to BlogApp"] ++
         when signed_in [Link "/create-post" [Text "Create Post"]] ++
         [bar] ++
         if 0 <? length (Home.posts s) then
           ((fun p => PostCard.view user p (card p)) <$> Home.posts s) ++
           when (truthy_opt (pg_next (Home.pagination s)))
             [Button "loadMore" true [Text "Load More Posts"]]
         else
           [Text "No posts found"] ++
           when signed_in [Link "/create-post" [Text "Create Your First Post"]]).

(** ** Paths of posts *)

Lemma avoids_digits d : avoids "/" (NilEmpty.string_of_uint d) = true.
Proof. induction d; simpl; auto. Qed.

Lemma string_of_nat_truthy n : truthy (string_of_nat n) = true.
Proof.
  apply truthy_true. unfold string_of_nat. intros H.
  apply (f_equal NilEmpty.uint_of_string) in H. rewrite NilEmpty.usu in H.
  injection H as H. pose proof (DecimalNat.Unsigned.of_to n) as E.
  rewrite H in E. simpl in E. subst n. discriminate.
Qed.

Lemma segments_post n rest :
  Routing.segments ("/posts/" ^^ string_of_nat n ^^ rest) =
  ["posts"] ++ List.filter truthy (split_on "/" (string_of_nat n ^^ rest)).
Proof. reflexivity. Qed.

Lemma split_digits_slash n b :
  split_on "/" (string_of_nat n ^^ String "/" b) = string_of_nat n :: split_on "/" b.
Proof. apply split_on_cut, avoids_digits. Qed.

Lemma route_detail user n :
  Routing.route user (PostCard.detail_path n) = Some (Render (PPostDetail (string_of_nat n))).
Proof.
  unfold Routing.route, PostCard.detail_path.
  rewrite <- (str_app_nil_r (string_of_nat n)). rewrite segments_post.
  rewrite split_on_avoids by (rewrite avoids_app; apply andb_true_intro; split; [apply avoids_digits|done]).
  rewrite str_app_nil_r. simpl. by rewrite string_of_nat_truthy.
Qed.

Lemma route_edit user n : Routing.route user (PostCard.edit_path n) = None.
Proof.
  unfold Routing.route, PostCard.edit_path, PostCard.detail_path.
  rewrite str_app_assoc, segments_post. simpl.
  rewrite split_digits_slash. simpl. rewrite string_of_nat_truthy. reflexivity.
Qed.

(** ** The links of a post card *)

Lemma card_links user post s :
  links (PostCard.view user post s) =
  (if PostCard.canEdit user post then [PostCard.edit_path (post_id post)] else []) ++
  [PostCard.detail_path (post_id post); PostCard.detail_path (post_id post);
   PostCard.detail_path (post_id post)].
Proof.
  unfold PostCard.view, when.
  destruct (PostCard.canEdit user post), (truthy_opt (image post)); simpl;
    rewrite links_avatar; reflexivity.
Qed.

Lemma card_link_cases user post s to :
  to ∈ links (PostCard.view user post s) ->
  to = PostCard.detail_path (post_id post) \/
  (to = PostCard.edit_path (post_id post) /\ PostCard.canEdit user post = true).
Proof.
  rewrite card_links. destruct (PostCard.canEdit user post); simpl;
    rewrite ?elem_of_cons, ?elem_of_nil; naive_solver.
Qed.

Lemma resolve_card_link user post to :
  to = PostCard.detail_path (post_id post) \/
  (to = PostCard.edit_path (post_id post) /\ PostCard.canEdit user post = true) ->
  resolve user false to = SPage (PPostDetail (string_of_nat (post_id post))) \/
  (to = PostCard.edit_path (post_id post) /\ PostCard.canEdit user post = true /\
   resolve user false to = SBlank).
Proof.
  unfold resolve. simpl. intros [->|[-> Hc]]; [left; by rewrite route_detail|right].
  by rewrite route_edit.
Qed.

(** The links of a post card lead to the page of its post, except the
    edit link offered to the author, [/posts/:id/edit], which no route
    matches: following it shows an empty page. *)
Theorem card_links_resolve user post s :
  (forall to, to ∈ links (PostCard.view user post s) ->
     resolve user false to = SPage (PPostDetail (string_of_nat (post_id post))) \/
     (to = PostCard.edit_path (post_id post) /\ PostCard.canEdit user post = true /\
      resolve user false to = SBlank)) /\
  (PostCard.canEdit user post = true ->
   PostCard.edit_path (post_id post) ∈ links (PostCard.view user post s)).
Proof.
  split.
  - intros to Hto. by apply resolve_card_link, (card_link_cases user post s).
  - intros Hc. rewrite card_links, Hc. simpl. by left.
Qed.

(** ** The links of the pages *)

Lemma comments_links cs : List.flat_map links (PostDetail.comment_dom <$> cs) = [].
Proof.
  induction cs as [|c cs IH]; [done|]. simpl. rewrite links_avatar. exact IH.
Qed.

Lemma detail_link_cases user s to :
  to ∈ links (PostDetail.page_dom user s) -> to = "/" \/ (to = "/login" /\ user = None).
Proof.
  unfold PostDetail.page_dom, when.
  destruct (PostDetail.render s) as [| |p]; simpl; [by rewrite elem_of_nil| |].
  - rewrite elem_of_cons, elem_of_nil. naive_solver.
  - rewrite links_avatar.
    destruct (PostDetail.canEdit user p), (truthy_opt (image p)), user, (0 <? _); simpl;
      rewrite ?links_avatar, ?comments_links; simpl; rewrite ?elem_of_cons, ?elem_of_nil; naive_solver.
Qed.


Lemma bar_links sf b : links (SearchBar.view sf b) = [].
Proof. unfold SearchBar.view, when. by destruct (SearchBar.clear_visible b), sf. Qed.

Lemma composer_links c : links (CreatePost.view c) = ["/"].
Proof.
  unfold CreatePost.view, when. destruct (CreatePost.imagePreview c) as [u|]; [destruct (truthy u)|]; done.
Qed.

Lemma cards_links user ps card to :
  to ∈ List.flat_map links ((fun p => PostCard.view user p (card p)) <$> ps) ->
  exists p, p ∈ ps /\ to ∈ links (PostCard.view user p (card p)).
Proof.
  induction ps as [|p ps IH]; simpl; [by rewrite elem_of_nil|].
  rewrite elem_of_app. intros [H|H]; [exists p; split; [left|]; done|].
  destruct (IH H) as (q & Hq & Ht). exists q. split; [by right|done].
Qed.

Lemma home_link_cases user h sf b card to :
  to ∈ links (home_dom user h (SearchBar.view sf b) card) ->
  (to = "/create-post" /\ user <> None) \/
  exists p, p ∈ Home.posts h /\ to ∈ links (PostCard.view user p (card p)).
Proof.
  unfold home_dom, when. cbn [links]. rewrite !flat_map_app. cbn [List.flat_map links].
  rewrite bar_links.
  destruct user as [u|], (0 <? length (Home.posts h)), (truthy_opt (pg_next (Home.pagination h))); rewrite ?flat_map_app; simpl; rewrite ?app_nil_r;
    intros H; rewrite ?elem_of_app, ?elem_of_cons, ?elem_of_nil in H;
    repeat match goal with H : _ \/ _ |- _ => destruct H as [H|H] end;
    try (right; exact (cards_links _ _ _ _ H)); try (left; split; [done|done]); try done.
Qed.

Lemma cards_links_in user ps card p to :
  p ∈ ps -> to ∈ links (PostCard.view user p (card p)) ->
  to ∈ List.flat_map links ((fun p => PostCard.view user p (card p)) <$> ps).
Proof.
  induction ps as [|q ps IH]; [by rewrite elem_of_nil|].
  rewrite fmap_cons. cbn [List.flat_map]. rewrite elem_of_cons, elem_of_app.
  intros [->|Hp] Ht; [by left|right; by apply IH].
Qed.

(** C35: the home page offers the author of each post it shows the edit
    link [/posts/:id/edit] of its card, and following that link shows an
    empty screen: no route of [App.jsx] matches it. *)
Theorem home_edit_links_blank user h sf b card post :
  post ∈ Home.posts h -> PostCard.canEdit user post = true ->
  PostCard.edit_path (post_id post) ∈ links (home_dom user h (SearchBar.view sf b) card) /\
  resolve user false (PostCard.edit_path (post_id post)) = SBlank.
Proof.
  intros Hp Hc. split; [|unfold resolve; simpl; by rewrite route_edit].
  unfold home_dom, when. cbn [links]. rewrite !flat_map_app, !elem_of_app. right; right; right.
  destruct (0 <? length (Home.posts h)) eqn:E.
  - rewrite flat_map_app, elem_of_app. left. apply (cards_links_in _ _ _ post); [done|].
    rewrite card_links, Hc. by left.
  - apply Nat.ltb_ge in E. destruct (Home.posts h); [by apply elem_of_nil in Hp|simpl in E; lia].
Qed.

(** C36: across the pages a session renders (a post, the composer and the
    home page with its search bar and cards), every link and navigating
    button leads to a page, except the edit links of the cards of the
    user's own posts, which lead to an empty screen. *)
Theorem app_links_resolve user sd sc h sf b card to :
  to ∈ links (PostDetail.page_dom user sd) ++ links (CreatePost.view sc) ++
       links (home_dom user h (SearchBar.view sf b) card) ->
  (exists p, resolve user false to = SPage p) \/
  (exists post, post ∈ Home.posts h /\ PostCard.canEdit user post = true /\
     to = PostCard.edit_path (post_id post) /\ resolve user false to = SBlank).
Proof.
  rewrite !elem_of_app. intros [H|[H|H]].
  - apply detail_link_cases in H as [->|[-> ->]]; left; eexists; reflexivity.
  - rewrite composer_links, list_elem_of_singleton in H. subst. left. eexists. reflexivity.
  - apply home_link_cases in H as [[-> Hu]|(p & Hp & Ht)].
    + left. destruct user; [eexists; reflexivity|done].
    + destruct (resolve_card_link user p to (card_link_cases _ _ _ _ Ht)) as [E|(E1 & E2 & E3)].
      * left. eauto.
      * right. eauto.
Qed.

(** ** A concrete session *)

Definition demo_author : User := mkUser 2 "cy" "cy@example.org" "" None "2024-01-01" 1.

Definition demo_home : Home.state :=
  Home.mkState [PostCard.demo_post] false "" (mkJSObj 0 SearchBar.default_filters)
               (mkPagination None None 1).

Lemma app_links_resolve_witness :
  let to := PostCard.edit_path 5 in
  to ∈ links (PostDetail.page_dom (Some demo_author) PostDetail.initial) ++
       links (CreatePost.view CreatePost.initial) ++
       links (home_dom (Some demo_author) demo_home (SearchBar.view false (SearchBar.mount 0))
                (fun p => PostCard.init p)) /\
  ((exists p, resolve (Some demo_author) false to = SPage p) \/
   (exists post, post ∈ Home.posts demo_home /\ PostCard.canEdit (Some demo_author) post = true /\
     to = PostCard.edit_path (post_id post) /\ resolve (Some demo_author) false to = SBlank)).
Proof.
  assert (H : PostCard.edit_path 5 ∈
    links (PostDetail.page_dom (Some demo_author) PostDetail.initial) ++
    links (CreatePost.view CreatePost.initial) ++
    links (home_dom (Some demo_author) demo_home (SearchBar.view false (SearchBar.mount 0))
             (fun p => PostCard.init p))).
  { apply list_elem_of_In. vm_compute. auto 10. }
  split; [exact H|]. exact (app_links_resolve _ _ _ _ _ _ _ _ H).
Defined.

Lemma home_edit_links_blank_witness :
  PostCard.demo_post ∈ Home.posts demo_home /\
  PostCard.canEdit (Some demo_author) PostCard.demo_post = true /\
  PostCard.edit_path 5 ∈ links (home_dom (Some demo_author) demo_home
                                  (SearchBar.view false (SearchBar.mount 0)) PostCard.init) /\
  resolve (Some demo_author) false (PostCard.edit_path 5) = SBlank.
Proof.
  assert (Hp : PostCard.demo_post ∈ Home.posts demo_home) by (simpl; left).
  assert (Hc : PostCard.canEdit (Some demo_author) PostCard.demo_post = true) by reflexivity.
  split; [exact Hp|split; [exact Hc|]].
  exact (home_edit_links_blank (Some demo_author) demo_home false (SearchBar.mount 0) PostCard.init
           PostCard.demo_post Hp Hc).
Defined.
